(** * LocalFile: the peer-connection manager and the chunked file transfer

    A shallow embedding of [src/lib/webrtc.ts] (class [WebRTCManager]) and of
    the receiving side of the file transfer in the chat component
    ([acceptFileOffer] and the [onFileTransfer] handler).

    Conventions of the embedding.
    - The browser's connection engine ([RTCPeerConnection]) and the signalling
      transport (Firebase [push]) are outside the repository.  They enter as a
      record [Engine] of functions, bound once by a [Section]; every engine
      call may be rejected ([None]: the promise rejects and the surrounding
      [try] block is left).  An engine call is a function of the engine
      object as the manager reads it; the theorems hold for every engine.
    - Every call the manager makes on the engine or on the transport is
      appended to the [trace] field of the manager, so that "which calls, in
      which order" is a statement about a list.
    - Each public operation runs to completion without another handler being
      interleaved at its [await] points.
    - Device ids are strings; [<] and [>=] of JavaScript on strings are the
      lexicographic order on code units, here [String.ltb] and its negation. *)

From Stdlib Require Import ZArith Lia Strings.Byte.
From stdpp Require Import base option list strings gmap fin_maps.

Local Open Scope string_scope.

(** * Part I: the embedding of the source *)

(** ** Data of the engine interface *)

(** [RTCPeerConnectionState]. *)
Inductive ConnectionState :=
  | CsNew | CsConnecting | CsConnected | CsDisconnected | CsFailed | CsClosed.

(** [RTCSignalingState]. *)
Inductive SignalingState :=
  | Stable | HaveLocalOffer | HaveRemoteOffer
  | HaveLocalPranswer | HaveRemotePranswer | SigClosed.

(** [RTCSessionDescriptionInit]: [{type, sdp}]. *)
Record Description := { d_type : string; d_sdp : string }.

(** [RTCIceCandidateInit]: every field is optional. *)
Record IceCandidateInit := {
  candidate : option string;
  sdpMid : option string;
  sdpMLineIndex : option nat;
  usernameFragment : option string
}.

(** The [data] field of a signal is untyped on the wire: the handlers cast it
    to what they expect.  [PNothing] is an absent ([null]/[undefined]) field. *)
Inductive Payload :=
  | PDescription (d : Description)
  | PIce (c : IceCandidateInit)
  | PNothing.

(** [SignalData]. *)
Record SignalData := {
  from : string;
  type : string;
  data : Payload;
  timestamp : Z
}.

(** What the manager reads of an [RTCPeerConnection]. *)
Record RTCPeerConnection := {
  connectionState : ConnectionState;
  signalingState : SignalingState;
  remoteDescription : option Payload
}.

(** An entry of the connection table: the engine object and the role
    [createPeerConnection] wired it for ([initiator = true]: it created the
    data channel; [false]: it waits in [ondatachannel]).  The role is fixed at
    creation; no engine call changes it. *)
Record Session := {
  pc : RTCPeerConnection;
  initiator : bool
}.

(** The same session after an engine call changed the engine object. *)
Definition with_pc_state (ses : Session) (pc' : RTCPeerConnection) : Session :=
  {| pc := pc'; initiator := initiator ses |}.

(** [RTCDataChannel.readyState]. *)
Inductive ReadyState := RsConnecting | RsOpen | RsClosing | RsClosed.

Record RTCDataChannel := { readyState : ReadyState }.

(** Calls made on the engine and on the transport, in program order. *)
Inductive Event :=
  | EvNew (peerId : string) (init : bool)
  | EvClose (peerId : string)
  | EvCreateDataChannel (peerId : string)
  | EvCreateOffer (peerId : string)
  | EvCreateAnswer (peerId : string)
  | EvSetLocalDescription (peerId : string) (d : Description)
  | EvSetRemoteDescription (peerId : string) (d : Payload)
  | EvAddIceCandidate (peerId : string) (c : IceCandidateInit)
  | EvPush (to : string) (s : SignalData).

(** The engine and the transport, as the manager drives them.  A rejected
    call leaves the connection as it was. *)
Record Engine := {
  eng_createOffer : RTCPeerConnection -> option Description;
  eng_createAnswer : RTCPeerConnection -> option Description;
  eng_setLocalDescription :
    RTCPeerConnection -> Description -> option RTCPeerConnection;
  eng_setRemoteDescription :
    RTCPeerConnection -> Payload -> option RTCPeerConnection;
  eng_addIceCandidate :
    RTCPeerConnection -> IceCandidateInit -> option RTCPeerConnection;
  eng_push : string -> SignalData -> bool
}.

(** ** The manager *)

Record Manager := {
  myDeviceId : string;
  peerConnections : gmap string Session;
  dataChannels : gmap string RTCDataChannel;
  connectionStates : gmap string string;
  iceCandidatesBuffer : gmap string (list IceCandidateInit);
  trace : list Event
}.

Definition set_peerConnections (f : gmap string Session -> gmap string Session)
    (m : Manager) : Manager :=
  {| myDeviceId := myDeviceId m; peerConnections := f (peerConnections m);
     dataChannels := dataChannels m; connectionStates := connectionStates m;
     iceCandidatesBuffer := iceCandidatesBuffer m; trace := trace m |}.

Definition set_dataChannels (f : gmap string RTCDataChannel -> gmap string RTCDataChannel)
    (m : Manager) : Manager :=
  {| myDeviceId := myDeviceId m; peerConnections := peerConnections m;
     dataChannels := f (dataChannels m); connectionStates := connectionStates m;
     iceCandidatesBuffer := iceCandidatesBuffer m; trace := trace m |}.

Definition set_connectionStates (f : gmap string string -> gmap string string)
    (m : Manager) : Manager :=
  {| myDeviceId := myDeviceId m; peerConnections := peerConnections m;
     dataChannels := dataChannels m; connectionStates := f (connectionStates m);
     iceCandidatesBuffer := iceCandidatesBuffer m; trace := trace m |}.

Definition set_iceCandidatesBuffer
    (f : gmap string (list IceCandidateInit) -> gmap string (list IceCandidateInit))
    (m : Manager) : Manager :=
  {| myDeviceId := myDeviceId m; peerConnections := peerConnections m;
     dataChannels := dataChannels m; connectionStates := connectionStates m;
     iceCandidatesBuffer := f (iceCandidatesBuffer m); trace := trace m |}.

(** Appends one call to the trace. *)
Definition emit (e : Event) (m : Manager) : Manager :=
  {| myDeviceId := myDeviceId m; peerConnections := peerConnections m;
     dataChannels := dataChannels m; connectionStates := connectionStates m;
     iceCandidatesBuffer := iceCandidatesBuffer m; trace := trace m ++ [e] |}.

(** ** Operations that may throw

    [Op A] is a computation on the manager that either returns ([Some]) or
    throws ([None]); the manager reached at that point is kept in both cases,
    as nothing in the source rolls a mutation back. *)
Definition Op (A : Type) : Type := Manager -> option A * Manager.

Definition ret {A} (a : A) : Op A := fun m => (Some a, m).

Definition throw {A} : Op A := fun m => (None, m).

Definition bind {A B} (c : Op A) (k : A -> Op B) : Op B :=
  fun m => match c m with
           | (Some a, m') => k a m'
           | (None, m') => (None, m')
           end.

(** A state change that cannot throw. *)
Definition modify (f : Manager -> Manager) : Op unit := fun m => (Some tt, f m).

(** [try { c } catch (error) { console.error(...) }]. *)
Definition try_catch (c : Op unit) : Manager -> Manager := fun m => snd (c m).

Declare Scope op_scope.
Delimit Scope op_scope with op.
Notation "x <- c ;; k" := (bind c (fun x => k))
  (at level 100, c at next level, right associativity) : op_scope.
Notation "c ;;; k" := (bind c (fun _ => k))
  (at level 100, right associativity) : op_scope.

(** JavaScript's [a < b] and [a >= b] on strings. *)
Definition js_lt (a b : string) : bool := String.ltb a b.
Definition js_ge (a b : string) : bool := negb (String.ltb a b).

Definition is_connected_or_connecting (c : ConnectionState) : bool :=
  match c with CsConnected | CsConnecting => true | _ => false end.

Definition is_bad_state (c : ConnectionState) : bool :=
  match c with CsFailed | CsDisconnected | CsClosed => true | _ => false end.

Definition is_connected (c : ConnectionState) : bool :=
  match c with CsConnected => true | _ => false end.

Definition is_new (c : ConnectionState) : bool :=
  match c with CsNew => true | _ => false end.

Definition is_stable (s : SignalingState) : bool :=
  match s with Stable => true | _ => false end.

Definition is_have_local_offer (s : SignalingState) : bool :=
  match s with HaveLocalOffer => true | _ => false end.

Definition is_have_remote_offer (s : SignalingState) : bool :=
  match s with HaveRemoteOffer => true | _ => false end.

(** [new RTCPeerConnection(rtcConfig)]: a fresh engine instance. *)
Definition new_RTCPeerConnection : RTCPeerConnection :=
  {| connectionState := CsNew; signalingState := Stable;
     remoteDescription := None |}.

Definition new_session (init : bool) : Session :=
  {| pc := new_RTCPeerConnection; initiator := init |}.

Section WithEngine.

Variable E : Engine.

(** The value read from [Date.now()]. *)
Variable now : Z.

(** [setupDataChannel]: registers the channel and marks the peer connecting
    (the channel's event handlers are events of the environment). *)
Definition setupDataChannel (peerId : string) (dc : RTCDataChannel)
    (m : Manager) : Manager :=
  set_connectionStates (<[peerId := "connecting"]>)
    (set_dataChannels (<[peerId := dc]>) m).

(** The tail of [createPeerConnection], from [new RTCPeerConnection] on. *)
Definition create_fresh (peerId : string) (init : bool) (m : Manager) : Manager :=
  let m1 := emit (EvNew peerId init) m in
  let m2 := if init
            then setupDataChannel peerId {| readyState := RsConnecting |}
                   (emit (EvCreateDataChannel peerId) m1)
            else m1 in
  set_peerConnections (<[peerId := new_session init]>) m2.

(** [pc.close(); this.peerConnections.delete(peerId)]. *)
Definition close_and_delete (peerId : string) (m : Manager) : Manager :=
  set_peerConnections (delete peerId) (emit (EvClose peerId) m).

(** [createPeerConnection(peerId, initiator)]: the connection it returns is
    the table entry of [peerId] in the resulting manager. *)
Definition createPeerConnection (peerId : string) (init : bool)
    (m : Manager) : Manager :=
  match peerConnections m !! peerId with
  | Some ses =>
      if is_connected_or_connecting (connectionState (pc ses)) then m
      else if is_bad_state (connectionState (pc ses))
      then create_fresh peerId init (close_and_delete peerId m)
      else if is_new (connectionState (pc ses)) && is_stable (signalingState (pc ses))
      then m
      else create_fresh peerId init (close_and_delete peerId m)
  | None => create_fresh peerId init m
  end.

(** Engine calls on the connection of [peerId]. *)
Definition with_pc {A} (peerId : string) (k : Session -> Op A) : Op A :=
  fun m => match peerConnections m !! peerId with
           | Some ses => k ses m
           | None => throw m
           end.

Definition pc_createOffer (peerId : string) : Op Description :=
  with_pc peerId (fun ses m =>
    (eng_createOffer E (pc ses), emit (EvCreateOffer peerId) m)).

Definition pc_createAnswer (peerId : string) : Op Description :=
  with_pc peerId (fun ses m =>
    (eng_createAnswer E (pc ses), emit (EvCreateAnswer peerId) m)).

Definition pc_setLocalDescription (peerId : string) (d : Description) : Op unit :=
  with_pc peerId (fun ses m =>
    let m' := emit (EvSetLocalDescription peerId d) m in
    match eng_setLocalDescription E (pc ses) d with
    | Some pc' =>
        (Some tt, set_peerConnections (<[peerId := with_pc_state ses pc']>) m')
    | None => (None, m')
    end).

Definition pc_setRemoteDescription (peerId : string) (d : Payload) : Op unit :=
  with_pc peerId (fun ses m =>
    let m' := emit (EvSetRemoteDescription peerId d) m in
    match eng_setRemoteDescription E (pc ses) d with
    | Some pc' =>
        (Some tt, set_peerConnections (<[peerId := with_pc_state ses pc']>) m')
    | None => (None, m')
    end).

(** [sendSignal(to, type, data)]. *)
Definition mkSignal (me : string) (ty : string) (d : Payload) : SignalData :=
  {| from := me; type := ty; data := d; timestamp := now |}.

Definition sendSignal (to : string) (ty : string) (d : Payload) : Op unit :=
  fun m =>
    let s := mkSignal (myDeviceId m) ty d in
    if eng_push E to s then ret tt (emit (EvPush to s) m) else throw m.

(** [{ type: d.type, sdp: d.sdp }]. *)
Definition plain (d : Description) : Payload :=
  PDescription {| d_type := d_type d; d_sdp := d_sdp d |}.

Local Open Scope op_scope.

(** [connectToPeer(peerId)]. *)
Definition connect_body (peerId : string) : Op unit :=
  modify (createPeerConnection peerId true) ;;;
  offer <- pc_createOffer peerId ;;
  pc_setLocalDescription peerId offer ;;;
  sendSignal peerId "offer" (plain offer).

Definition connectToPeer (peerId : string) (m : Manager) : Manager :=
  if js_ge (myDeviceId m) peerId then m
  else
    match peerConnections m !! peerId with
    | Some existingPc =>
        if is_connected_or_connecting (connectionState (pc existingPc)) then m
        else if is_have_remote_offer (signalingState (pc existingPc)) then m
        else if is_have_local_offer (signalingState (pc existingPc)) then m
        else try_catch (connect_body peerId) m
    | None => try_catch (connect_body peerId) m
    end.

(** One iteration of the loop of [flushIceCandidates], also the immediate
    path of [handleIceCandidate]: the [try] block builds the candidate and
    hands it to the engine ([eng_addIceCandidate] stands for both); a failure
    is logged and nothing else happens. *)
Definition add_buffered (peerId : string) (c : IceCandidateInit)
    (m : Manager) : Manager :=
  match peerConnections m !! peerId with
  | Some ses =>
      let m' := emit (EvAddIceCandidate peerId c) m in
      match eng_addIceCandidate E (pc ses) c with
      | Some pc' => set_peerConnections (<[peerId := with_pc_state ses pc']>) m'
      | None => m'
      end
  | None => m
  end.

(** [flushIceCandidates(peerId)]. *)
Definition flushIceCandidates (peerId : string) (m : Manager) : Manager :=
  match peerConnections m !! peerId with
  | None => m
  | Some _ =>
      match iceCandidatesBuffer m !! peerId with
      | None => m
      | Some [] => m
      | Some bufferedCandidates =>
          set_iceCandidatesBuffer (delete peerId)
            (foldl (fun acc c => add_buffered peerId c acc) m bufferedCandidates)
      end
  end.

(** The part of [handleOffer] after the session has been chosen. *)
Definition answer_body (peerId : string) (offer : Payload) : Op unit :=
  pc_setRemoteDescription peerId offer ;;;
  modify (flushIceCandidates peerId) ;;;
  answer <- pc_createAnswer peerId ;;
  pc_setLocalDescription peerId answer ;;;
  sendSignal peerId "answer" (plain answer).

(** [handleOffer(peerId, offer)]. *)
Definition handleOffer (peerId : string) (offer : Payload) (m : Manager) : Manager :=
  match peerConnections m !! peerId with
  | None =>
      try_catch (modify (createPeerConnection peerId false) ;;;
                 answer_body peerId offer) m
  | Some ses =>
      if is_stable (signalingState (pc ses))
      then try_catch (modify (createPeerConnection peerId false) ;;;
                      answer_body peerId offer) m
      else if is_have_remote_offer (signalingState (pc ses)) then m
      else if is_have_local_offer (signalingState (pc ses))
      then if js_lt (myDeviceId m) peerId
           then try_catch (modify (createPeerConnection peerId false) ;;;
                           answer_body peerId offer) m
           else m
      else try_catch (answer_body peerId offer) m
  end.

(** [handleAnswer(peerId, answer)]. *)
Definition handleAnswer (peerId : string) (answer : Payload) (m : Manager) : Manager :=
  match peerConnections m !! peerId with
  | Some _ =>
      try_catch (pc_setRemoteDescription peerId answer ;;;
                 modify (flushIceCandidates peerId)) m
  | None => m
  end.

(** [!candidate || !candidate.candidate]: the payload is absent, or it has no
    non-empty [candidate] string. *)
Definition usable_candidate (p : Payload) : option IceCandidateInit :=
  match p with
  | PIce c =>
      match candidate c with
      | Some s => if decide (s = "") then None else Some c
      | None => None
      end
  | PDescription _ => None
  | PNothing => None
  end.

(** [handleIceCandidate(peerId, candidate)]. *)
Definition handleIceCandidate (peerId : string) (p : Payload) (m : Manager) : Manager :=
  match peerConnections m !! peerId, usable_candidate p with
  | Some ses, Some c =>
      match remoteDescription (pc ses) with
      | None =>
          set_iceCandidatesBuffer
            (fun b => <[peerId := (default [] (b !! peerId) ++ [c])%list]> b) m
      | Some _ => add_buffered peerId c m
      end
  | _, _ => m
  end.

(** [handleSignal(signal)]. *)
Definition handleSignal (signal : SignalData) (m : Manager) : Manager :=
  let existingPc := peerConnections m !! from signal in
  if decide (type signal = "offer") then
    match existingPc with
    | Some ses =>
        if is_connected (connectionState (pc ses))
           || is_stable (signalingState (pc ses))
        then m
        else handleOffer (from signal) (data signal) m
    | None => handleOffer (from signal) (data signal) m
    end
  else if decide (type signal = "answer") then
    match existingPc with
    | Some ses =>
        if is_have_local_offer (signalingState (pc ses))
        then handleAnswer (from signal) (data signal) m
        else m
    | None => m
    end
  else if decide (type signal = "ice-candidate") then
    match existingPc with
    | Some _ => handleIceCandidate (from signal) (data signal) m
    | None => m
    end
  else m.

(** [cleanupConnections()]: the loop body for one entry of the table. *)
Definition cleanup_entry (m : Manager) (e : string * Session) : Manager :=
  if is_bad_state (connectionState (pc e.2))
  then set_dataChannels (delete e.1) (close_and_delete e.1 m)
  else m.

Definition cleanupConnections (m : Manager) : Manager :=
  foldl cleanup_entry m (map_to_list (peerConnections m)).

End WithEngine.

Arguments ret {A} a m /.
Arguments throw {A} m /.
Arguments bind {A B} c k m /.
Arguments modify f m /.
Arguments try_catch c m /.
Arguments with_pc {A} peerId k m /.

(** ** The file transfer

    The sender is [sendFile] and [sendFileChunks] of the manager; the receiver
    is [acceptFileOffer] and the binary branch of the [onFileTransfer] handler
    of the chat component.  Sizes are JavaScript numbers holding byte counts;
    [Math.ceil(a / 16384)] divides by a power of two, which is exact, so it is
    the integer ceiling. *)

(** [Math.ceil(a / b)] on integers, [b > 0]. *)
Definition ceil_div (a b : Z) : Z := (- ((- a) / b))%Z.

(** [Uint8Array.prototype.slice(start, end)] for [0 <= start <= end]. *)
Definition slice (arr : list byte) (start end_ : Z) : list byte :=
  take (Z.to_nat (end_ - start)) (drop (Z.to_nat start) arr).

(** *** Sender: [sendFileChunks] *)

(** The [for] loop of [sendFileChunks], [n] iterations from index [i] on; the
    result is the sequence of binary frames handed to [dataChannel.send]. *)
Fixpoint chunk_loop (uint8Array : list byte) (chunkSize : Z) (n : nat) (i : Z)
    : list (list byte) :=
  match n with
  | O => []
  | S n' =>
      let start := (i * chunkSize)%Z in
      let end_ := Z.min (start + chunkSize) (Z.of_nat (length uint8Array)) in
      slice uint8Array start end_ :: chunk_loop uint8Array chunkSize n' (i + 1)
  end.

Definition sender_totalChunks (uint8Array : list byte) : Z :=
  let chunkSize := 16384%Z in
  ceil_div (Z.of_nat (length uint8Array)) chunkSize.

Definition sendFileChunks (uint8Array : list byte) : list (list byte) :=
  let chunkSize := 16384%Z in
  let totalChunks := ceil_div (Z.of_nat (length uint8Array)) chunkSize in
  chunk_loop uint8Array chunkSize (Z.to_nat totalChunks) 0.

(** *** Receiver *)

(** [FileTransferState] of the chat component.  Its [progress] percentage
    and constant [status] only feed the progress message and are left out. *)
Record FileTransferState := {
  ft_name : string;
  ft_size : Z;
  ft_type : string;
  chunks : list (list byte);
  totalChunks : Z;
  receivedChunks : Z
}.

(** A file handed to the browser for download. *)
Record Download := {
  dl_name : string;
  dl_type : string;
  dl_bytes : list byte
}.

Record Receiver := {
  selectedDevice : string;
  fileTransferRef : option FileTransferState;
  downloads : list Download
}.

(** [acceptFileOffer(transferId, fileName, fileSize, fileType)]: the state it
    initialises (it also sends the acceptance message to the sender). *)
Definition acceptFileOffer (fileName : string) (fileSize : Z) (fileType : string)
    (r : Receiver) : Receiver :=
  let chunkSize := 16384%Z in
  let totalChunks := ceil_div fileSize chunkSize in
  {| selectedDevice := selectedDevice r;
     fileTransferRef :=
       Some {| ft_name := fileName; ft_size := fileSize; ft_type := fileType;
               chunks := []; totalChunks := totalChunks; receivedChunks := 0 |};
     downloads := downloads r |}.

(** [combined.set(new Uint8Array(chunk), offset)], in range. *)
Definition set_at (combined chunk : list byte) (offset : nat) : list byte :=
  (take offset combined ++ chunk ++ drop (offset + length chunk) combined)%list.

(** The reconstruction: a zeroed array of the total size, each chunk written
    at the running offset. *)
Definition reassemble (chunks : list (list byte)) : list byte :=
  let totalSize := foldl (fun sum chunk => (sum + length chunk)%nat) 0%nat chunks in
  (foldl (fun st chunk => (set_at st.1 chunk st.2, (st.2 + length chunk)%nat))
         (replicate totalSize x00, 0%nat) chunks).1.

(** The [file-data] branch of the handler, for a binary frame from [peerId]. *)
Definition on_file_data (peerId : string) (data : list byte) (r : Receiver)
    : Receiver :=
  if decide (peerId = selectedDevice r) then
    match fileTransferRef r with
    | Some transfer =>
        let chunks' := (chunks transfer ++ [data])%list in
        let received' := (receivedChunks transfer + 1)%Z in
        if (totalChunks transfer <=? received')%Z
        then {| selectedDevice := selectedDevice r;
                fileTransferRef := None;
                downloads := (downloads r ++
                  [{| dl_name := ft_name transfer; dl_type := ft_type transfer;
                      dl_bytes := reassemble chunks' |}])%list |}
        else {| selectedDevice := selectedDevice r;
                fileTransferRef :=
                  Some {| ft_name := ft_name transfer; ft_size := ft_size transfer;
                          ft_type := ft_type transfer; chunks := chunks';
                          totalChunks := totalChunks transfer;
                          receivedChunks := received' |};
                downloads := downloads r |}
    | None => r
    end
  else r.

(** Frames in receipt order. *)
Definition receive_all (peerId : string) (frames : list (list byte))
    (r : Receiver) : Receiver :=
  foldl (fun acc frame => on_file_data peerId frame acc) r frames.

(** *** Sender: the offer and the wait for its answer

    [sendFile] swaps a temporary handler into the manager's single
    [onFileTransferCallback] slot and arms a 30 s timer.  The slot, the armed
    timers, the calls of each promise's [resolve] and the frames put on the
    data channels are the state below; time enters as the event of a timer
    firing.  An acceptance starts [sendFileChunks], which is asynchronous:
    it awaits [file.arrayBuffer()] and pauses 5 ms after every chunk, so its
    sends are events of their own, other events may come in between, and
    the promise is resolved when the loop returns. *)

Record File := {
  file_name : string;
  file_type : string;
  file_bytes : list byte
}.

(** What [sendFile] and [sendFileChunks] put on a data channel. *)
Inductive Frame :=
  | FMetadata (name : string) (size : Z) (fileType : string)
              (transferId : string) (timestamp : Z)
  | FBinary (bytes : list byte).

(** The fields of [FileTransferData] the temporary handler reads. *)
Record FileTransferData := {
  ftd_type : string;
  ftd_transferId : option string
}.

(** The values the callback slot can hold: nothing, a callback the
    application registered through [onFileTransfer], or the temporary handler
    of a [sendFile] call with everything its closure captured. *)
Inductive Callback :=
  | NoCallback
  | AppCallback (n : nat)
  | SendFileCallback (peerId transferId : string) (file : File)
                     (originalCallback : Callback).

(** Where a call of [sendFileChunks] that has not returned stands: it awaits
    [file.arrayBuffer()], or it is in the pause after a chunk with the
    chunks of [remaining] still to send. *)
Inductive LoopState :=
  | Reading (file : File)
  | Pausing (remaining : list (list byte)).

(** A call of [sendFileChunks] that has not returned, with the peer whose
    channel it sends on and the transfer whose promise it resolves. *)
Record ChunkLoop := {
  loop_peerId : string;
  loop_transferId : string;
  loop_state : LoopState
}.

Record Sender := {
  onFileTransferCallback : Callback;
  timers : gmap string Callback;
  resolutions : list (string * bool);
  sent : list (string * Frame);
  app_calls : list (nat * string * FileTransferData);
  loops : list ChunkLoop
}.

Definition set_callback (cb : Callback) (s : Sender) : Sender :=
  {| onFileTransferCallback := cb; timers := timers s;
     resolutions := resolutions s; sent := sent s; app_calls := app_calls s;
     loops := loops s |}.

(** A call of the [resolve] function of the promise of transfer [t]. *)
Definition resolve (t : string) (v : bool) (s : Sender) : Sender :=
  {| onFileTransferCallback := onFileTransferCallback s; timers := timers s;
     resolutions := (resolutions s ++ [(t, v)])%list; sent := sent s;
     app_calls := app_calls s; loops := loops s |}.

Definition send_frames (peerId : string) (frames : list Frame) (s : Sender) : Sender :=
  {| onFileTransferCallback := onFileTransferCallback s; timers := timers s;
     resolutions := resolutions s;
     sent := (sent s ++ map (fun fr => (peerId, fr)) frames)%list;
     app_calls := app_calls s; loops := loops s |}.

Definition set_timers (f : gmap string Callback -> gmap string Callback)
    (s : Sender) : Sender :=
  {| onFileTransferCallback := onFileTransferCallback s; timers := f (timers s);
     resolutions := resolutions s; sent := sent s; app_calls := app_calls s;
     loops := loops s |}.

Definition set_loops (f : list ChunkLoop -> list ChunkLoop) (s : Sender) : Sender :=
  {| onFileTransferCallback := onFileTransferCallback s; timers := timers s;
     resolutions := resolutions s; sent := sent s; app_calls := app_calls s;
     loops := f (loops s) |}.

Definition is_response (kind : string) (t : string) (d : FileTransferData) : bool :=
  bool_decide (ftd_type d = kind) && bool_decide (ftd_transferId d = Some t).

(** A call of the function held in the slot.  On an acceptance the
    temporary handler restores the slot and calls [sendFileChunks], which
    returns a promise at its first [await]: nothing has been sent and
    [resolve] has not been called when the handler returns. *)
Fixpoint invoke (cb : Callback) (callbackPeerId : string) (d : FileTransferData)
    (s : Sender) : Sender :=
  match cb with
  | NoCallback => s
  | AppCallback n =>
      {| onFileTransferCallback := onFileTransferCallback s; timers := timers s;
         resolutions := resolutions s; sent := sent s;
         app_calls := (app_calls s ++ [(n, callbackPeerId, d)])%list;
         loops := loops s |}
  | SendFileCallback peerId transferId file originalCallback =>
      let s1 := invoke originalCallback callbackPeerId d s in
      if bool_decide (callbackPeerId = peerId) then
        if is_response "file-accepted" transferId d then
          set_loops
            (fun ls => (ls ++ [{| loop_peerId := peerId;
                                  loop_transferId := transferId;
                                  loop_state := Reading file |}])%list)
            (set_callback originalCallback s1)
        else if is_response "file-declined" transferId d then
          resolve transferId false (set_callback originalCallback s1)
        else s1
      else s1
  end.

(** [sendFile(peerId, file)], with the transfer id it generated, the channel
    it found for the peer and whether [dataChannel.send] went through. *)
Definition sendFile (dataChannel : option RTCDataChannel) (send_ok : bool)
    (peerId : string) (file : File) (transferId : string) (now : Z)
    (s : Sender) : Sender :=
  match dataChannel with
  | Some ch =>
      match readyState ch with
      | RsOpen =>
          if send_ok then
            let s1 := send_frames peerId
                        [FMetadata (file_name file)
                           (Z.of_nat (length (file_bytes file)))
                           (file_type file) transferId now] s in
            let originalCallback := onFileTransferCallback s1 in
            set_timers (<[transferId := originalCallback]>)
              (set_callback
                 (SendFileCallback peerId transferId file originalCallback) s1)
          else resolve transferId false s
      | _ => resolve transferId false s
      end
  | None => resolve transferId false s
  end.

(** The next step of the [i]-th running [sendFileChunks]; [ok] tells whether
    what it waits for succeeds ([file.arrayBuffer()] resolves, the next
    [dataChannel.send] returns) or throws.  Once the buffer is read the
    first chunk is sent in the same turn; after the pause that follows the
    last chunk the function returns [true].  Every exception is caught
    inside [sendFileChunks], which then returns [false].  The value returned
    goes to [resolve] through [.then(resolve)]. *)
Definition loop_step (i : nat) (ok : bool) (s : Sender) : Sender :=
  match loops s !! i with
  | None => s
  | Some l =>
      let returns v :=
        resolve (loop_transferId l) v (set_loops (delete i) s) in
      let sends chunk rest :=
        send_frames (loop_peerId l) [FBinary chunk]
          (set_loops (<[i := {| loop_peerId := loop_peerId l;
                                loop_transferId := loop_transferId l;
                                loop_state := Pausing rest |}]>) s) in
      match loop_state l with
      | Reading file =>
          if ok then
            match sendFileChunks (file_bytes file) with
            | [] => returns true
            | chunk :: rest => sends chunk rest
            end
          else returns false
      | Pausing [] => returns true
      | Pausing (chunk :: rest) =>
          if ok then sends chunk rest else returns false
      end
  end.

(** What can happen to the sender. *)
Inductive SenderEvent :=
  | SeSendFile (dataChannel : option RTCDataChannel) (send_ok : bool)
               (peerId : string) (file : File) (transferId : string) (now : Z)
  | SeIncoming (peerId : string) (d : FileTransferData)
  | SeTimeout (transferId : string)
  | SeRegister (n : nat)
  | SeLoop (i : nat) (ok : bool).

Definition step (e : SenderEvent) (s : Sender) : Sender :=
  match e with
  | SeSendFile dc ok peerId file transferId now =>
      sendFile dc ok peerId file transferId now s
  | SeIncoming peerId d => invoke (onFileTransferCallback s) peerId d s
  | SeTimeout transferId =>
      match timers s !! transferId with
      | Some originalCallback =>
          resolve transferId false
            (set_callback originalCallback (set_timers (delete transferId) s))
      | None => s
      end
  | SeRegister n => set_callback (AppCallback n) s
  | SeLoop i ok => loop_step i ok s
  end.

Definition run (es : list SenderEvent) (s : Sender) : Sender :=
  foldl (fun acc e => step e acc) s es.

(** The values the promise of transfer [t] was resolved with, in call order;
    the promise settles with the first of them. *)
Definition outcomes (t : string) (s : Sender) : list bool :=
  (filter (fun r => r.1 = t) (resolutions s)).*2.

(** ** Data channel handlers and queries of the manager *)

(** What the engine reports on a data channel object.  [setupDataChannel]
    installs a handler for [open], [error] and [close]; [closing] has none. *)
Inductive ChannelEvent := ChOpen | ChClosing | ChError | ChClose.

#[global] Instance ChannelEvent_eq_dec : EqDecision ChannelEvent.
Proof. solve_decision. Defined.

(** The [readyState] the channel object has when the event fires on it; an
    error leaves it to the close that follows. *)
Definition readyState_at (ev : ChannelEvent) : option ReadyState :=
  match ev with
  | ChOpen => Some RsOpen
  | ChClosing => Some RsClosing
  | ChError => None
  | ChClose => Some RsClosed
  end.

(** The state the handler of the event records for the peer, and passes on
    to the connection-state callback of the application when one is set. *)
Definition reported_state (ev : ChannelEvent) : option string :=
  match ev with
  | ChOpen => Some "connected"
  | ChClosing => None
  | ChError => Some "error"
  | ChClose => Some "disconnected"
  end.

(** An event on a channel object that [setupDataChannel] has set up for
    [peerId].  The table [dataChannels] holds the channel objects
    themselves, so the new [readyState] shows in the table when the object
    is the one registered there for the peer ([registered]); the handlers
    refer to the peer id only, whichever object fires them. *)
Definition on_channel_event (peerId : string) (registered : bool)
    (ev : ChannelEvent) (m : Manager) : Manager :=
  let m0 := match readyState_at ev with
            | Some rs =>
                if registered
                then set_dataChannels
                       (alter (fun _ => {| readyState := rs |}) peerId) m
                else m
            | None => m
            end in
  let m1 := match ev with
            | ChClose => set_dataChannels (delete peerId) m0
            | _ => m0
            end in
  match reported_state ev with
  | Some state => set_connectionStates (<[peerId := state]>) m1
  | None => m1
  end.

(** [isConnected(peerId)]. *)
Definition isConnected (peerId : string) (m : Manager) : bool :=
  bool_decide (connectionStates m !! peerId = Some "connected").

(** The chat message [sendMessage] puts on the channel:
    [{type: 'message', message, senderName, timestamp}]. *)
Record MessageData := {
  msg_message : string;
  msg_senderName : string;
  msg_timestamp : Z
}.

(** [sendMessage(peerId, message)]: its result and what was sent.  [send_ok]
    tells whether [dataChannel.send] returns or throws. *)
Definition sendMessage (myDeviceName : string) (now : Z) (send_ok : bool)
    (peerId message : string) (m : Manager) : bool * option MessageData :=
  match dataChannels m !! peerId with
  | None => (false, None)
  | Some dataChannel =>
      match readyState dataChannel with
      | RsOpen =>
          if send_ok
          then (true, Some {| msg_message := message;
                              msg_senderName := myDeviceName;
                              msg_timestamp := now |})
          else (false, None)
      | _ => (false, None)
      end
  end.

(** ** The database side of the manager *)

(** A signalling record as read from the database: the record may be absent
    and any field may be missing. *)
Record RawSignal := {
  raw_from : option string;
  raw_type : option string;
  raw_data : Payload;
  raw_timestamp : option Z
}.

(** [value && value.from && value.type] of [listenForSignals], and the
    envelope handed to [handleSignal] when it holds. *)
Definition readable_signal (value : option RawSignal) : option SignalData :=
  match value with
  | Some v =>
      match raw_from v, raw_type v with
      | Some f, Some t =>
          if decide (f = "") then None
          else if decide (t = "") then None
          else Some {| from := f; type := t; data := raw_data v;
                       timestamp := default 0%Z (raw_timestamp v) |}
      | _, _ => None
      end
  | None => None
  end.

(** One run of the callback of [listenForSignals] on a snapshot, children in
    database order: the manager afterwards and the keys it removed. *)
Definition process_signals (E : Engine) (now : Z)
    (signals : list (string * option RawSignal)) (m : Manager)
    : Manager * list string :=
  foldl (fun st kv =>
           match readable_signal kv.2 with
           | Some value => (handleSignal E now value st.1, (st.2 ++ [kv.1])%list)
           | None => st
           end)
        (m, []) signals.

(** [Device] of the type declarations, and [DeviceData] of the manager. *)
Record Device := { id : string; name : string }.

Record DeviceData := { dev_name : option string; dev_timestamp : option Z }.

(** [deviceData?.name || 'Unknown']. *)
Definition display_name (deviceData : option DeviceData) : string :=
  match deviceData with
  | Some d =>
      match dev_name d with
      | Some n => if decide (n = "") then "Unknown" else n
      | None => "Unknown"
      end
  | None => "Unknown"
  end.

(** The list [listenForDevices] passes to the device-list callback for a
    snapshot of [devices]. *)
Definition listed_devices (myDeviceId : string)
    (snapshot : list (string * option DeviceData)) : list Device :=
  omap (fun kv =>
          if decide (kv.1 = "") then None
          else if decide (kv.1 = myDeviceId) then None
          else Some {| id := kv.1; name := display_name kv.2 |})
       snapshot.

(** What [cleanupDatabase] removes. *)
Inductive DbPath :=
  | DevicePath (deviceId : string)
  | SignalPath (myDeviceId signalId : string).

(** [now - timestamp > maxAge], with [maxAge] ten minutes in milliseconds;
    [None] is a record without a [timestamp]. *)
Definition too_old (now : Z) (timestamp : option Z) : bool :=
  let maxAge := (10 * 60 * 1000)%Z in
  match timestamp with
  | Some t => (maxAge <? now - t)%Z
  | None => false
  end.

(** One of the two loops of [cleanupDatabase]: the paths removed, and whether
    the loop ran to its end ([false]: a [remove] was rejected and the
    exception left the [try] block). *)
Fixpoint sweep_records (remove_ok : DbPath -> bool) (now : Z)
    (path : string -> DbPath) (records : list (string * option Z))
    : list DbPath * bool :=
  match records with
  | [] => ([], true)
  | (key, timestamp) :: rest =>
      if too_old now timestamp then
        if remove_ok (path key) then
          let '(removed, finished) := sweep_records remove_ok now path rest in
          (path key :: removed, finished)
        else ([], false)
      else sweep_records remove_ok now path rest
  end.

(** What [get] gives for a location: the read is rejected, nothing is stored
    there ([exists()] is false), or the records in the order of
    [Object.entries], each with its [timestamp] when it has one. *)
Inductive DbRead :=
  | ReadFails
  | NothingStored
  | Stored (records : list (string * option Z)).

(** [cleanupDatabase()]: device records first, then the manager's own
    signals.  Every exception ends the whole clean-up. *)
Definition cleanupDatabase (remove_ok : DbPath -> bool) (now : Z)
    (myDeviceId : string) (devices signals : DbRead) : list DbPath :=
  let sweep path read :=
    match read with
    | ReadFails => ([], false)
    | NothingStored => ([], true)
    | Stored records => sweep_records remove_ok now path records
    end in
  let '(removed1, finished) := sweep DevicePath devices in
  if finished
  then (removed1 ++ (sweep (SignalPath myDeviceId) signals).1)%list
  else removed1.

(** ** What travels over a data channel

    Text frames are JSON.  [JSON.stringify] and [JSON.parse] are the
    browser's; they enter as the functions [JSON_stringify] and [JSON_parse]
    on the objects below, [JSON_parse] giving [None] where the code ends up
    in its [catch] block or reads no field of the result. *)

(** The object of a text frame with the fields the code reads; a field that
    is absent is [None]. *)
Record WireObject := {
  w_type : option string;
  w_message : option string;
  w_senderName : option string;
  w_timestamp : option Z;
  w_name : option string;
  w_size : option Z;
  w_fileType : option string;
  w_transferId : option string
}.

#[global] Instance WireObject_eq_dec : EqDecision WireObject.
Proof. solve_decision. Defined.

(** [event.data] of a message event: an [ArrayBuffer], a [Blob] or a
    string. *)
Inductive ChannelData :=
  | BinaryData (bytes : list byte)
  | BlobData (bytes : list byte)
  | TextData (text : string).

(** [binaryType] of the receiving channel: how the browser hands a binary
    message to [onmessage].  The code never sets it. *)
Inductive BinaryType := BtBlob | BtArrayBuffer.

(** What [onmessage] gets for what [send] was given. *)
Definition arrives (binaryType : BinaryType) (data : ChannelData) : ChannelData :=
  match data, binaryType with
  | BinaryData bytes, BtBlob => BlobData bytes
  | _, _ => data
  end.

(** The calls [dataChannel.onmessage] makes, each on the callback of that
    name when one is registered.  [OnFileData] is the call of the file
    transfer callback with [{type: 'file-data', data}]. *)
Inductive CallbackCall :=
  | OnMessage (peerId : string) (data : WireObject)
  | OnFileTransfer (peerId : string) (data : WireObject)
  | OnFileData (peerId : string) (bytes : list byte).

(** [type === 'file-accepted' || type === 'file-declined']. *)
Definition is_control (o : WireObject) : bool :=
  bool_decide (w_type o = Some "file-accepted")
  || bool_decide (w_type o = Some "file-declined").

(** The types of text frames that [onmessage] hands to the file transfer
    callback as they are. *)
Definition is_transfer_type (o : WireObject) : bool :=
  bool_decide (w_type o = Some "file-metadata")
  || bool_decide (w_type o = Some "file-chunk")
  || bool_decide (w_type o = Some "file-complete")
  || bool_decide (w_type o = Some "file-accepted")
  || bool_decide (w_type o = Some "file-declined").

(** [value || fallback] on an optional string. *)
Definition or_else (value : option string) (fallback : string) : string :=
  match value with
  | Some v => if decide (v = "") then fallback else v
  | None => fallback
  end.

(** [fileOffer] of a message of the chat component. *)
Record FileOffer := {
  fo_name : string;
  fo_size : Z;
  fo_type : string;
  fo_transferId : string
}.

(** The chat component: the receiving side of a file transfer and, of its
    message list, the chat messages received and the file offers attached to
    messages.  The texts of the status lines are presentation and are left
    out. *)
Record Chat := {
  receiver : Receiver;
  shown : list WireObject;
  offers : list FileOffer
}.

(** The fields of a callback argument that the temporary handler of
    [sendFile] reads; an absent type equals none of the constants it is
    compared with, like the empty string. *)
Definition read_by_handler (o : WireObject) : FileTransferData :=
  {| ftd_type := default "" (w_type o); ftd_transferId := w_transferId o |}.

Section Json.

Variable JSON_parse : string -> option WireObject.
Variable JSON_stringify : WireObject -> string.

(** [dataChannel.onmessage] as installed by [setupDataChannel].  A [Blob] is
    no [ArrayBuffer] and [JSON.parse] throws on it. *)
Definition onmessage (peerId : string) (event_data : ChannelData)
    : list CallbackCall :=
  match event_data with
  | BinaryData bytes => [OnFileData peerId bytes]
  | BlobData _ => []
  | TextData text =>
      match JSON_parse text with
      | Some data =>
          if decide (w_type data = Some "message") then
            OnMessage peerId data ::
            match w_message data with
            | Some message =>
                match JSON_parse message with
                | Some messageData =>
                    if is_control messageData
                    then [OnFileTransfer peerId messageData]
                    else []
                | None => []
                end
            | None => []
            end
          else if is_transfer_type data then [OnFileTransfer peerId data]
          else []
      | None => []
      end
  end.

(** The metadata object of [sendFile]. *)
Definition metadata_object (name : string) (size : Z) (fileType transferId : string)
    (timestamp : Z) : WireObject :=
  {| w_type := Some "file-metadata"; w_message := None; w_senderName := None;
     w_timestamp := Some timestamp; w_name := Some name; w_size := Some size;
     w_fileType := Some fileType; w_transferId := Some transferId |}.

(** The object of [sendMessage]. *)
Definition message_object (md : MessageData) : WireObject :=
  {| w_type := Some "message"; w_message := Some (msg_message md);
     w_senderName := Some (msg_senderName md);
     w_timestamp := Some (msg_timestamp md); w_name := None; w_size := None;
     w_fileType := None; w_transferId := None |}.

(** [{type, transferId}] of [acceptFileOffer] and [declineFileOffer]. *)
Definition control_object (kind transferId : string) : WireObject :=
  {| w_type := Some kind; w_message := None; w_senderName := None;
     w_timestamp := None; w_name := None; w_size := None; w_fileType := None;
     w_transferId := Some transferId |}.

(** What [dataChannel.send] is given for a frame of [sendFile] or
    [sendFileChunks], and for a message of [sendMessage]. *)
Definition frame_data (fr : Frame) : ChannelData :=
  match fr with
  | FMetadata name size fileType transferId timestamp =>
      TextData (JSON_stringify (metadata_object name size fileType transferId timestamp))
  | FBinary bytes => BinaryData bytes
  end.

Definition message_data (md : MessageData) : ChannelData :=
  TextData (JSON_stringify (message_object md)).

(** The handler the chat component registers with [onMessage]. *)
Definition chat_onMessage (peerId : string) (data : WireObject) (c : Chat) : Chat :=
  if decide (peerId = selectedDevice (receiver c)) then
    let control :=
      match w_message data with
      | Some message =>
          match JSON_parse message with
          | Some parsed => is_control parsed
          | None => false
          end
      | None => false
      end in
    if control then c
    else {| receiver := receiver c; shown := (shown c ++ [data])%list;
            offers := offers c |}
  else c.

(** The handler the chat component registers with [onFileTransfer], on a
    text frame.  [generated] is the id made up from the peer id and the time
    for an offer that carries none.  The branches for [file-accepted] and
    [file-declined] log or rewrite a status line. *)
Definition chat_onFileTransfer (generated : string) (peerId : string)
    (data : WireObject) (c : Chat) : Chat :=
  if decide (peerId = selectedDevice (receiver c)) then
    if decide (w_type data = Some "file-metadata") then
      match w_name data, w_size data with
      | Some n, Some size =>
          if decide (n = "") then c
          else if decide (size = 0%Z) then c
          else {| receiver := receiver c; shown := shown c;
                  offers := (offers c ++
                    [{| fo_name := n; fo_size := size;
                        fo_type := or_else (w_fileType data) "application/octet-stream";
                        fo_transferId := or_else (w_transferId data) generated |}])%list |}
      | _, _ => c
      end
    else c
  else c.

(** The callbacks of the chat component behind the calls of [onmessage]. *)
Definition chat_handle (generated : string) (call : CallbackCall) (c : Chat) : Chat :=
  match call with
  | OnMessage peerId data => chat_onMessage peerId data c
  | OnFileTransfer peerId data => chat_onFileTransfer generated peerId data c
  | OnFileData peerId bytes =>
      {| receiver := on_file_data peerId bytes (receiver c); shown := shown c;
         offers := offers c |}
  end.

(** A frame from [peerId] arriving at a device whose chat component is the
    one registered with the manager. *)
Definition chat_receives (generated : string) (peerId : string)
    (event_data : ChannelData) (c : Chat) : Chat :=
  foldl (fun acc call => chat_handle generated call acc) c
        (onmessage peerId event_data).

(** The Accept and Decline buttons of an offer: [acceptFileOffer] and
    [declineFileOffer] with the fields of the offer, giving the chat
    component afterwards and the text handed to [sendMessage] for the
    selected device. *)
Definition chat_accept (o : FileOffer) (c : Chat) : Chat * string :=
  ({| receiver := acceptFileOffer (fo_name o) (fo_size o) (fo_type o) (receiver c);
      shown := shown c;
      offers := filter (fun o' => fo_transferId o' <> fo_transferId o) (offers c) |},
   JSON_stringify (control_object "file-accepted" (fo_transferId o))).

Definition chat_decline (o : FileOffer) (c : Chat) : Chat * string :=
  ({| receiver := receiver c; shown := shown c;
      offers := filter (fun o' => fo_transferId o' <> fo_transferId o) (offers c) |},
   JSON_stringify (control_object "file-declined" (fo_transferId o))).

(** The calls of [onmessage] on the device that offered a file: the file
    transfer callback is the slot of the sender. *)
Definition sender_handle (call : CallbackCall) (s : Sender) : Sender :=
  match call with
  | OnMessage _ _ => s
  | OnFileTransfer peerId data => step (SeIncoming peerId (read_by_handler data)) s
  | OnFileData peerId _ =>
      step (SeIncoming peerId {| ftd_type := "file-data"; ftd_transferId := None |}) s
  end.

Definition sender_receives (peerId : string) (event_data : ChannelData)
    (s : Sender) : Sender :=
  foldl (fun acc call => sender_handle call acc) s (onmessage peerId event_data).

End Json.

(** * Part II: vocabulary of the statements *)

(** ** Two concrete engines

    [accepting_engine] follows the offer/answer state machine of the WebRTC
    standard and accepts whatever that machine allows; [picky_engine] is the
    same engine rejecting every candidate that has no [sdpMid]. *)

Definition accept_local (pc : RTCPeerConnection) (d : Description)
    : option RTCPeerConnection :=
  if decide (d_type d = "offer") then
    if is_stable (signalingState pc)
    then Some {| connectionState := connectionState pc;
                 signalingState := HaveLocalOffer;
                 remoteDescription := remoteDescription pc |}
    else None
  else if decide (d_type d = "answer") then
    if is_have_remote_offer (signalingState pc)
    then Some {| connectionState := connectionState pc;
                 signalingState := Stable;
                 remoteDescription := remoteDescription pc |}
    else None
  else None.

Definition accept_remote (pc : RTCPeerConnection) (p : Payload)
    : option RTCPeerConnection :=
  match p with
  | PDescription d =>
      if decide (d_type d = "offer") then
        if is_stable (signalingState pc)
        then Some {| connectionState := connectionState pc;
                     signalingState := HaveRemoteOffer;
                     remoteDescription := Some p |}
        else None
      else if decide (d_type d = "answer") then
        if is_have_local_offer (signalingState pc)
        then Some {| connectionState := connectionState pc;
                     signalingState := Stable;
                     remoteDescription := Some p |}
        else None
      else None
  | _ => None
  end.

Definition accepting_engine : Engine :=
  {| eng_createOffer := fun _ => Some {| d_type := "offer"; d_sdp := "v=0" |};
     eng_createAnswer := fun pc =>
       if is_have_remote_offer (signalingState pc)
       then Some {| d_type := "answer"; d_sdp := "v=0" |} else None;
     eng_setLocalDescription := accept_local;
     eng_setRemoteDescription := accept_remote;
     eng_addIceCandidate := fun pc _ =>
       match remoteDescription pc with Some _ => Some pc | None => None end;
     eng_push := fun _ _ => true |}.

Definition picky_engine : Engine :=
  {| eng_createOffer := eng_createOffer accepting_engine;
     eng_createAnswer := eng_createAnswer accepting_engine;
     eng_setLocalDescription := accept_local;
     eng_setRemoteDescription := accept_remote;
     eng_addIceCandidate := fun pc c =>
       match sdpMid c with Some _ => Some pc | None => None end;
     eng_push := fun _ _ => true |}.

(** A manager that has not met any peer yet. *)
Definition fresh_manager (me : string) : Manager :=
  {| myDeviceId := me; peerConnections := ∅; dataChannels := ∅;
     connectionStates := ∅; iceCandidatesBuffer := ∅; trace := [] |}.

(** A manager holding one session. *)
Definition manager_with (me peerId : string) (ses : Session) : Manager :=
  set_peerConnections (<[peerId := ses]>) (fresh_manager me).

Definition ice (s : string) (mid : option string) : IceCandidateInit :=
  {| candidate := Some s; sdpMid := mid; sdpMLineIndex := Some 0%nat;
     usernameFragment := None |}.

(** The calls an operation added to the trace. *)
Definition new_events (before after : Manager) : list Event :=
  drop (length (trace before)) (trace after).

(** ** Predicates on managers and sessions *)

(** A payload with no usable candidate: absent, or its [candidate] string is
    missing or empty. *)
Definition no_candidate (p : Payload) : Prop :=
  p = PNothing \/
  exists c, p = PIce c /\ (candidate c = None \/ candidate c = Some "").

(** The candidates a flush hands to the engine: the whole buffer of the peer
    when it has a session, nothing otherwise. *)
Definition flushed (peerId : string) (m : Manager) : list IceCandidateInit :=
  match peerConnections m !! peerId with
  | Some _ => default [] (iceCandidatesBuffer m !! peerId)
  | None => []
  end.

(** The session of [peerId] is waiting for an answer. *)
Definition awaiting_answer (m : Manager) (peerId : string) : Prop :=
  exists ses, peerConnections m !! peerId = Some ses
              /\ signalingState (pc ses) = HaveLocalOffer.

(** The entry is one the sweep removes. *)
Definition swept (k : string) (e : string * Session) : bool :=
  bool_decide (e.1 = k) && is_bad_state (connectionState (pc e.2)).

(** The session of [k] is in one of the states the sweep looks for. *)
Definition bad_session (m : Manager) (k : string) : Prop :=
  exists ses, peerConnections m !! k = Some ses
              /\ is_bad_state (connectionState (pc ses)) = true.

(** The existing session is handed back as it is. *)
Definition reusable (ses : Session) : bool :=
  is_connected_or_connecting (connectionState (pc ses))
  || is_new (connectionState (pc ses)) && is_stable (signalingState (pc ses)).

(** The calls of an answer that went through: the offer applied, the buffered
    candidates, then the answer created, set and published. *)
Definition answer_events (peerId : string) (offer : Payload)
    (cands : list IceCandidateInit) (answer : Description) (sig : SignalData)
    : list Event :=
  (EvSetRemoteDescription peerId offer :: map (EvAddIceCandidate peerId) cands
   ++ [EvCreateAnswer peerId; EvSetLocalDescription peerId answer;
       EvPush peerId sig])%list.

(** The manager holds a local offer of its own for [peerId]. *)
Definition holds_local_offer (m : Manager) (peerId : string) (ses : Session) : Prop :=
  peerConnections m !! peerId = Some ses
  /\ signalingState (pc ses) = HaveLocalOffer.

(** A call that discards the connection of [peerId] or creates one for it. *)
Definition resets (peerId : string) (e : Event) : Prop :=
  e = EvClose peerId \/ exists init, e = EvNew peerId init.

(** The existing session makes [connectToPeer] return at once. *)
Definition blocks_connect (ses : Session) : Prop :=
  is_connected_or_connecting (connectionState (pc ses)) = true
  \/ signalingState (pc ses) = HaveRemoteOffer
  \/ signalingState (pc ses) = HaveLocalOffer.

Section Vocabulary.

Variable E : Engine.
Variable now : Z.

(** The engine object after the candidates of a flush: an accepted candidate
    may change it, a rejected one leaves it. *)
Definition apply_candidates (pc0 : RTCPeerConnection)
    (cands : list IceCandidateInit) : RTCPeerConnection :=
  foldl (fun acc c => default acc (eng_addIceCandidate E acc c)) pc0 cands.

(** The engine and the transport accept every step of an answer made on the
    engine object [pc0], with [cands] buffered. *)
Definition answer_accepted (me peerId : string) (pc0 : RTCPeerConnection)
    (offer : Payload) (cands : list IceCandidateInit)
    (answer : Description) (pc3 : RTCPeerConnection) : Prop :=
  exists pc1,
    eng_setRemoteDescription E pc0 offer = Some pc1
    /\ eng_createAnswer E (apply_candidates pc1 cands) = Some answer
    /\ eng_setLocalDescription E (apply_candidates pc1 cands) answer = Some pc3
    /\ eng_push E peerId (mkSignal now me "answer" (plain answer)) = true.

(** The engine and the transport accept every step of an offer made on the
    engine object [pc0]. *)
Definition offer_accepted (me peerId : string) (pc0 : RTCPeerConnection)
    (offer : Description) (pc1 : RTCPeerConnection) : Prop :=
  eng_createOffer E pc0 = Some offer
  /\ eng_setLocalDescription E pc0 offer = Some pc1
  /\ eng_push E peerId (mkSignal now me "offer" (plain offer)) = true.

(** The calls of an offer that went through. *)
Definition offer_events (me peerId : string) (offer : Description) : list Event :=
  [EvCreateOffer peerId; EvSetLocalDescription peerId offer;
   EvPush peerId (mkSignal now me "offer" (plain offer))].

End Vocabulary.

(** ** Predicates on the file transfer *)

(** The transfer state after one more frame. *)
Definition with_frame (t : FileTransferState) (data : list byte) : FileTransferState :=
  {| ft_name := ft_name t; ft_size := ft_size t; ft_type := ft_type t;
     chunks := (chunks t ++ [data])%list; totalChunks := totalChunks t;
     receivedChunks := (receivedChunks t + 1)%Z |}.

(** The closure of [cb], or of a handler it captured, belongs to transfer [T]. *)
Fixpoint mentions (T : string) (cb : Callback) : bool :=
  match cb with
  | NoCallback => false
  | AppCallback _ => false
  | SendFileCallback _ t _ originalCallback =>
      bool_decide (t = T) || mentions T originalCallback
  end.

Definition timers_free (T : string) (s : Sender) : Prop :=
  forall t cb, timers s !! t = Some cb -> mentions T cb = false.

(** No running [sendFileChunks] belongs to transfer [T]. *)
Definition loops_free (T : string) (s : Sender) : Prop :=
  Forall (fun l => loop_transferId l <> T) (loops s).

(** Nothing in the sender knows the id [T] yet. *)
Definition fresh (T : string) (s : Sender) : Prop :=
  mentions T (onFileTransferCallback s) = false
  /\ timers_free T s
  /\ timers s !! T = None
  /\ outcomes T s = []
  /\ loops_free T s.

(** An event of the waiting window: no other [sendFile] starts, the timer of
    [T] has not fired yet, and no accepted or declined message for [T] comes
    from the peer the file was offered to. *)
Definition quiet (p T : string) (e : SenderEvent) : bool :=
  match e with
  | SeSendFile _ _ _ _ _ _ => false
  | SeIncoming q d =>
      negb (bool_decide (q = p)
            && (is_response "file-accepted" T d || is_response "file-declined" T d))
  | SeTimeout t => negb (bool_decide (t = T))
  | SeRegister _ => true
  | SeLoop _ _ => true
  end.

(** An event that is not a [sendFile] reusing the id [T]. *)
Definition other_transfer (T : string) (e : SenderEvent) : bool :=
  match e with
  | SeSendFile _ _ _ _ t _ => negb (bool_decide (t = T))
  | _ => true
  end.

(** The sender while the offer of [T] waits for its answer. *)
Definition waiting (p T : string) (f : File) (s : Sender) : Prop :=
  exists orig,
    timers s !! T = Some orig
    /\ timers_free T s
    /\ (onFileTransferCallback s = SendFileCallback p T f orig
        \/ mentions T (onFileTransferCallback s) = false)
    /\ outcomes T s = []
    /\ loops_free T s.

(** The sender once the timer of [T] has fired. *)
Definition expired (T : string) (s : Sender) : Prop :=
  mentions T (onFileTransferCallback s) = false
  /\ timers_free T s
  /\ timers s !! T = None
  /\ loops_free T s.

(** ** Concrete inputs *)

Definition sample_offer : Payload :=
  PDescription {| d_type := "offer"; d_sdp := "v=0" |}.

Definition sample_answer : Payload :=
  PDescription {| d_type := "answer"; d_sdp := "v=0" |}.

(** A session that has sent its own offer and has heard nothing back. *)
Definition offering (c : ConnectionState) : Session :=
  {| pc := {| connectionState := c; signalingState := HaveLocalOffer;
              remoteDescription := None |};
     initiator := true |}.

(** Manager "a" after a first [connectToPeer "b"] on an accepting engine. *)
Definition after_first_connect : Manager :=
  connectToPeer accepting_engine 0 "b" (fresh_manager "a").

(** Manager "b" after an offer of "a" that the engine rejected as malformed:
    the responder session created for it stays behind, new and stable, with
    no negotiation on it. *)
Definition idle_responder : Manager :=
  handleSignal accepting_engine 0 (mkSignal 0 "a" "offer" PNothing)
    (fresh_manager "b").

Definition offer_from_a : SignalData := mkSignal 0 "a" "offer" sample_offer.

(** Two candidates buffered for "b"; the first one has no [sdpMid]. *)
Definition two_buffered : Manager :=
  set_iceCandidatesBuffer
    (<["b" := [ice "candidate:1" None; ice "candidate:2" (Some "0")]]>)
    (manager_with "a" "b" (offering CsNew)).

Definition end_of_candidates : Payload :=
  PIce {| candidate := Some ""; sdpMid := Some "0"; sdpMLineIndex := Some 0%nat;
          usernameFragment := None |}.

(** Three sessions: one failed, one connected, one still new. *)
Definition three_sessions : Manager :=
  set_dataChannels (<["f" := {| readyState := RsClosed |}]>)
    (set_dataChannels (<["c" := {| readyState := RsOpen |}]>)
       (set_peerConnections (<["f" := offering CsFailed]>)
          (set_peerConnections (<["n" := new_session true]>)
             (manager_with "a" "c"
                {| pc := {| connectionState := CsConnected; signalingState := Stable;
                            remoteDescription := Some sample_answer |};
                   initiator := true |})))).

Definition small_file : File :=
  {| file_name := "a.txt"; file_type := "text/plain"; file_bytes := [x68; x69] |}.

Definition open_channel : RTCDataChannel := {| readyState := RsOpen |}.

(** A sender whose application registered one callback and nothing else. *)
Definition app_only : Sender :=
  {| onFileTransferCallback := AppCallback 0; timers := ∅; resolutions := [];
     sent := []; app_calls := []; loops := [] |}.

Definition accepted (T : string) : FileTransferData :=
  {| ftd_type := "file-accepted"; ftd_transferId := Some T |}.

(** Two offers to "b", the second started while the first still waits; both
    time out unanswered. *)
Definition overlapping : list SenderEvent :=
  [SeSendFile (Some open_channel) true "b" small_file "t1" 0;
   SeSendFile (Some open_channel) true "b" small_file "t2" 10;
   SeTimeout "t1"; SeTimeout "t2"].

(** ** Vocabulary of the further properties *)

(** Calls a manager makes for [P] when it answers [P]: it never creates an
    offer or a data channel, creates connections as responder only, and
    publishes nothing but answers of its own to [P]. *)
Definition responder_call (me P : string) (e : Event) : Prop :=
  match e with
  | EvNew p init => p = P /\ init = false
  | EvClose p => p = P
  | EvSetRemoteDescription p _ => p = P
  | EvAddIceCandidate p _ => p = P
  | EvCreateAnswer p => p = P
  | EvSetLocalDescription p _ => p = P
  | EvPush to s => to = P /\ from s = me /\ type s = "answer"
  | EvCreateOffer _ => False
  | EvCreateDataChannel _ => False
  end.

(** Calls a manager makes for [P] when it offers to [P]: connections are
    created as initiator with their data channel, nothing but offers of its
    own is published to [P], and no remote description, candidate or answer
    is involved. *)
Definition initiator_call (me P : string) (e : Event) : Prop :=
  match e with
  | EvNew p init => p = P /\ init = true
  | EvClose p => p = P
  | EvCreateDataChannel p => p = P
  | EvCreateOffer p => p = P
  | EvSetLocalDescription p _ => p = P
  | EvPush to s => to = P /\ from s = me /\ type s = "offer"
  | EvSetRemoteDescription _ _ => False
  | EvAddIceCandidate _ _ => False
  | EvCreateAnswer _ => False
  end.

(** [m'] differs from [m] only in what belongs to peer [P]: the identity of
    the manager and every table entry of every other peer are the same, the
    channel tables are the same even at [P] unless [writes_channel], and the
    calls made in between all satisfy [ok]. *)
Definition confined (ok : Event -> Prop) (writes_channel : bool) (P : string)
    (m m' : Manager) : Prop :=
  myDeviceId m' = myDeviceId m
  /\ (forall k, k <> P -> peerConnections m' !! k = peerConnections m !! k)
  /\ (forall k, writes_channel = false \/ k <> P ->
        dataChannels m' !! k = dataChannels m !! k)
  /\ (forall k, writes_channel = false \/ k <> P ->
        connectionStates m' !! k = connectionStates m !! k)
  /\ (forall k, k <> P -> iceCandidatesBuffer m' !! k = iceCandidatesBuffer m !! k)
  /\ exists evs, trace m' = (trace m ++ evs)%list /\ Forall ok evs.

(** An operation that keeps to [P] from every manager whose id is [me]. *)
Definition op_confined {A} (ok : Event -> Prop) (writes_channel : bool)
    (me P : string) (c : Op A) : Prop :=
  forall m, myDeviceId m = me -> confined ok writes_channel P m (c m).2.

(** Candidates arriving one after the other. *)
Definition receive_candidates (E : Engine) (peerId : string) (ps : list Payload)
    (m : Manager) : Manager :=
  foldl (fun acc p => handleIceCandidate E peerId p acc) m ps.

(** The calls of [createPeerConnection] when it creates. *)
Definition creation_calls (P : string) (init : bool) : list Event :=
  EvNew P init :: if init then [EvCreateDataChannel P] else [].

(** The signals a manager has published so far, with their addressees. *)
Definition published (m : Manager) : list (string * SignalData) :=
  omap (fun e => match e with EvPush to s => Some (to, s) | _ => None end)
       (trace m).

(** A negotiated session as the accepting engine leaves it. *)
Definition negotiated (remote : Payload) (init : bool) : Session :=
  {| pc := {| connectionState := CsNew; signalingState := Stable;
              remoteDescription := Some remote |};
     initiator := init |}.

(** An engine that refuses to create offers. *)
Definition refusing_engine : Engine :=
  {| eng_createOffer := fun _ => None;
     eng_createAnswer := eng_createAnswer accepting_engine;
     eng_setLocalDescription := accept_local;
     eng_setRemoteDescription := accept_remote;
     eng_addIceCandidate := eng_addIceCandidate accepting_engine;
     eng_push := fun _ _ => true |}.

(** The accepting engine on a transport that is down. *)
Definition offline_engine : Engine :=
  {| eng_createOffer := eng_createOffer accepting_engine;
     eng_createAnswer := eng_createAnswer accepting_engine;
     eng_setLocalDescription := accept_local;
     eng_setRemoteDescription := accept_remote;
     eng_addIceCandidate := eng_addIceCandidate accepting_engine;
     eng_push := fun _ _ => false |}.

(** What can happen to a manager: the public operation [connectToPeer], an
    envelope handed to [handleSignal], the periodic sweep, a channel
    arriving through [ondatachannel] (which calls [setupDataChannel]), and
    an event on a channel object. *)
Inductive ManagerStep :=
  | StConnect (peerId : string)
  | StSignal (signal : SignalData)
  | StCleanup
  | StDataChannel (peerId : string) (channel : RTCDataChannel)
  | StChannel (peerId : string) (registered : bool) (ev : ChannelEvent).

Definition do_step (E : Engine) (now : Z) (st : ManagerStep) (m : Manager)
    : Manager :=
  match st with
  | StConnect peerId => connectToPeer E now peerId m
  | StSignal signal => handleSignal E now signal m
  | StCleanup => cleanupConnections m
  | StDataChannel peerId channel => setupDataChannel peerId channel m
  | StChannel peerId registered ev => on_channel_event peerId registered ev m
  end.

Definition do_steps (E : Engine) (now : Z) (sts : list ManagerStep)
    (m : Manager) : Manager :=
  foldl (fun acc st => do_step E now st acc) m sts.

(** The call that creates the data channel of [peerId]. *)
Definition is_create_channel (peerId : string) (e : Event) : bool :=
  match e with
  | EvCreateDataChannel p => bool_decide (p = peerId)
  | _ => false
  end.

(** What a step taken in [m] records as the connection state of [p]:
    [Some true] for "connected", [Some false] for any other state, [None]
    when it records nothing for [p].  A channel of [p] is set up by
    [ondatachannel] or by a [connectToPeer] that creates one. *)
Definition state_written (E : Engine) (now : Z) (p : string)
    (st : ManagerStep) (m : Manager) : option bool :=
  match st with
  | StChannel q _ ev =>
      if decide (q = p) then
        match ev with
        | ChOpen => Some true
        | ChClosing => None
        | ChError | ChClose => Some false
        end
      else None
  | StDataChannel q _ => if decide (q = p) then Some false else None
  | StConnect q =>
      if existsb (is_create_channel p) (new_events m (connectToPeer E now q m))
      then Some false else None
  | StSignal _ | StCleanup => None
  end.

(** The last record for [p] along a run from [m]. *)
Fixpoint last_written (E : Engine) (now : Z) (p : string)
    (sts : list ManagerStep) (m : Manager) : option bool :=
  match sts with
  | [] => None
  | st :: rest =>
      match last_written E now p rest (do_step E now st m) with
      | Some v => Some v
      | None => state_written E now p st m
      end
  end.

(** The records of a snapshot that [listenForSignals] handles, with their
    keys. *)
Definition handled (signals : list (string * option RawSignal))
    : list (string * SignalData) :=
  omap (fun kv => match readable_signal kv.2 with
                  | Some value => Some (kv.1, value)
                  | None => None
                  end) signals.

(** The keys of the records of a snapshot that are too old, in order. *)
Definition old_keys (now : Z) (records : list (string * option Z)) : list string :=
  (filter (fun kv => too_old now kv.2 = true) records).*1.

(** The slot holds no temporary handler of a [sendFile] call. *)
Definition plain_callback (cb : Callback) : bool :=
  match cb with
  | SendFileCallback _ _ _ _ => false
  | _ => true
  end.

(** A message that is not an answer of [p] to the offer [T]. *)
Definition unrelated_message (p T : string) (e : SenderEvent) : bool :=
  match e with
  | SeIncoming _ _ => quiet p T e
  | _ => false
  end.

Definition declined (T : string) : FileTransferData :=
  {| ftd_type := "file-declined"; ftd_transferId := Some T |}.

(** The [sendFileChunks] an acceptance of [T] starts. *)
Definition sending (p T : string) (f : File) : ChunkLoop :=
  {| loop_peerId := p; loop_transferId := T; loop_state := Reading f |}.

(** A started [sendFileChunks], the [i]-th running, going through without
    an exception: one step per chunk and the return after the last pause. *)
Definition whole_loop (i : nat) (f : File) : list SenderEvent :=
  replicate (S (length (sendFileChunks (file_bytes f)))) (SeLoop i true).

(** The frames of a file that was offered and accepted, as [p] gets them. *)
Definition file_frames (p : string) (f : File) (T : string) (now : Z)
    : list (string * Frame) :=
  (p, FMetadata (file_name f) (Z.of_nat (length (file_bytes f))) (file_type f) T now)
  :: map (fun c => (p, FBinary c)) (sendFileChunks (file_bytes f)).

(** Binary frames arriving from several peers, in receipt order. *)
Definition receive_from (frames : list (string * list byte)) (r : Receiver)
    : Receiver :=
  foldl (fun acc fr => on_file_data fr.1 fr.2 acc) r frames.

(** The number of frames after which a receiver that accepted [size] bytes
    hands the file over. *)
Definition frames_awaited (size : Z) : Z := Z.max 1 (ceil_div size 16384).

(** The offer the chat component shows for a file offered under [T]. *)
Definition offer_of (f : File) (T : string) : FileOffer :=
  {| fo_name := file_name f;
     fo_size := Z.of_nat (length (file_bytes f));
     fo_type := or_else (Some (file_type f)) "application/octet-stream";
     fo_transferId := T |}.

(** The metadata frame of [sendFile] for [f]. *)
Definition offer_frame (f : File) (T : string) (now : Z) : Frame :=
  FMetadata (file_name f) (Z.of_nat (length (file_bytes f))) (file_type f) T now.

(** Whether the text of a chat message reads as an answer to an offer. *)
Definition reads_as_control (JSON_parse : string -> option WireObject)
    (message : string) : bool :=
  match JSON_parse message with
  | Some parsed => is_control parsed
  | None => false
  end.

(** ** Concrete inputs of the further properties *)

(** Records read from the database at time 1000000: "a" and "d" are more
    than ten minutes old, "b" exactly ten minutes, "c" has no timestamp. *)
Definition stored_devices : list (string * option Z) :=
  [("a", Some 0%Z); ("b", Some 400000%Z); ("c", None); ("d", Some 399999%Z)].

Definition stored_signals : list (string * option Z) := [("s1", Some 0%Z)].

(** A database that rejects the removal of device "d". *)
Definition protects_d (p : DbPath) : bool :=
  match p with
  | DevicePath k => negb (String.eqb k "d")
  | SignalPath _ _ => true
  end.

(** A receiver in a chat with "a", with nothing accepted. *)
Definition idle_receiver : Receiver :=
  {| selectedDevice := "a"; fileTransferRef := None; downloads := [] |}.

Definition idle_chat : Chat :=
  {| receiver := idle_receiver; shown := []; offers := [] |}.

Definition empty_file : File :=
  {| file_name := "e.txt"; file_type := "text/plain"; file_bytes := [] |}.

Definition hello : MessageData :=
  {| msg_message := "hi"; msg_senderName := "A"; msg_timestamp := 0 |}.

(** Manager "b" with an open channel to "a". *)
Definition b_with_channel : Manager :=
  on_channel_event "a" true ChOpen
    (setupDataChannel "a" {| readyState := RsConnecting |} (fresh_manager "b")).

(** A JSON codec cut down to the objects of the examples: the offers of
    [small_file] and [empty_file] under "t1", the acceptance of "t1", the
    chat message carrying that acceptance, and [hello]. *)
Definition codec_table : list (string * WireObject) :=
  [("M", metadata_object "a.txt" 2 "text/plain" "t1" 0);
   ("E", metadata_object "e.txt" 0 "text/plain" "t1" 0);
   ("Y", control_object "file-accepted" "t1");
   ("R", message_object {| msg_message := "Y"; msg_senderName := "B";
                           msg_timestamp := 1 |});
   ("H", message_object hello)].

Definition table_stringify (o : WireObject) : string :=
  match list_find (fun e => e.2 = o) codec_table with
  | Some (_, e) => e.1
  | None => ""
  end.

Definition table_parse (text : string) : option WireObject :=
  match list_find (fun e => e.1 = text) codec_table with
  | Some (_, e) => Some e.2
  | None => None
  end.

(** * Part III: the claims *)

Lemma new_events_app m m' l : trace m' = (trace m ++ l)%list -> new_events m m' = l.
Proof. intros H. unfold new_events. rewrite H. apply drop_app_length. Qed.

Lemma new_events_same m : new_events m m = [].
Proof. unfold new_events. apply drop_all. Qed.

(** ** Running one engine call *)

Section Calls.

Variable E : Engine.
Variable now : Z.

Lemma pc_createOffer_run peerId ses m :
  peerConnections m !! peerId = Some ses ->
  pc_createOffer E peerId m
  = (eng_createOffer E (pc ses), emit (EvCreateOffer peerId) m).
Proof. intros H. unfold pc_createOffer, with_pc. by rewrite H. Qed.

Lemma pc_createAnswer_run peerId ses m :
  peerConnections m !! peerId = Some ses ->
  pc_createAnswer E peerId m
  = (eng_createAnswer E (pc ses), emit (EvCreateAnswer peerId) m).
Proof. intros H. unfold pc_createAnswer, with_pc. by rewrite H. Qed.

Lemma pc_setLocalDescription_run peerId ses d m :
  peerConnections m !! peerId = Some ses ->
  pc_setLocalDescription E peerId d m =
    match eng_setLocalDescription E (pc ses) d with
    | Some pc' => (Some tt, set_peerConnections (<[peerId := with_pc_state ses pc']>)
                              (emit (EvSetLocalDescription peerId d) m))
    | None => (None, emit (EvSetLocalDescription peerId d) m)
    end.
Proof. intros H. unfold pc_setLocalDescription, with_pc. by rewrite H. Qed.

Lemma pc_setRemoteDescription_run peerId ses d m :
  peerConnections m !! peerId = Some ses ->
  pc_setRemoteDescription E peerId d m =
    match eng_setRemoteDescription E (pc ses) d with
    | Some pc' => (Some tt, set_peerConnections (<[peerId := with_pc_state ses pc']>)
                              (emit (EvSetRemoteDescription peerId d) m))
    | None => (None, emit (EvSetRemoteDescription peerId d) m)
    end.
Proof. intros H. unfold pc_setRemoteDescription, with_pc. by rewrite H. Qed.

End Calls.

(** ** ICE candidates *)

Section Ice.

Variable E : Engine.

Lemma no_candidate_unusable p : no_candidate p -> usable_candidate p = None.
Proof.
  intros [-> | (c & -> & [Hc | Hc])]; simpl; [done | by rewrite Hc |].
  rewrite Hc. by case_decide.
Qed.

(** C10. A signal whose candidate is absent, or whose [candidate] string is
    missing or empty, leaves the manager exactly as it was: nothing is
    buffered and nothing is handed to the engine, whether
    [handleIceCandidate] is called directly or through [handleSignal]. *)
Theorem handleIceCandidate_ignores_empty (now : Z) (peerId : string)
    (p : Payload) (m : Manager) :
  no_candidate p ->
  handleIceCandidate E peerId p m = m /\
  handleSignal E now
    {| from := peerId; type := "ice-candidate"; data := p; timestamp := now |} m = m.
Proof.
  intros Hp. apply no_candidate_unusable in Hp.
  assert (Hh : handleIceCandidate E peerId p m = m).
  { unfold handleIceCandidate. rewrite Hp. by destruct (peerConnections m !! peerId). }
  split; [exact Hh |].
  unfold handleSignal; simpl.
  repeat case_decide; try discriminate.
  by destruct (peerConnections m !! peerId).
Qed.

Lemma add_buffered_trace peerId c m :
  is_Some (peerConnections m !! peerId) ->
  trace (add_buffered E peerId c m) = (trace m ++ [EvAddIceCandidate peerId c])%list
  /\ is_Some (peerConnections (add_buffered E peerId c m) !! peerId)
  /\ iceCandidatesBuffer (add_buffered E peerId c m) = iceCandidatesBuffer m.
Proof.
  intros [ses Hpc]. unfold add_buffered. rewrite Hpc.
  destruct (eng_addIceCandidate E (pc ses) c) as [pc'|]; simpl.
  - rewrite lookup_insert_eq. eauto.
  - rewrite Hpc. eauto.
Qed.

(** The loop of the flush: one [addIceCandidate] per buffered candidate, in
    the order of the buffer, whatever the engine answers. *)
Lemma flush_loop peerId cands : forall m,
  is_Some (peerConnections m !! peerId) ->
  let m' := foldl (fun acc c => add_buffered E peerId c acc) m cands in
  trace m' = (trace m ++ map (EvAddIceCandidate peerId) cands)%list
  /\ is_Some (peerConnections m' !! peerId)
  /\ iceCandidatesBuffer m' = iceCandidatesBuffer m.
Proof.
  induction cands as [|c cands IH]; intros m Hm; simpl.
  - by rewrite app_nil_r.
  - destruct (add_buffered_trace peerId c m Hm) as (Ht & Hs & Hb).
    destruct (IH _ Hs) as (Ht' & Hs' & Hb'). simpl in *.
    rewrite Ht', Ht, Hb', Hb, <- app_assoc. done.
Qed.

(** What one flush does. *)
Lemma flush_effect (peerId : string) (ses : Session)
    (cands : list IceCandidateInit) (m : Manager) :
  peerConnections m !! peerId = Some ses ->
  iceCandidatesBuffer m !! peerId = Some cands ->
  let m' := flushIceCandidates E peerId m in
  new_events m m' = map (EvAddIceCandidate peerId) cands
  /\ default [] (iceCandidatesBuffer m' !! peerId) = []
  /\ (forall k, k <> peerId ->
        iceCandidatesBuffer m' !! k = iceCandidatesBuffer m !! k)
  /\ flushIceCandidates E peerId m' = m'.
Proof.
  intros Hpc Hbuf. unfold flushIceCandidates. rewrite Hpc, Hbuf.
  destruct cands as [|c cands].
  - simpl. rewrite new_events_same, Hpc, Hbuf. done.
  - destruct (flush_loop peerId (c :: cands) m) as (Ht & [pc' Hs] & Hb); [by eauto|].
    cbv zeta in *.
    set (m1 := foldl _ m (c :: cands)) in *.
    simpl. rewrite Hs, lookup_delete_eq. simpl.
    split; [|split; [done|split; [|done]]].
    + apply new_events_app. exact Ht.
    + intros k Hk. rewrite lookup_delete_ne by done. by rewrite Hb.
Qed.

(** C4. With a session for the peer and [cands] in its buffer, the flush
    calls [addIceCandidate] once per buffered candidate, in buffer order and
    for any engine (so a rejected candidate does not stop the loop); after it
    no candidate of the peer is buffered, the buffers of other peers are
    untouched, and a second flush does nothing.  A candidate that arrives
    while no remote description is set goes to the end of the buffer without
    any call on the engine, so the flush that follows hands over the
    candidates in their order of arrival. *)
Theorem flush_each_once_in_order (peerId : string) (ses : Session)
    (cands : list IceCandidateInit) (m : Manager) :
  peerConnections m !! peerId = Some ses ->
  iceCandidatesBuffer m !! peerId = Some cands ->
  let m' := flushIceCandidates E peerId m in
  new_events m m' = map (EvAddIceCandidate peerId) cands
  /\ default [] (iceCandidatesBuffer m' !! peerId) = []
  /\ (forall k, k <> peerId ->
        iceCandidatesBuffer m' !! k = iceCandidatesBuffer m !! k)
  /\ flushIceCandidates E peerId m' = m'
  /\ (forall p c,
        usable_candidate p = Some c ->
        remoteDescription (pc ses) = None ->
        let mb := handleIceCandidate E peerId p m in
        iceCandidatesBuffer mb !! peerId = Some (cands ++ [c])%list
        /\ new_events m mb = []
        /\ new_events mb (flushIceCandidates E peerId mb)
           = map (EvAddIceCandidate peerId) (cands ++ [c])%list).
Proof.
  intros Hpc Hbuf.
  destruct (flush_effect peerId ses cands m Hpc Hbuf) as (H1 & H2 & H3 & H4).
  cbv zeta in *.
  split; [exact H1|]. split; [exact H2|]. split; [exact H3|]. split; [exact H4|].
  intros p c Hc Hrd.
  assert (Hmb : handleIceCandidate E peerId p m
                = set_iceCandidatesBuffer
                    (fun b => <[peerId := (default [] (b !! peerId) ++ [c])%list]> b) m).
  { unfold handleIceCandidate. by rewrite Hpc, Hc, Hrd. }
  rewrite Hmb.
  assert (Hb : iceCandidatesBuffer
                 (set_iceCandidatesBuffer
                    (fun b => <[peerId := (default [] (b !! peerId) ++ [c])%list]> b) m)
               !! peerId = Some (cands ++ [c])%list).
  { simpl. rewrite Hbuf. apply lookup_insert_eq. }
  split; [exact Hb|]. split; [apply new_events_app; simpl; by rewrite app_nil_r|].
  set (mb := set_iceCandidatesBuffer _ m) in *.
  by destruct (flush_effect peerId ses (cands ++ [c])%list mb Hpc Hb) as (Hf & _).
Qed.

Lemma with_pc_state_id ses : with_pc_state ses (pc ses) = ses.
Proof. by destruct ses. Qed.

Lemma flush_loop_session peerId cands : forall m ses,
  peerConnections m !! peerId = Some ses ->
  let m' := foldl (fun acc c => add_buffered E peerId c acc) m cands in
  peerConnections m' !! peerId
    = Some (with_pc_state ses (apply_candidates E (pc ses) cands))
  /\ myDeviceId m' = myDeviceId m.
Proof.
  induction cands as [|c cands IH]; intros m ses Hs; simpl.
  - by rewrite with_pc_state_id.
  - unfold add_buffered at 2 4. rewrite Hs.
    destruct (eng_addIceCandidate E (pc ses) c) as [pc'|] eqn:Hadd; simpl.
    + destruct (IH (set_peerConnections (<[peerId := with_pc_state ses pc']>)
                      (emit (EvAddIceCandidate peerId c) m))
                   (with_pc_state ses pc')) as [H1 H2].
      { simpl. apply lookup_insert_eq. }
      simpl in *. by rewrite H1, H2.
    + destruct (IH (emit (EvAddIceCandidate peerId c) m) ses Hs) as [H1 H2].
      simpl in *. by rewrite H1, H2.
Qed.

(** The session after a flush: the same role, the engine object after the
    buffered candidates. *)
Lemma flush_session peerId m ses :
  peerConnections m !! peerId = Some ses ->
  peerConnections (flushIceCandidates E peerId m) !! peerId
    = Some (with_pc_state ses
              (apply_candidates E (pc ses)
                 (default [] (iceCandidatesBuffer m !! peerId))))
  /\ myDeviceId (flushIceCandidates E peerId m) = myDeviceId m.
Proof.
  intros Hs. unfold flushIceCandidates. rewrite Hs.
  destruct (iceCandidatesBuffer m !! peerId) as [[|c cands]|] eqn:Hb; simpl;
    rewrite ?with_pc_state_id; try done.
  destruct (flush_loop_session peerId (c :: cands) m ses Hs) as [H1 H2].
  simpl in *. by rewrite H1, H2.
Qed.

Lemma add_buffered_others peerId c m :
  let m' := add_buffered E peerId c m in
  dataChannels m' = dataChannels m
  /\ connectionStates m' = connectionStates m
  /\ forall k, k <> peerId -> peerConnections m' !! k = peerConnections m !! k.
Proof.
  cbv zeta. unfold add_buffered.
  destruct (peerConnections m !! peerId) as [ses|]; [|done].
  destruct (eng_addIceCandidate E (pc ses) c); simpl; [|done].
  repeat split; try done. intros k Hk. by rewrite lookup_insert_ne.
Qed.

(** A flush touches the session and the buffer of its peer, nothing else. *)
Lemma flush_others peerId m :
  is_Some (peerConnections m !! peerId) ->
  let m' := flushIceCandidates E peerId m in
  dataChannels m' = dataChannels m
  /\ connectionStates m' = connectionStates m
  /\ (forall k, k <> peerId -> peerConnections m' !! k = peerConnections m !! k)
  /\ (forall k, k <> peerId ->
        iceCandidatesBuffer m' !! k = iceCandidatesBuffer m !! k)
  /\ default [] (iceCandidatesBuffer m' !! peerId) = [].
Proof.
  intros [ses Hs]. cbv zeta. unfold flushIceCandidates. rewrite Hs.
  destruct (iceCandidatesBuffer m !! peerId) as [[|c cands]|] eqn:Hb;
    [by rewrite Hb | | by rewrite Hb].
  assert (Hloop : forall cs m0,
    let m1 := foldl (fun acc c => add_buffered E peerId c acc) m0 cs in
    dataChannels m1 = dataChannels m0
    /\ connectionStates m1 = connectionStates m0
    /\ iceCandidatesBuffer m1 = iceCandidatesBuffer m0
    /\ forall k, k <> peerId -> peerConnections m1 !! k = peerConnections m0 !! k).
  { induction cs as [|c0 cs IH]; intros m0; [done|]. cbv zeta. simpl.
    destruct (IH (add_buffered E peerId c0 m0)) as (H1 & H2 & H3 & H4).
    destruct (add_buffered_others peerId c0 m0) as (G1 & G2 & G4).
    cbv zeta in *.
    assert (G3 : iceCandidatesBuffer (add_buffered E peerId c0 m0)
                 = iceCandidatesBuffer m0).
    { unfold add_buffered. destruct (peerConnections m0 !! peerId) as [ses0|]; [|done].
      by destruct (eng_addIceCandidate E (pc ses0) c0). }
    split; [congruence|]. split; [congruence|]. split; [congruence|].
    intros k Hk. by rewrite H4, G4. }
  destruct (Hloop (c :: cands) m) as (H1 & H2 & H3 & H4). cbv zeta in *.
  simpl. split; [done|]. split; [done|]. split; [done|]. split.
  - intros k Hk. rewrite lookup_delete_ne by done. simpl in H3. by rewrite H3.
  - by rewrite lookup_delete_eq.
Qed.

End Ice.

Lemma flush_trace E peerId m :
  trace (flushIceCandidates E peerId m)
  = (trace m ++ map (EvAddIceCandidate peerId) (flushed peerId m))%list.
Proof.
  unfold flushIceCandidates, flushed.
  destruct (peerConnections m !! peerId) as [ses|] eqn:Hpc; [|by rewrite app_nil_r].
  destruct (iceCandidatesBuffer m !! peerId) as [[|c cands]|] eqn:Hb;
    simpl; try by rewrite app_nil_r.
  destruct (flush_loop E peerId (c :: cands) m) as (Ht & _ & _); [by eauto|].
  exact Ht.
Qed.

(** ** Answers *)

Section Answer.

Variable E : Engine.
Variable now : Z.

(** C5. An answer envelope reaches [setRemoteDescription] exactly when the
    sender has a session in [have-local-offer].  When the engine accepts it,
    the candidates buffered for the sender are handed to [addIceCandidate]
    next, once each and in buffer order, whatever the engine answers to
    them; afterwards no candidate of the sender is buffered, the session
    holds the engine's state after the answer and the candidates, and
    nothing else has changed.  When the engine rejects the answer, nothing
    else happens.  In every other case the manager is unchanged. *)
Theorem answer_applied_iff_have_local_offer (s : SignalData) (m : Manager) :
  type s = "answer" ->
  let m' := handleSignal E now s m in
  let buffered := default [] (iceCandidatesBuffer m !! from s) in
  (In (EvSetRemoteDescription (from s) (data s)) (new_events m m')
     <-> awaiting_answer m (from s))
  /\ (~ awaiting_answer m (from s) -> m' = m)
  /\ (forall ses pc',
        peerConnections m !! from s = Some ses ->
        signalingState (pc ses) = HaveLocalOffer ->
        eng_setRemoteDescription E (pc ses) (data s) = Some pc' ->
        new_events m m'
        = EvSetRemoteDescription (from s) (data s)
          :: map (EvAddIceCandidate (from s)) buffered
        /\ peerConnections m' !! from s
           = Some (with_pc_state ses (apply_candidates E pc' buffered))
        /\ default [] (iceCandidatesBuffer m' !! from s) = []
        /\ (forall k, k <> from s ->
              peerConnections m' !! k = peerConnections m !! k
              /\ iceCandidatesBuffer m' !! k = iceCandidatesBuffer m !! k)
        /\ dataChannels m' = dataChannels m
        /\ connectionStates m' = connectionStates m
        /\ myDeviceId m' = myDeviceId m)
  /\ (forall ses,
        peerConnections m !! from s = Some ses ->
        signalingState (pc ses) = HaveLocalOffer ->
        eng_setRemoteDescription E (pc ses) (data s) = None ->
        m' = emit (EvSetRemoteDescription (from s) (data s)) m).
Proof.
  intros Hty. unfold handleSignal. rewrite Hty. simpl.
  destruct (peerConnections m !! from s) as [ses|] eqn:Hpc;
    [destruct (signalingState (pc ses)) eqn:Hsig; simpl|].
  2:{ assert (Haw : awaiting_answer m (from s)) by (exists ses; done).
      unfold handleAnswer. rewrite Hpc. simpl.
      rewrite (pc_setRemoteDescription_run E _ _ _ _ Hpc).
      destruct (eng_setRemoteDescription E (pc ses) (data s)) as [pc'|] eqn:Hset; simpl.
      - set (m1 := set_peerConnections (<[from s := with_pc_state ses pc']>)
                     (emit (EvSetRemoteDescription (from s) (data s)) m)).
        assert (Hs1 : peerConnections m1 !! from s = Some (with_pc_state ses pc'))
          by (simpl; apply lookup_insert_eq).
        assert (Htr : new_events m (flushIceCandidates E (from s) m1)
                      = EvSetRemoteDescription (from s) (data s)
                        :: map (EvAddIceCandidate (from s))
                             (default [] (iceCandidatesBuffer m !! from s))).
        { apply new_events_app. rewrite flush_trace. unfold flushed.
          rewrite Hs1. simpl. by rewrite <- app_assoc. }
        split; [split; [done|intros _; rewrite Htr; by left]|].
        split; [done|]. split; [|intros ? [= <-] _ Hs; congruence].
        intros ? ? [= <-] _ Hs. rewrite Hset in Hs. injection Hs as <-.
        destruct (flush_session E (from s) m1 _ Hs1) as [Hses Hme].
        destruct (flush_others E (from s) m1 ltac:(by eexists))
          as (Hdc & Hcs & Hpcs & Hbufs & Hbuf).
        cbv zeta in *.
        split; [exact Htr|]. split; [exact Hses|]. split; [exact Hbuf|].
        split; [|by rewrite Hdc, Hcs, Hme].
        intros k Hk. rewrite Hpcs, Hbufs by done. simpl.
        by rewrite lookup_insert_ne.
      - split; [split; [done|intros _]|split; [done|split]].
        + unfold new_events. simpl. rewrite drop_app_length. by left.
        + intros ? ? [= <-] _ Hs. congruence.
        + done. }
  all: assert (Hna : ~ awaiting_answer m (from s))
         by (intros (pc0 & Hpc0 & Hs0); congruence).
  all: rewrite new_events_same.
  all: split; [split; [intros []|done]|split; [done|split]].
  all: intros; simplify_eq; exfalso; apply Hna; eexists; split; eauto.
Qed.

End Answer.

(** ** The periodic sweep *)

Section Cleanup.

Lemma cleanup_fold l : forall m,
  let m' := foldl cleanup_entry m l in
  (forall k, peerConnections m' !! k
             = if existsb (swept k) l then None else peerConnections m !! k)
  /\ (forall k, dataChannels m' !! k
                = if existsb (swept k) l then None else dataChannels m !! k)
  /\ connectionStates m' = connectionStates m
  /\ iceCandidatesBuffer m' = iceCandidatesBuffer m
  /\ myDeviceId m' = myDeviceId m
  /\ trace m' = (trace m ++
       (EvClose <$> (filter (fun e => is_bad_state (connectionState (pc e.2)) = true) l).*1))%list.
Proof.
  induction l as [|[k0 pc0] l IH]; intros m.
  - simpl. rewrite app_nil_r. done.
  - destruct (IH (cleanup_entry m (k0, pc0))) as (H1 & H2 & H3 & H4 & H5 & H6).
    cbv zeta in *. cbn [foldl].
    set (m' := foldl cleanup_entry (cleanup_entry m (k0, pc0)) l) in *.
    clearbody m'. rewrite filter_cons. cbn [existsb].
    unfold swept at 1 3. unfold cleanup_entry in H1, H2, H3, H4, H5, H6.
    cbn [fst snd] in *.
    destruct (is_bad_state (connectionState (pc pc0))) eqn:Hbad; simpl in *.
    + repeat split; try done.
      * intros k. rewrite H1. destruct (existsb (swept k) l); [by rewrite orb_true_r|].
        rewrite orb_false_r, andb_true_r. case_bool_decide; subst.
        -- apply lookup_delete_eq.
        -- by apply lookup_delete_ne.
      * intros k. rewrite H2. destruct (existsb (swept k) l); [by rewrite orb_true_r|].
        rewrite orb_false_r, andb_true_r. case_bool_decide; subst.
        -- apply lookup_delete_eq.
        -- by apply lookup_delete_ne.
      * rewrite H6, <- app_assoc. done.
    + repeat split; try done.
      * intros k. by rewrite H1, andb_false_r.
      * intros k. by rewrite H2, andb_false_r.
Qed.

Lemma swept_in_table m k :
  existsb (swept k) (map_to_list (peerConnections m)) = true <-> bad_session m k.
Proof.
  rewrite existsb_exists. unfold swept, bad_session. split.
  - intros ([k' ses] & Hin & Hb). simpl in Hb.
    apply andb_true_iff in Hb as [Hk Hb]. apply bool_decide_eq_true in Hk. subst.
    exists ses. split; [|done].
    apply elem_of_map_to_list. by apply list_elem_of_In.
  - intros (ses & Hl & Hb). exists (k, ses). simpl. split.
    + apply list_elem_of_In. by apply elem_of_map_to_list.
    + rewrite Hb, andb_true_r. by apply bool_decide_eq_true.
Qed.

(** C7. The sweep keeps exactly the sessions whose connection state is not
    failed, disconnected or closed.  Each removed session is closed once and
    loses its entries in the connection and channel tables; for every other
    peer the connection and its channel are the ones from before, and the
    remaining tables of the manager are not written at all. *)
Theorem cleanup_removes_exactly_bad (m : Manager) :
  let m' := cleanupConnections m in
  peerConnections m'
    = filter (fun e => is_bad_state (connectionState (pc e.2)) = false)
        (peerConnections m)
  /\ (forall k, bad_session m k ->
        peerConnections m' !! k = None /\ dataChannels m' !! k = None)
  /\ (forall k, ~ bad_session m k ->
        peerConnections m' !! k = peerConnections m !! k
        /\ dataChannels m' !! k = dataChannels m !! k)
  /\ connectionStates m' = connectionStates m
  /\ iceCandidatesBuffer m' = iceCandidatesBuffer m
  /\ myDeviceId m' = myDeviceId m
  /\ exists closed,
       new_events m m' = EvClose <$> closed
       /\ NoDup closed
       /\ forall k, In k closed <-> bad_session m k.
Proof.
  unfold cleanupConnections.
  destruct (cleanup_fold (map_to_list (peerConnections m)) m)
    as (H1 & H2 & H3 & H4 & H5 & H6). cbv zeta in *.
  set (m' := foldl cleanup_entry m _) in *.
  assert (Hbad : forall k, bad_session m k ->
            peerConnections m' !! k = None /\ dataChannels m' !! k = None).
  { intros k Hk. apply swept_in_table in Hk. by rewrite H1, H2, Hk. }
  assert (Hgood : forall k, ~ bad_session m k ->
            peerConnections m' !! k = peerConnections m !! k
            /\ dataChannels m' !! k = dataChannels m !! k).
  { intros k Hk. rewrite <- swept_in_table in Hk.
    apply not_true_is_false in Hk. by rewrite H1, H2, Hk. }
  repeat split; try done; try (by apply Hbad); try (by apply Hgood).
  - apply map_eq. intros k.
    destruct (peerConnections m !! k) as [ses|] eqn:Hpc.
    + destruct (is_bad_state (connectionState (pc ses))) eqn:Hb.
      * destruct (Hbad k) as [-> _]; [by exists ses|].
        symmetry. apply map_lookup_filter_None. right. intros ses' Hpc'. simpl.
        assert (ses' = ses) as -> by congruence. by rewrite Hb.
      * destruct (Hgood k) as [-> _].
        { intros (ses' & Hpc' & Hb'). congruence. }
        rewrite Hpc. symmetry. apply map_lookup_filter_Some. done.
    + destruct (Hgood k) as [-> _].
      { intros (ses' & Hpc' & _). congruence. }
      rewrite Hpc. symmetry. apply map_lookup_filter_None. by left.
  - exists (filter (fun e => is_bad_state (connectionState (pc e.2)) = true)
                       (map_to_list (peerConnections m))).*1.
    split; [by apply new_events_app|]. split.
    + apply NoDup_fmap_fst.
      * intros k x y Hx Hy. apply list_elem_of_filter in Hx as [_ Hx].
        apply list_elem_of_filter in Hy as [_ Hy].
        apply elem_of_map_to_list in Hx, Hy. congruence.
      * apply NoDup_filter, NoDup_map_to_list.
    + intros k. rewrite <- list_elem_of_In. rewrite list_elem_of_fmap. split.
      * intros ([k' ses] & -> & Hin). apply list_elem_of_filter in Hin as [Hb Hin].
        apply elem_of_map_to_list in Hin. by exists ses.
      * intros (ses & Hpc & Hb). exists (k, ses). split; [done|].
        apply list_elem_of_filter. split; [done|]. by apply elem_of_map_to_list.
Qed.

End Cleanup.

(** ** Offers *)

Section Offers.

Variable E : Engine.
Variable now : Z.

(** *** [createPeerConnection], case by case *)

Lemma createPeerConnection_absent peerId init m :
  peerConnections m !! peerId = None ->
  createPeerConnection peerId init m = create_fresh peerId init m.
Proof. intros H. unfold createPeerConnection. by rewrite H. Qed.

Lemma createPeerConnection_reuse peerId init m ses :
  peerConnections m !! peerId = Some ses ->
  reusable ses = true ->
  createPeerConnection peerId init m = m.
Proof.
  intros H Hr. unfold createPeerConnection, reusable in *. rewrite H.
  destruct (connectionState (pc ses)), (signalingState (pc ses)); done.
Qed.

Lemma createPeerConnection_replace peerId init m ses :
  peerConnections m !! peerId = Some ses ->
  reusable ses = false ->
  createPeerConnection peerId init m
  = create_fresh peerId init (close_and_delete peerId m).
Proof.
  intros H Hr. unfold createPeerConnection, reusable in *. rewrite H.
  destruct (connectionState (pc ses)), (signalingState (pc ses)); done.
Qed.

Lemma create_fresh_session peerId init m :
  peerConnections (create_fresh peerId init m) !! peerId = Some (new_session init)
  /\ myDeviceId (create_fresh peerId init m) = myDeviceId m
  /\ iceCandidatesBuffer (create_fresh peerId init m) = iceCandidatesBuffer m.
Proof.
  unfold create_fresh. destruct init; simpl; by rewrite lookup_insert_eq.
Qed.

(** *** The answering half of [handleOffer] *)

Lemma answer_body_starts peerId offer m ses :
  peerConnections m !! peerId = Some ses ->
  exists rest,
    trace (answer_body E now peerId offer m).2
    = (trace m ++ EvSetRemoteDescription peerId offer :: rest)%list.
Proof.
  intros Hs. unfold answer_body. simpl.
  rewrite (pc_setRemoteDescription_run E _ _ _ _ Hs).
  destruct (eng_setRemoteDescription E (pc ses) offer) as [pc1|]; simpl;
    [|by exists []].
  set (m1 := set_peerConnections _ _).
  assert (Hs1 : peerConnections m1 !! peerId = Some (with_pc_state ses pc1))
    by (simpl; apply lookup_insert_eq).
  destruct (flush_session E peerId m1 _ Hs1) as [Hs2 _].
  assert (Ht1 : trace m1 = (trace m ++ [EvSetRemoteDescription peerId offer])%list)
    by done.
  rewrite (pc_createAnswer_run E _ _ _ Hs2).
  destruct (eng_createAnswer E _) as [answer|]; simpl.
  2:{ rewrite flush_trace, Ht1, <- !app_assoc. simpl. eauto. }
  erewrite pc_setLocalDescription_run by (simpl; exact Hs2).
  destruct (eng_setLocalDescription E _ answer) as [pc3|]; simpl.
  2:{ rewrite flush_trace, Ht1, <- !app_assoc. simpl. eauto. }
  unfold sendSignal. simpl. destruct (eng_push E _ _); simpl;
    rewrite flush_trace, Ht1, <- !app_assoc; simpl; eauto.
Qed.

Lemma answer_body_run peerId offer m ses answer pc3 :
  peerConnections m !! peerId = Some ses ->
  answer_accepted E now (myDeviceId m) peerId (pc ses) offer
    (default [] (iceCandidatesBuffer m !! peerId)) answer pc3 ->
  let m' := (answer_body E now peerId offer m).2 in
  trace m'
    = (trace m ++
       answer_events peerId offer (default [] (iceCandidatesBuffer m !! peerId))
         answer (mkSignal now (myDeviceId m) "answer" (plain answer)))%list
  /\ peerConnections m' !! peerId = Some (with_pc_state ses pc3).
Proof.
  intros Hs (pc1 & Hrem & Hans & Hloc & Hpush). unfold answer_body. simpl.
  rewrite (pc_setRemoteDescription_run E _ _ _ _ Hs), Hrem. simpl.
  set (m1 := set_peerConnections _ _).
  assert (Hs1 : peerConnections m1 !! peerId = Some (with_pc_state ses pc1))
    by (simpl; apply lookup_insert_eq).
  destruct (flush_session E peerId m1 _ Hs1) as [Hs2 Hme]. simpl in Hs2, Hme.
  rewrite (pc_createAnswer_run E _ _ _ Hs2). simpl. rewrite Hans. simpl.
  erewrite pc_setLocalDescription_run by (simpl; exact Hs2).
  simpl. rewrite Hloc. simpl. unfold sendSignal. simpl.
  rewrite Hme, Hpush. simpl. split.
  - simpl. rewrite flush_trace. unfold flushed. rewrite Hs1.
    simpl. unfold answer_events. rewrite <- !app_assoc. done.
  - by rewrite lookup_insert_eq.
Qed.

(** [handleOffer] when it takes the session from [createPeerConnection]. *)
Lemma handleSignal_offer_absent (s : SignalData) (m : Manager) :
  type s = "offer" ->
  peerConnections m !! from s = None ->
  handleSignal E now s m
  = (answer_body E now (from s) (data s) (create_fresh (from s) false m)).2.
Proof.
  intros Hty Hs. unfold handleSignal, handleOffer. rewrite Hty, Hs. simpl.
  by rewrite createPeerConnection_absent.
Qed.

(** C3 (amended). An offer from a peer whose session is connected, or is in
    signalling state stable, changes nothing.  An offer from a peer without a
    session creates the session as responder and hands the offer to the
    engine; when the engine and the transport accept every step, the calls
    are, in this order: the new connection, the remote description, the
    buffered candidates, the answer created and set, and the answer signal
    published to the peer, and the session ends as a responder. *)
Theorem offer_ignored_or_answered (s : SignalData) (m : Manager) :
  type s = "offer" ->
  let m' := handleSignal E now s m in
  (forall ses,
      peerConnections m !! from s = Some ses ->
      connectionState (pc ses) = CsConnected \/ signalingState (pc ses) = Stable ->
      m' = m)
  /\ (peerConnections m !! from s = None ->
      (exists rest,
          new_events m m'
          = EvNew (from s) false :: EvSetRemoteDescription (from s) (data s) :: rest)
      /\ forall answer pc3,
          answer_accepted E now (myDeviceId m) (from s) new_RTCPeerConnection (data s)
            (default [] (iceCandidatesBuffer m !! from s)) answer pc3 ->
          new_events m m'
          = EvNew (from s) false
            :: answer_events (from s) (data s)
                 (default [] (iceCandidatesBuffer m !! from s)) answer
                 (mkSignal now (myDeviceId m) "answer" (plain answer))
          /\ peerConnections m' !! from s
             = Some {| pc := pc3; initiator := false |}).
Proof.
  intros Hty. cbv zeta. split.
  - intros ses Hs Hst. unfold handleSignal. rewrite Hty, Hs. simpl.
    destruct Hst as [-> | ->]; [done | by rewrite orb_true_r].
  - intros Hs. rewrite (handleSignal_offer_absent s m Hty Hs).
    destruct (create_fresh_session (from s) false m) as (Hf & Hme & Hbuf).
    split.
    + destruct (answer_body_starts (from s) (data s) _ _ Hf) as [rest Hr].
      exists rest. apply new_events_app. rewrite Hr. simpl.
      by rewrite <- app_assoc.
    + intros answer pc3 Hacc.
      destruct (answer_body_run (from s) (data s) (create_fresh (from s) false m)
                  (new_session false) answer pc3 Hf) as [Ht Hl].
      { rewrite Hme, Hbuf. exact Hacc. }
      cbv zeta in Ht, Hl. rewrite Hme, Hbuf in Ht. split; [|exact Hl].
      apply new_events_app. rewrite Ht. simpl. by rewrite <- app_assoc.
Qed.

(** *** Glare *)

Lemma js_lt_asym a b : js_lt a b = true -> js_lt b a = false.
Proof.
  unfold js_lt, String.ltb. rewrite (String.compare_antisym a b).
  by destruct (String.compare b a).
Qed.

Lemma glare_greater_keeps (s : SignalData) (m : Manager) (ses : Session) :
  type s = "offer" ->
  holds_local_offer m (from s) ses ->
  js_lt (myDeviceId m) (from s) = false ->
  handleSignal E now s m = m.
Proof.
  intros Hty [Hs Hsig] Hlt. unfold handleSignal, handleOffer.
  rewrite Hty, Hs, Hsig, Hlt. simpl. by destruct (is_connected _).
Qed.

Lemma glare_lesser_yields (s : SignalData) (m : Manager) (ses : Session) :
  type s = "offer" ->
  holds_local_offer m (from s) ses ->
  js_lt (myDeviceId m) (from s) = true ->
  is_connected_or_connecting (connectionState (pc ses)) = false ->
  handleSignal E now s m
  = (answer_body E now (from s) (data s)
       (create_fresh (from s) false (close_and_delete (from s) m))).2.
Proof.
  intros Hty [Hs Hsig] Hlt Hcc. unfold handleSignal, handleOffer.
  rewrite Hty, Hs, Hsig, Hlt. simpl.
  rewrite (createPeerConnection_replace _ _ _ ses Hs).
  - by destruct (connectionState (pc ses)).
  - unfold reusable. by rewrite Hcc, Hsig, andb_false_r.
Qed.

(** The answering half of [handleOffer] on an existing session: the first
    call hands the offer to that session, no call discards or creates a
    connection, and the session keeps its role. *)
Lemma answer_body_keeps_session peerId offer m ses :
  peerConnections m !! peerId = Some ses ->
  let m' := (answer_body E now peerId offer m).2 in
  (exists rest,
      trace m' = (trace m ++ EvSetRemoteDescription peerId offer :: rest)%list
      /\ Forall (fun e => ~ resets peerId e) rest)
  /\ exists ses', peerConnections m' !! peerId = Some ses'
                  /\ initiator ses' = initiator ses.
Proof.
  intros Hs. cbv zeta. unfold answer_body. simpl.
  assert (Hadd : forall l, Forall (fun e => ~ resets peerId e)
                             (map (EvAddIceCandidate peerId) l)).
  { intros l. apply Forall_map, Forall_forall. intros c _ [H | [i H]]; discriminate. }
  assert (Hno : forall e, (forall p, e <> EvClose p) -> (forall p i, e <> EvNew p i) ->
                  ~ resets peerId e).
  { intros e H1 H2 [H | [i H]]; [by apply (H1 peerId) | by apply (H2 peerId i)]. }
  rewrite (pc_setRemoteDescription_run E _ _ _ _ Hs).
  destruct (eng_setRemoteDescription E (pc ses) offer) as [pc1|]; simpl.
  2:{ split; [exists []; split; [done | constructor] | by exists ses]. }
  set (m1 := set_peerConnections _ _).
  assert (Hs1 : peerConnections m1 !! peerId = Some (with_pc_state ses pc1))
    by (simpl; apply lookup_insert_eq).
  destruct (flush_session E peerId m1 _ Hs1) as [Hs2 _].
  assert (Ht1 : trace m1 = (trace m ++ [EvSetRemoteDescription peerId offer])%list)
    by done.
  rewrite (pc_createAnswer_run E _ _ _ Hs2).
  destruct (eng_createAnswer E _) as [answer|]; simpl.
  2:{ rewrite flush_trace, Ht1, <- !app_assoc. simpl. split.
      - eexists. split; [done|]. apply Forall_app. split; [apply Hadd|].
        repeat constructor. by apply Hno.
      - rewrite Hs2. by eexists. }
  erewrite pc_setLocalDescription_run by (simpl; exact Hs2).
  destruct (eng_setLocalDescription E _ answer) as [pc3|]; simpl.
  2:{ rewrite flush_trace, Ht1, <- !app_assoc. simpl. split.
      - eexists. split; [done|]. apply Forall_app. split; [apply Hadd|].
        repeat constructor; by apply Hno.
      - rewrite Hs2. by eexists. }
  unfold sendSignal. simpl. destruct (eng_push E _ _); simpl;
    rewrite flush_trace, Ht1, <- !app_assoc; simpl.
  - split.
    + eexists. split; [done|]. apply Forall_app. split; [apply Hadd|].
      repeat constructor; by apply Hno.
    + rewrite lookup_insert_eq. by eexists.
  - split.
    + eexists. split; [done|]. apply Forall_app. split; [apply Hadd|].
      repeat constructor; by apply Hno.
    + rewrite lookup_insert_eq. by eexists.
Qed.

(** C1 (what the code does where it departs from the claim).  The side
    with the lesser id holds a local offer and its engine already reports
    the session connecting when the offer of the other side arrives.
    [handleOffer] takes the branch whose comment reads "Reset our local
    offer and accept theirs", but [createPeerConnection] hands the existing
    session back: nothing is closed and nothing is created, the pending
    offer is not discarded and the session keeps its role.  The incoming
    offer goes to the session that still holds the local offer; when the
    engine rejects it there, the session is exactly as before and nothing is
    published. *)
Theorem glare_connecting_session_not_reset (s : SignalData) (m : Manager)
    (ses : Session) :
  type s = "offer" ->
  holds_local_offer m (from s) ses ->
  js_lt (myDeviceId m) (from s) = true ->
  connectionState (pc ses) = CsConnecting ->
  let m' := handleSignal E now s m in
  createPeerConnection (from s) false m = m
  /\ (exists rest,
        new_events m m' = EvSetRemoteDescription (from s) (data s) :: rest
        /\ Forall (fun e => ~ resets (from s) e) rest)
  /\ (exists ses', peerConnections m' !! from s = Some ses'
                   /\ initiator ses' = initiator ses)
  /\ (eng_setRemoteDescription E (pc ses) (data s) = None ->
      m' = emit (EvSetRemoteDescription (from s) (data s)) m).
Proof.
  intros Hty [Hs Hsig] Hlt Hcc. cbv zeta.
  assert (Hreuse : createPeerConnection (from s) false m = m).
  { apply (createPeerConnection_reuse _ _ _ ses Hs). unfold reusable.
    by rewrite Hcc. }
  assert (Hrun : handleSignal E now s m
                 = (answer_body E now (from s) (data s) m).2).
  { unfold handleSignal, handleOffer. rewrite Hty, Hs, Hsig, Hcc, Hlt. simpl.
    by rewrite Hreuse. }
  rewrite Hrun.
  destruct (answer_body_keeps_session (from s) (data s) m ses Hs)
    as [(rest & Htr & Hrest) Hses].
  cbv zeta in *. split; [exact Hreuse|]. split; [|split; [exact Hses|]].
  - exists rest. split; [by apply new_events_app | exact Hrest].
  - intros Hrej. unfold answer_body. simpl.
    by rewrite (pc_setRemoteDescription_run E _ _ _ _ Hs), Hrej.
Qed.

End Offers.

(** ** Connecting *)

Section Connect.

Variable E : Engine.
Variable now : Z.

Lemma createPeerConnection_myDeviceId peerId init m :
  myDeviceId (createPeerConnection peerId init m) = myDeviceId m.
Proof.
  unfold createPeerConnection, create_fresh.
  destruct (peerConnections m !! peerId) as [ses|]; [|by destruct init].
  destruct (is_connected_or_connecting _); [done|].
  destruct (is_bad_state _); [by destruct init|].
  destruct (_ && _); [done | by destruct init].
Qed.

(** The body of [connectToPeer] once [createPeerConnection] has returned the
    session [ses], having made the calls [pre]. *)
Lemma connect_body_from peerId m pre ses :
  trace (createPeerConnection peerId true m) = (trace m ++ pre)%list ->
  peerConnections (createPeerConnection peerId true m) !! peerId = Some ses ->
  let m' := (connect_body E now peerId m).2 in
  (exists rest, new_events m m' = (pre ++ EvCreateOffer peerId :: rest)%list)
  /\ forall offer pc1,
       offer_accepted E now (myDeviceId m) peerId (pc ses) offer pc1 ->
       new_events m m' = (pre ++ offer_events now (myDeviceId m) peerId offer)%list
       /\ peerConnections m' !! peerId = Some (with_pc_state ses pc1)
       /\ dataChannels m' = dataChannels (createPeerConnection peerId true m).
Proof.
  intros Ht Hs. cbv zeta. unfold connect_body. simpl.
  rewrite (pc_createOffer_run E _ _ _ Hs).
  pose proof (createPeerConnection_myDeviceId peerId true m) as Hme.
  set (m0 := createPeerConnection peerId true m) in *.
  split.
  - destruct (eng_createOffer E (pc ses)) as [offer|]; simpl.
    2:{ exists []. apply new_events_app. simpl. by rewrite Ht, <- app_assoc. }
    erewrite pc_setLocalDescription_run by (simpl; exact Hs).
    destruct (eng_setLocalDescription E (pc ses) offer) as [pc1|]; simpl.
    2:{ eexists. apply new_events_app. simpl. rewrite Ht, <- !app_assoc. done. }
    unfold sendSignal. simpl. destruct (eng_push E _ _); simpl;
      eexists; apply new_events_app; simpl; rewrite Ht, <- !app_assoc; done.
  - intros offer pc1 (Hoff & Hloc & Hpush). rewrite Hoff. simpl.
    erewrite pc_setLocalDescription_run by (simpl; exact Hs).
    rewrite Hloc. simpl. unfold sendSignal. simpl. rewrite Hme, Hpush. simpl.
    split; [|split; [by rewrite lookup_insert_eq | done]].
    apply new_events_app. simpl. rewrite Ht, <- !app_assoc. done.
Qed.

Lemma connectToPeer_proceeds peerId m :
  js_lt (myDeviceId m) peerId = true ->
  (forall ses, peerConnections m !! peerId = Some ses -> ~ blocks_connect ses) ->
  connectToPeer E now peerId m = (connect_body E now peerId m).2.
Proof.
  intros Hlt Hnb. unfold connectToPeer, js_ge. unfold js_lt in Hlt. rewrite Hlt.
  simpl. destruct (peerConnections m !! peerId) as [ses|] eqn:Hs; [|done].
  specialize (Hnb ses eq_refl). unfold blocks_connect in Hnb.
  destruct (is_connected_or_connecting _); [tauto|].
  destruct (signalingState (pc ses)); simpl; tauto.
Qed.


End Connect.

(** ** Concrete runs of the signalling operations *)

Example after_first_connect_session :
  peerConnections after_first_connect !! "b" = Some (offering CsNew).
Proof. vm_compute. reflexivity. Qed.



(** Counterexample to C3 as stated: the session of the sender is in
    signalling state stable and was never negotiated, yet the offer is
    dropped: the session is not replaced, no remote description is applied
    and no answer is published. *)
Lemma offer_to_stable_session_counterexample :
  (exists ses,
      peerConnections idle_responder !! "a" = Some ses
      /\ signalingState (pc ses) = Stable
      /\ connectionState (pc ses) = CsNew
      /\ remoteDescription (pc ses) = None)
  /\ new_events idle_responder
       (handleSignal accepting_engine 0 offer_from_a idle_responder) = []
  /\ handleSignal accepting_engine 0 offer_from_a idle_responder = idle_responder.
Proof.
  split.
  - exists (new_session false). split; [vm_compute; reflexivity | done].
  - split; vm_compute; reflexivity.
Qed.

Lemma offer_ignored_or_answered_witness :
  type offer_from_a = "offer"
  /\ new_events (fresh_manager "b")
       (handleSignal accepting_engine 0 offer_from_a (fresh_manager "b"))
     = EvNew "a" false
       :: answer_events "a" sample_offer []
            {| d_type := "answer"; d_sdp := "v=0" |}
            (mkSignal 0 "b" "answer" sample_answer).
Proof.
  split; [reflexivity|].
  pose proof (offer_ignored_or_answered accepting_engine 0 offer_from_a
                (fresh_manager "b") eq_refl) as [_ Habs].
  destruct (Habs eq_refl) as [_ Hrun].
  destruct (Hrun {| d_type := "answer"; d_sdp := "v=0" |}
              {| connectionState := CsNew; signalingState := Stable;
                 remoteDescription := Some sample_offer |}) as [H _].
  - eexists. repeat split.
  - exact H.
Defined.

Lemma glare_connecting_session_not_reset_witness :
  let A := manager_with "a" "b" (offering CsConnecting) in
  let A' := handleSignal accepting_engine 0 (mkSignal 0 "b" "offer" sample_offer) A in
  js_lt "a" "b" = true
  /\ holds_local_offer A "b" (offering CsConnecting)
  /\ eng_setRemoteDescription accepting_engine (pc (offering CsConnecting))
       sample_offer = None
  /\ new_events A A' = [EvSetRemoteDescription "b" sample_offer]
  /\ peerConnections A' !! "b" = Some (offering CsConnecting).
Proof.
  cbv zeta.
  assert (Hh : holds_local_offer (manager_with "a" "b" (offering CsConnecting)) "b"
                 (offering CsConnecting))
    by (split; [vm_compute; reflexivity | reflexivity]).
  split; [reflexivity|]. split; [exact Hh|]. split; [reflexivity|].
  destruct (glare_connecting_session_not_reset accepting_engine 0
              (mkSignal 0 "b" "offer" sample_offer)
              (manager_with "a" "b" (offering CsConnecting))
              (offering CsConnecting) eq_refl Hh eq_refl eq_refl)
    as (_ & _ & _ & Hrej).
  rewrite (Hrej eq_refl). split; [|vm_compute; reflexivity].
  apply new_events_app. reflexivity.
Defined.

Lemma flush_each_once_in_order_witness :
  eng_addIceCandidate picky_engine (pc (offering CsNew)) (ice "candidate:1" None) = None
  /\ new_events two_buffered (flushIceCandidates picky_engine "b" two_buffered)
     = [EvAddIceCandidate "b" (ice "candidate:1" None);
        EvAddIceCandidate "b" (ice "candidate:2" (Some "0"))]
  /\ default [] (iceCandidatesBuffer
                   (flushIceCandidates picky_engine "b" two_buffered) !! "b") = [].
Proof.
  split; [reflexivity|].
  destruct (flush_each_once_in_order picky_engine "b" (offering CsNew)
              [ice "candidate:1" None; ice "candidate:2" (Some "0")] two_buffered)
    as (H1 & H2 & _).
  - vm_compute; reflexivity.
  - vm_compute; reflexivity.
  - split; [exact H1 | exact H2].
Defined.

Lemma handleIceCandidate_ignores_empty_witness :
  no_candidate end_of_candidates
  /\ handleIceCandidate accepting_engine "b" end_of_candidates two_buffered
     = two_buffered
  /\ handleIceCandidate accepting_engine "b" PNothing two_buffered = two_buffered.
Proof.
  assert (H : no_candidate end_of_candidates).
  { right. eexists. split; [reflexivity|]. right. reflexivity. }
  split; [exact H|]. split.
  - apply (handleIceCandidate_ignores_empty accepting_engine 0 "b"
             end_of_candidates two_buffered H).
  - apply (handleIceCandidate_ignores_empty accepting_engine 0 "b"
             PNothing two_buffered). by left.
Defined.

Lemma answer_applied_iff_have_local_offer_witness :
  type (mkSignal 0 "b" "answer" sample_answer) = "answer"
  /\ awaiting_answer two_buffered "b"
  /\ new_events two_buffered
       (handleSignal accepting_engine 0 (mkSignal 0 "b" "answer" sample_answer)
          two_buffered)
     = [EvSetRemoteDescription "b" sample_answer;
        EvAddIceCandidate "b" (ice "candidate:1" None);
        EvAddIceCandidate "b" (ice "candidate:2" (Some "0"))]
  /\ default []
       (iceCandidatesBuffer
          (handleSignal accepting_engine 0 (mkSignal 0 "b" "answer" sample_answer)
             two_buffered) !! "b") = []
  /\ handleSignal accepting_engine 0 (mkSignal 0 "b" "answer" sample_answer)
       idle_responder = idle_responder.
Proof.
  assert (Haw : awaiting_answer two_buffered "b").
  { exists (offering CsNew). split; [vm_compute; reflexivity | reflexivity]. }
  split; [reflexivity|]. split; [exact Haw|].
  destruct (answer_applied_iff_have_local_offer accepting_engine 0
              (mkSignal 0 "b" "answer" sample_answer) two_buffered eq_refl)
    as (_ & _ & Hacc & _).
  destruct (Hacc (offering CsNew)
              {| connectionState := CsNew; signalingState := Stable;
                 remoteDescription := Some sample_answer |})
    as (Hev & _ & Hbuf & _); [vm_compute; reflexivity | reflexivity | reflexivity |].
  split; [exact Hev|]. split; [exact Hbuf|].
  apply (answer_applied_iff_have_local_offer accepting_engine 0
           (mkSignal 0 "b" "answer" sample_answer) idle_responder eq_refl).
  intros (ses & Hs & Hsig). vm_compute in Hs. discriminate.
Defined.

Lemma cleanup_removes_exactly_bad_witness :
  bad_session three_sessions "f"
  /\ peerConnections (cleanupConnections three_sessions) !! "f" = None
  /\ dataChannels (cleanupConnections three_sessions) !! "f" = None
  /\ peerConnections (cleanupConnections three_sessions) !! "c"
     = peerConnections three_sessions !! "c"
  /\ dataChannels (cleanupConnections three_sessions) !! "c"
     = Some {| readyState := RsOpen |}.
Proof.
  assert (Hf : bad_session three_sessions "f").
  { exists (offering CsFailed). split; [vm_compute; reflexivity | reflexivity]. }
  destruct (cleanup_removes_exactly_bad three_sessions) as (_ & Hbad & Hgood & _).
  destruct (Hbad "f" Hf) as [H1 H2].
  destruct (Hgood "c") as [H3 H4].
  { intros (ses & Hs & Hb). vm_compute in Hs. injection Hs as <-. discriminate. }
  split; [exact Hf|]. split; [exact H1|]. split; [exact H2|].
  split; [exact H3|]. rewrite H4. vm_compute. reflexivity.
Defined.

(** ** Chunking and reassembly *)

Section Chunks.

Local Open Scope Z_scope.

Lemma ceil_div_bounds a b :
  0 < b -> b * (ceil_div a b - 1) < a <= b * ceil_div a b.
Proof.
  intros Hb. unfold ceil_div.
  pose proof (Z.div_mod (- a) b ltac:(lia)) as Hdm.
  pose proof (Z.mod_pos_bound (- a) b Hb) as Hmod.
  nia.
Qed.

Lemma ceil_div_nonneg a b : 0 < b -> 0 <= a -> 0 <= ceil_div a b.
Proof. intros Hb Ha. pose proof (ceil_div_bounds a b Hb). nia. Qed.

Lemma slice_nat arr (s e : nat) :
  slice arr (Z.of_nat s) (Z.of_nat e) = take (e - s) (drop s arr).
Proof. unfold slice. f_equal; [lia | f_equal; lia]. Qed.

(** The frames of the loop put end to end are the bytes between the first
    start and the last end. *)
Lemma chunk_loop_concat arr (c : nat) : (0 < c)%nat -> forall n k,
  concat (chunk_loop arr (Z.of_nat c) n (Z.of_nat k))
  = take (Nat.min ((k + n) * c) (length arr) - k * c) (drop (k * c) arr).
Proof.
  intros Hc. induction n as [|n IH]; intros k.
  - simpl. replace (Nat.min _ _ - _)%nat with 0%nat by lia. done.
  - cbn [chunk_loop concat].
    replace (Z.of_nat k + 1) with (Z.of_nat (S k)) by lia. rewrite IH.
    replace (Z.of_nat k * Z.of_nat c) with (Z.of_nat (k * c)) by lia.
    replace (Z.min (Z.of_nat (k * c) + Z.of_nat c) (Z.of_nat (length arr)))
      with (Z.of_nat (Nat.min (k * c + c) (length arr))) by lia.
    rewrite slice_nat.
    destruct (decide (k * c + c <= length arr)%nat) as [Hle|Hgt].
    + replace (Nat.min (k * c + c) (length arr) - k * c)%nat with c by lia.
      replace (S k * c)%nat with (k * c + c)%nat by lia.
      rewrite <- drop_drop, take_take_drop. f_equal. lia.
    + replace (Nat.min ((S k + n) * c) (length arr) - S k * c)%nat with 0%nat by lia.
      rewrite take_0, app_nil_r. f_equal. lia.
Qed.

Lemma chunk_loop_length arr cs n i : length (chunk_loop arr cs n i) = n.
Proof. revert i. induction n as [|n IH]; intros i; simpl; [done | by rewrite IH]. Qed.

Lemma sendFileChunks_concat arr : concat (sendFileChunks arr) = arr.
Proof.
  unfold sendFileChunks.
  pose proof (ceil_div_bounds (Z.of_nat (length arr)) 16384 ltac:(lia)) as Hb.
  pose proof (chunk_loop_concat arr (Z.to_nat 16384) ltac:(lia)
                (Z.to_nat (ceil_div (Z.of_nat (length arr)) 16384)) 0%nat) as Hc.
  replace (Z.of_nat (Z.to_nat 16384)) with 16384 in Hc by lia.
  change (Z.of_nat 0) with 0 in Hc. rewrite Hc.
  rewrite Nat.mul_0_l, Nat.sub_0_r, drop_0. apply take_ge. lia.
Qed.

Lemma sendFileChunks_count arr :
  Z.of_nat (length (sendFileChunks arr)) = sender_totalChunks arr.
Proof.
  unfold sendFileChunks, sender_totalChunks. rewrite chunk_loop_length.
  pose proof (ceil_div_nonneg (Z.of_nat (length arr)) 16384). lia.
Qed.

Lemma slice_length arr s e :
  0 <= s <= e -> e <= Z.of_nat (length arr) ->
  Z.of_nat (length (slice arr s e)) = e - s.
Proof. intros Hs He. unfold slice. rewrite length_take, length_drop. lia. Qed.

(** The running sum of the reconstruction. *)
Lemma total_size_concat (cs : list (list byte)) (a : nat) :
  foldl (fun sum chunk => (sum + length chunk)%nat) a cs
  = (a + length (concat cs))%nat.
Proof.
  revert a. induction cs as [|c cs IH]; intros a; simpl; [lia|].
  rewrite IH, length_app. lia.
Qed.

(** The writing loop of the reconstruction: with [pre] already written and
    zeroes for what is still to come, the loop writes the remaining chunks
    behind [pre]. *)
Lemma write_loop (cs : list (list byte)) : forall pre,
  (foldl (fun st chunk => (set_at st.1 chunk st.2, (st.2 + length chunk)%nat))
         ((pre ++ replicate (length (concat cs)) x00)%list, length pre) cs).1
  = (pre ++ concat cs)%list.
Proof.
  induction cs as [|c cs IH]; intros pre; simpl.
  - done.
  - unfold set_at at 2. cbn [fst snd].
    rewrite take_app_length, drop_app_add, drop_replicate, length_app.
    replace (length c + length (concat cs) - length c)%nat
      with (length (concat cs)) by lia.
    specialize (IH (pre ++ c)%list). rewrite length_app, <- !app_assoc in IH.
    rewrite IH. done.
Qed.

Lemma reassemble_concat (cs : list (list byte)) : reassemble cs = concat cs.
Proof.
  unfold reassemble. rewrite total_size_concat. simpl.
  exact (write_loop cs []).
Qed.

Lemma on_file_data_more peerId data r t :
  fileTransferRef r = Some t ->
  peerId = selectedDevice r ->
  receivedChunks t + 1 < totalChunks t ->
  on_file_data peerId data r
  = {| selectedDevice := selectedDevice r;
       fileTransferRef := Some (with_frame t data);
       downloads := downloads r |}.
Proof.
  intros Hr Hp Hlt. unfold on_file_data. rewrite decide_True by done.
  rewrite Hr. by rewrite (proj2 (Z.leb_gt _ _)) by lia.
Qed.

Lemma on_file_data_last peerId data r t :
  fileTransferRef r = Some t ->
  peerId = selectedDevice r ->
  totalChunks t <= receivedChunks t + 1 ->
  on_file_data peerId data r
  = {| selectedDevice := selectedDevice r;
       fileTransferRef := None;
       downloads := (downloads r ++
         [{| dl_name := ft_name t; dl_type := ft_type t;
             dl_bytes := reassemble (chunks t ++ [data]) |}])%list |}.
Proof.
  intros Hr Hp Hle. unfold on_file_data. rewrite decide_True by done.
  rewrite Hr. by rewrite (proj2 (Z.leb_le _ _)) by lia.
Qed.

(** The receiver, some frames short of the announced total, stays in the
    receiving state until the last of them and then hands over the
    reconstruction of everything it holds. *)
Lemma receive_until_complete peerId : forall frames r t,
  fileTransferRef r = Some t ->
  peerId = selectedDevice r ->
  frames <> [] ->
  receivedChunks t + Z.of_nat (length frames) = totalChunks t ->
  receive_all peerId frames r
  = {| selectedDevice := selectedDevice r;
       fileTransferRef := None;
       downloads := (downloads r ++
         [{| dl_name := ft_name t; dl_type := ft_type t;
             dl_bytes := reassemble (chunks t ++ frames) |}])%list |}
  /\ forall k, (k < length frames)%nat ->
       downloads (receive_all peerId (take k frames) r) = downloads r
       /\ is_Some (fileTransferRef (receive_all peerId (take k frames) r)).
Proof.
  induction frames as [|f frames IH]; intros r t Hr Hp Hne Hcount; [done|].
  unfold receive_all in *. cbn [foldl].
  destruct frames as [|f' frames].
  - simpl in Hcount. rewrite (on_file_data_last _ _ _ t) by (done || lia).
    split; [done|].
    intros k Hk. simpl in Hk. replace k with 0%nat by lia. simpl. by rewrite Hr.
  - assert (Hlt : receivedChunks t + 1 < totalChunks t)
      by (simpl length in Hcount; lia).
    rewrite (on_file_data_more _ _ _ t) by done.
    destruct (IH (Build_Receiver (selectedDevice r) (Some (with_frame t f)) (downloads r))
                 (with_frame t f)) as [Hall Hpre]; try done.
    { simpl length in *. simpl. lia. }
    split.
    + rewrite Hall. simpl. by rewrite <- app_assoc.
    + intros [|k] Hk; [simpl; by rewrite Hr|].
      cbn [take foldl]. rewrite (on_file_data_more _ _ _ t) by done.
      apply (Hpre k). simpl length in *. lia.
Qed.

End Chunks.

Section ChunkClaims.

Local Open Scope Z_scope.

(** C8. Sender and receiver both take the ceiling of the size over 16384 as
    the number of chunks, and the sender's loop sends that many frames.  A
    file of 40000 bytes goes out as three frames of 16384, 16384 and 7232
    bytes, and a receiver that accepted 40000 bytes hands the file over at
    the third frame from the sender, not before. *)
Theorem chunk_count_is_ceiling :
  (forall arr : list byte,
      Z.of_nat (length (sendFileChunks arr)) = sender_totalChunks arr
      /\ 16384 * (sender_totalChunks arr - 1) < Z.of_nat (length arr)
         <= 16384 * sender_totalChunks arr)
  /\ (forall name size ty r,
        exists t,
          fileTransferRef (acceptFileOffer name size ty r) = Some t
          /\ receivedChunks t = 0
          /\ 16384 * (totalChunks t - 1) < size <= 16384 * totalChunks t)
  /\ (forall arr : list byte,
        Z.of_nat (length arr) = 40000 ->
        map (fun c => Z.of_nat (length c)) (sendFileChunks arr)
        = [16384; 16384; 7232])
  /\ (forall name ty r f1 f2 f3,
        let peer := selectedDevice r in
        let r0 := acceptFileOffer name 40000 ty r in
        let r1 := on_file_data peer f1 r0 in
        let r2 := on_file_data peer f2 r1 in
        let r3 := on_file_data peer f3 r2 in
        (downloads r0 = downloads r /\ is_Some (fileTransferRef r0))
        /\ (downloads r1 = downloads r /\ is_Some (fileTransferRef r1))
        /\ (downloads r2 = downloads r /\ is_Some (fileTransferRef r2))
        /\ downloads r3
           = (downloads r ++
              [{| dl_name := name; dl_type := ty;
                  dl_bytes := reassemble [f1; f2; f3] |}])%list
        /\ fileTransferRef r3 = None).
Proof.
  split; [|split; [|split]].
  - intros arr. split; [apply sendFileChunks_count|].
    apply ceil_div_bounds. lia.
  - intros name size ty r. eexists. split; [reflexivity|]. split; [done|].
    simpl. apply ceil_div_bounds. lia.
  - intros arr Hlen. unfold sendFileChunks. rewrite Hlen.
    change (Z.to_nat (ceil_div 40000 16384)) with 3%nat.
    cbn [chunk_loop map]. rewrite Hlen.
    rewrite !slice_length by lia. reflexivity.
  - intros name ty r f1 f2 f3. cbv zeta.
    unfold on_file_data, acceptFileOffer. simpl.
    rewrite !decide_True by done. simpl.
    repeat split; eauto.
Qed.

Lemma chunk_count_is_ceiling_witness :
  Z.of_nat (length (replicate (Z.to_nat 40000) x2a)) = 40000
  /\ map (fun c => Z.of_nat (length c))
       (sendFileChunks (replicate (Z.to_nat 40000) x2a))
     = [16384; 16384; 7232].
Proof.
  assert (H : Z.of_nat (length (replicate (Z.to_nat 40000) x2a)) = 40000)
    by (rewrite length_replicate; lia).
  split; [exact H|].
  destruct chunk_count_is_ceiling as (_ & _ & Hsizes & _).
  exact (Hsizes _ H).
Defined.

(** C9. For every byte sequence the frames of the sender, put end to end or
    run through the receiver's reconstruction, give back the sequence.  For a
    non-empty file, a receiver that accepted its size and is fed the frames
    in order hands over exactly those bytes at the last frame and nothing
    earlier. *)
Theorem chunking_round_trip (arr : list byte) :
  concat (sendFileChunks arr) = arr
  /\ reassemble (sendFileChunks arr) = arr
  /\ (arr <> [] ->
      forall name ty r,
        let peer := selectedDevice r in
        let r0 := acceptFileOffer name (Z.of_nat (length arr)) ty r in
        receive_all peer (sendFileChunks arr) r0
        = {| selectedDevice := selectedDevice r;
             fileTransferRef := None;
             downloads := (downloads r ++
               [{| dl_name := name; dl_type := ty; dl_bytes := arr |}])%list |}
        /\ forall k, (k < length (sendFileChunks arr))%nat ->
             downloads (receive_all peer (take k (sendFileChunks arr)) r0)
             = downloads r).
Proof.
  split; [apply sendFileChunks_concat|].
  split; [rewrite reassemble_concat; apply sendFileChunks_concat|].
  intros Hne name ty r. cbv zeta.
  pose proof (sendFileChunks_count arr) as Hcount.
  pose proof (ceil_div_bounds (Z.of_nat (length arr)) 16384 ltac:(lia)) as Hb.
  assert (Hlen : (0 < length arr)%nat) by (destruct arr; [done | simpl; lia]).
  unfold sender_totalChunks in Hcount.
  destruct (receive_until_complete (selectedDevice r) (sendFileChunks arr)
              (acceptFileOffer name (Z.of_nat (length arr)) ty r)
              {| ft_name := name; ft_size := Z.of_nat (length arr); ft_type := ty;
                 chunks := []; totalChunks := ceil_div (Z.of_nat (length arr)) 16384;
                 receivedChunks := 0 |}) as [Hall Hpre]; try done.
  - intros Hnil. rewrite Hnil in Hcount. simpl in Hcount. lia.
  - split.
    + rewrite Hall. simpl. rewrite reassemble_concat, sendFileChunks_concat. done.
    + intros k Hk. apply (Hpre k Hk).
Qed.

Lemma chunking_round_trip_witness :
  replicate (Z.to_nat 40000) x2a <> []
  /\ downloads
       (receive_all "b" (sendFileChunks (replicate (Z.to_nat 40000) x2a))
          (acceptFileOffer "f.bin" 40000 "application/octet-stream"
             {| selectedDevice := "b"; fileTransferRef := None; downloads := [] |}))
     = [{| dl_name := "f.bin"; dl_type := "application/octet-stream";
           dl_bytes := replicate (Z.to_nat 40000) x2a |}].
Proof.
  assert (Hne : replicate (Z.to_nat 40000) x2a <> []).
  { intros H. apply (f_equal length) in H. rewrite length_replicate in H.
    simpl in H. lia. }
  split; [exact Hne|].
  destruct (chunking_round_trip (replicate (Z.to_nat 40000) x2a)) as (_ & _ & Hrun).
  destruct (Hrun Hne "f.bin"%string "application/octet-stream"%string
              {| selectedDevice := "b"; fileTransferRef := None; downloads := [] |})
    as [Hall _].
  cbv zeta in Hall. rewrite length_replicate in Hall.
  replace (Z.of_nat (Z.to_nat 40000)) with 40000 in Hall by lia.
  simpl selectedDevice in Hall. rewrite Hall. reflexivity.
Defined.

End ChunkClaims.

(** ** The wait for the answer to a file offer *)

Section Handshake.

Lemma outcomes_resolve_other T t v s :
  t <> T -> outcomes T (resolve t v s) = outcomes T s.
Proof.
  intros Hne. unfold outcomes, resolve. simpl.
  rewrite filter_app, filter_cons, filter_nil. simpl.
  rewrite decide_False by done. by rewrite app_nil_r.
Qed.

Lemma outcomes_resolve_same T v s :
  outcomes T (resolve T v s) = (outcomes T s ++ [v])%list.
Proof.
  unfold outcomes, resolve. simpl.
  rewrite filter_app, filter_cons, filter_nil. simpl.
  rewrite decide_True by done. by rewrite fmap_app.
Qed.

(** Calling a handler that does not belong to [T]: timers and the outcomes
    of [T] stay, the slot either stays or ends up holding a handler that
    does not belong to [T] either, and no [sendFileChunks] is started for
    [T]. *)
Lemma invoke_free T cb q d : forall s,
  mentions T cb = false ->
  let s' := invoke cb q d s in
  timers s' = timers s
  /\ outcomes T s' = outcomes T s
  /\ (onFileTransferCallback s' = onFileTransferCallback s
      \/ mentions T (onFileTransferCallback s') = false)
  /\ (loops_free T s -> loops_free T s').
Proof.
  induction cb as [|n|p t f orig IH]; intros s Hfree; simpl.
  - auto.
  - auto.
  - simpl in Hfree. apply orb_false_iff in Hfree as [Ht Horig].
    apply bool_decide_eq_false in Ht.
    destruct (IH s Horig) as (H1 & H2 & H3 & H4). cbv zeta in *.
    destruct (bool_decide (q = p)); [|done].
    destruct (is_response "file-accepted" t d).
    { simpl. split; [done|]. split; [done|]. split; [by right|].
      intros Hl. unfold loops_free. simpl. apply Forall_app. split; [by apply H4|].
      by repeat constructor. }
    destruct (is_response "file-declined" t d); [|done].
    simpl. rewrite outcomes_resolve_other by done. auto.
Qed.

(** A message for [T] handed to a handler that does not belong to [T] only
    reaches the application's callbacks. *)
Lemma invoke_unmatched T cb q d : forall s,
  mentions T cb = false ->
  ftd_transferId d = Some T ->
  let s' := invoke cb q d s in
  onFileTransferCallback s' = onFileTransferCallback s
  /\ timers s' = timers s
  /\ resolutions s' = resolutions s
  /\ sent s' = sent s
  /\ loops s' = loops s.
Proof.
  induction cb as [|n|p t f orig IH]; intros s Hfree Hid; simpl.
  - auto.
  - auto 6.
  - simpl in Hfree. apply orb_false_iff in Hfree as [Ht Horig].
    apply bool_decide_eq_false in Ht.
    destruct (IH s Horig Hid) as (H1 & H2 & H3 & H4 & H5). cbv zeta in *.
    assert (Hno : forall kind, is_response kind t d = false).
    { intros kind. unfold is_response. rewrite Hid.
      rewrite (bool_decide_eq_false_2 (Some T = Some t)) by congruence.
      apply andb_false_r. }
    rewrite !Hno. by destruct (bool_decide (q = p)).
Qed.

(** A step of a running [sendFileChunks] of another transfer. *)
Lemma loop_step_free T i ok s :
  loops_free T s ->
  let s' := loop_step i ok s in
  onFileTransferCallback s' = onFileTransferCallback s
  /\ timers s' = timers s
  /\ outcomes T s' = outcomes T s
  /\ loops_free T s'.
Proof.
  intros Hfree. cbv zeta. unfold loop_step.
  destruct (loops s !! i) as [l|] eqn:Hl; [|done].
  assert (Hne : loop_transferId l <> T)
    by (exact (proj1 (Forall_lookup _ _) Hfree i l Hl)).
  assert (Hret : forall v,
    let s' := resolve (loop_transferId l) v (set_loops (delete i) s) in
    onFileTransferCallback s' = onFileTransferCallback s
    /\ timers s' = timers s
    /\ outcomes T s' = outcomes T s
    /\ loops_free T s').
  { intros v. cbv zeta. rewrite outcomes_resolve_other by done.
    repeat split; try done. unfold loops_free. simpl. by apply Forall_delete. }
  assert (Hsend : forall chunk rest,
    let s' := send_frames (loop_peerId l) [FBinary chunk]
                (set_loops (<[i := {| loop_peerId := loop_peerId l;
                                      loop_transferId := loop_transferId l;
                                      loop_state := Pausing rest |}]>) s) in
    onFileTransferCallback s' = onFileTransferCallback s
    /\ timers s' = timers s
    /\ outcomes T s' = outcomes T s
    /\ loops_free T s').
  { intros chunk rest. cbv zeta. repeat split; try done.
    unfold loops_free. simpl. by apply Forall_insert. }
  destruct (loop_state l) as [file|[|chunk rest]].
  - destruct ok; [|apply Hret].
    destruct (sendFileChunks (file_bytes file)); [apply Hret | apply Hsend].
  - apply Hret.
  - destruct ok; [apply Hsend | apply Hret].
Qed.

Lemma waiting_after_sendFile p f T now ch s0 :
  readyState ch = RsOpen ->
  fresh T s0 ->
  waiting p T f (sendFile (Some ch) true p f T now s0).
Proof.
  intros Hopen (Hslot & Htm & Hnone & Hout & Hloops). unfold sendFile. rewrite Hopen.
  exists (onFileTransferCallback s0). simpl.
  split; [apply lookup_insert_eq|]. split; [|split; [by left | done]].
  intros t cb Hl. simpl in Hl. destruct (decide (T = t)) as [<-|Hne].
  - rewrite lookup_insert_eq in Hl. by injection Hl as <-.
  - rewrite lookup_insert_ne in Hl by done. by apply (Htm t).
Qed.

Lemma waiting_step p T f e s :
  quiet p T e = true -> waiting p T f s -> waiting p T f (step e s).
Proof.
  intros Hq (orig & Htimer & Htm & Hslot & Hout & Hloops).
  destruct e as [dc ok q f' t now|q d|t|n|i ok]; simpl in *; [done| | | |].
  - (* a message that is not the answer *)
    assert (Horig : mentions T orig = false) by (by apply (Htm T)).
    destruct Hslot as [Hslot | Hslot].
    + rewrite Hslot. simpl.
      destruct (invoke_free T orig q d s Horig) as (H1 & H2 & H3 & H4).
      cbv zeta in *. apply negb_true_iff in Hq.
      destruct (bool_decide (q = p)); simpl in Hq.
      * apply orb_false_iff in Hq as [-> ->].
        exists orig. rewrite H1, H2. repeat split; try done.
        -- intros t' cb'. rewrite H1. apply Htm.
        -- destruct H3 as [-> | H3]; auto.
        -- by apply H4.
      * exists orig. rewrite H1, H2. repeat split; try done.
        -- intros t' cb'. rewrite H1. apply Htm.
        -- destruct H3 as [-> | H3]; auto.
        -- by apply H4.
    + destruct (invoke_free T _ q d s Hslot) as (H1 & H2 & H3 & H4).
      cbv zeta in *.
      exists orig. rewrite H1, H2. repeat split; try done.
      * intros t' cb'. rewrite H1. apply Htm.
      * right. destruct H3 as [-> | H3]; auto.
      * by apply H4.
  - (* the timer of another transfer *)
    apply negb_true_iff, bool_decide_eq_false in Hq.
    destruct (timers s !! t) as [cb|] eqn:Hcb; [|by exists orig].
    exists orig. simpl. rewrite outcomes_resolve_other by done.
    split; [by rewrite lookup_delete_ne|]. split; [|split; [|done]].
    + intros t' cb' Hl. simpl in Hl.
      apply lookup_delete_Some in Hl as [_ Hl]. by apply (Htm t').
    + right. by apply (Htm t).
  - (* the application registers a callback *)
    exists orig. repeat split; try done. by right.
  - (* a step of a running transfer *)
    destruct (loop_step_free T i ok s Hloops) as (H1 & H2 & H3 & H4).
    cbv zeta in *. exists orig. rewrite H1, H2, H3. repeat split; try done.
    intros t' cb'. rewrite H2. apply Htm.
Qed.

Lemma waiting_run p T f es : forall s,
  Forall (fun e => quiet p T e = true) es ->
  waiting p T f s -> waiting p T f (run es s).
Proof.
  induction es as [|e es IH]; intros s Hall Hw; [done|].
  apply Forall_cons in Hall as [He Hes]. simpl.
  apply IH; [done|]. by apply waiting_step.
Qed.

Lemma expired_after_timeout p T f s :
  waiting p T f s ->
  expired T (step (SeTimeout T) s)
  /\ outcomes T (step (SeTimeout T) s) = [false].
Proof.
  intros (orig & Htimer & Htm & Hslot & Hout & Hloops). simpl. rewrite Htimer. split.
  - split; [by apply (Htm T)|]. split; [|split; [apply lookup_delete_eq | done]].
    intros t' cb' Hl. simpl in Hl.
    apply lookup_delete_Some in Hl as [_ Hl]. by apply (Htm t').
  - rewrite outcomes_resolve_same. simpl.
    change (outcomes T (set_callback orig (set_timers (delete T) s)))
      with (outcomes T s). by rewrite Hout.
Qed.

Lemma expired_step T e s :
  other_transfer T e = true ->
  expired T s ->
  expired T (step e s) /\ outcomes T (step e s) = outcomes T s.
Proof.
  intros He (Hslot & Htm & Hnone & Hloops).
  destruct e as [dc ok q f' t now|q d|t|n|i ok]; simpl in *.
  - apply negb_true_iff, bool_decide_eq_false in He.
    unfold sendFile.
    destruct dc as [ch|];
      [destruct (readyState ch); [| destruct ok | |]|];
      try (split; [done | by apply outcomes_resolve_other]).
    simpl. split; [|done]. split; [|split; [|split; [|done]]].
    + simpl. rewrite bool_decide_eq_false_2 by done. done.
    + intros t' cb' Hl. simpl in Hl. destruct (decide (t = t')) as [<-|Hne].
      * rewrite lookup_insert_eq in Hl. by injection Hl as <-.
      * rewrite lookup_insert_ne in Hl by done. by apply (Htm t').
    + simpl. by rewrite lookup_insert_ne.
  - destruct (invoke_free T _ q d s Hslot) as (H1 & H2 & H3 & H4). cbv zeta in *.
    split; [|done]. split; [|split; [|split]].
    + destruct H3 as [-> | H3]; done.
    + intros t' cb'. rewrite H1. apply Htm.
    + by rewrite H1.
    + by apply H4.
  - destruct (timers s !! t) as [cb|] eqn:Hcb; [|done].
    assert (Hne : t <> T) by congruence.
    split; [|by rewrite outcomes_resolve_other].
    split; [by apply (Htm t)|]. split; [|split; [|done]].
    + intros t' cb' Hl. simpl in Hl.
      apply lookup_delete_Some in Hl as [_ Hl]. by apply (Htm t').
    + simpl. by rewrite lookup_delete_ne.
  - done.
  - destruct (loop_step_free T i ok s Hloops) as (H1 & H2 & H3 & H4).
    cbv zeta in *. split; [|done]. split; [by rewrite H1|].
    split; [|split; [by rewrite H2 | done]].
    intros t' cb'. rewrite H2. apply Htm.
Qed.

Lemma expired_run T es : forall s,
  Forall (fun e => other_transfer T e = true) es ->
  expired T s ->
  expired T (run es s) /\ outcomes T (run es s) = outcomes T s.
Proof.
  induction es as [|e es IH]; intros s Hall Hex; [done|].
  apply Forall_cons in Hall as [He Hes]. simpl.
  destruct (expired_step T e s He Hex) as [Hex' Hout'].
  destruct (IH _ Hes Hex') as [Hex'' Hout'']. split; [done | congruence].
Qed.

(** C6 (amended). A file is offered to [p] under a transfer id nothing in
    the sender knows yet.  While the offer waits, no other [sendFile] call
    starts and no accepted or declined message for the id comes from [p];
    then the timer fires.  The promise of the offer has now been resolved
    exactly once, with failure, and it stays so whatever happens later,
    short of the id being reused.  A later message carrying the id, from any
    peer and of any kind, changes neither the slot, the timers, the
    resolutions nor what is sent, and starts no [sendFileChunks]. *)
Theorem timeout_resolves_failed_once (p : string) (f : File) (T : string)
    (now : Z) (ch : RTCDataChannel) (s0 : Sender)
    (window later : list SenderEvent) (q : string) (late : FileTransferData) :
  readyState ch = RsOpen ->
  fresh T s0 ->
  Forall (fun e => quiet p T e = true) window ->
  Forall (fun e => other_transfer T e = true) later ->
  ftd_transferId late = Some T ->
  let s1 := sendFile (Some ch) true p f T now s0 in
  let s2 := step (SeTimeout T) (run window s1) in
  let s3 := run later s2 in
  let s4 := step (SeIncoming q late) s3 in
  outcomes T s2 = [false]
  /\ outcomes T s3 = [false]
  /\ outcomes T s4 = [false]
  /\ resolutions s4 = resolutions s3
  /\ sent s4 = sent s3
  /\ timers s4 = timers s3
  /\ onFileTransferCallback s4 = onFileTransferCallback s3
  /\ loops s4 = loops s3.
Proof.
  intros Hopen Hfresh Hwin Hlater Hid. cbv zeta.
  pose proof (waiting_after_sendFile p f T now ch s0 Hopen Hfresh) as Hw.
  apply (waiting_run p T f window _ Hwin) in Hw.
  destruct (expired_after_timeout p T f _ Hw) as [Hex Hout2].
  destruct (expired_run T later _ Hlater Hex) as [Hex3 Hout3].
  rewrite Hout2 in Hout3.
  destruct Hex3 as (Hslot3 & _ & _).
  set (s3 := run later _) in *.
  destruct (invoke_unmatched T _ q late s3 Hslot3 Hid) as (H1 & H2 & H3 & H4 & H5).
  cbv zeta in *. simpl step.
  repeat split; try done.
  unfold outcomes in *. by rewrite H3.
Qed.

End Handshake.

(** ** Concrete runs of the handshake *)

Lemma app_only_fresh T : fresh T app_only.
Proof.
  split; [done|]. split; [|split; [done|split; [done|]]].
  - intros t cb Hl. simpl in Hl. by rewrite lookup_empty in Hl.
  - unfold loops_free. simpl. constructor.
Qed.

(** Counterexample to C6 as stated: no answer for "t1" came within its
    window and its promise was resolved with failure, yet the timer of the
    overlapping offer "t2" put the handler of "t1" back into the slot, and an
    acceptance of "t1" arriving afterwards starts [sendFileChunks]: the file
    is sent and [resolve] is called a second time. *)
Lemma late_accept_after_overlap_counterexample :
  let s := run overlapping app_only in
  let s' := step (SeIncoming "b" (accepted "t1")) s in
  let s'' := run [SeLoop 0 true; SeLoop 0 true] s' in
  fresh "t1" app_only
  /\ outcomes "t1" s = [false]
  /\ onFileTransferCallback s = SendFileCallback "b" "t1" small_file (AppCallback 0)
  /\ loops s = []
  /\ loops s' = [{| loop_peerId := "b"; loop_transferId := "t1";
                    loop_state := Reading small_file |}]
  /\ sent s'' = (sent s ++ [("b", FBinary [x68; x69])])%list
  /\ outcomes "t1" s'' = [false; true].
Proof.
  cbv zeta. split; [apply app_only_fresh|].
  repeat split; vm_compute; reflexivity.
Qed.

Lemma timeout_resolves_failed_once_witness :
  let window := [SeRegister 1; SeIncoming "b" (accepted "t0")] in
  let later := [SeSendFile (Some open_channel) true "b" small_file "t2" 40;
                SeTimeout "t2"] in
  let s3 := run later
              (step (SeTimeout "t1")
                 (run window
                    (sendFile (Some open_channel) true "b" small_file "t1" 0
                       app_only))) in
  Forall (fun e => quiet "b" "t1" e = true) window
  /\ Forall (fun e => other_transfer "t1" e = true) later
  /\ outcomes "t1" s3 = [false]
  /\ sent (step (SeIncoming "b" (accepted "t1")) s3) = sent s3.
Proof.
  cbv zeta.
  assert (Hw : Forall (fun e => quiet "b" "t1" e = true)
                 [SeRegister 1; SeIncoming "b" (accepted "t0")])
    by (repeat constructor).
  assert (Hl : Forall (fun e => other_transfer "t1" e = true)
                 [SeSendFile (Some open_channel) true "b" small_file "t2" 40;
                  SeTimeout "t2"])
    by (repeat constructor).
  split; [exact Hw|]. split; [exact Hl|].
  destruct (timeout_resolves_failed_once "b" small_file "t1" 0 open_channel
              app_only _ _ "b" (accepted "t1") eq_refl (app_only_fresh "t1")
              Hw Hl eq_refl) as (_ & H3 & _ & _ & H5 & _).
  split; [exact H3 | exact H5].
Defined.

(** * Part IV: further properties of the code *)

(** ** Which peer an operation touches *)

Section Confinement.

Variable E : Engine.
Variable now : Z.
Variable ok : Event -> Prop.
Variable wc : bool.
Variable me P : string.

Lemma confined_refl m : confined ok wc P m m.
Proof.
  repeat split; try done. exists []. split; [by rewrite app_nil_r | constructor].
Qed.

Lemma confined_trans m1 m2 m3 :
  confined ok wc P m1 m2 -> confined ok wc P m2 m3 -> confined ok wc P m1 m3.
Proof.
  intros (A1 & A2 & A3 & A4 & A5 & e1 & A6 & A7)
         (B1 & B2 & B3 & B4 & B5 & e2 & B6 & B7).
  split; [congruence|]. split; [intros k Hk; by rewrite B2, A2|].
  split; [intros k Hk; by rewrite B3, A3|].
  split; [intros k Hk; by rewrite B4, A4|].
  split; [intros k Hk; by rewrite B5, A5|].
  exists (e1 ++ e2)%list. split; [by rewrite B6, A6, app_assoc|].
  by apply Forall_app.
Qed.

Lemma confined_emit e m : ok e -> confined ok wc P m (emit e m).
Proof.
  intros He. repeat split; try done. exists [e]. split; [done|].
  by repeat constructor.
Qed.

Lemma confined_set_pc f m :
  (forall k, k <> P -> f (peerConnections m) !! k = peerConnections m !! k) ->
  confined ok wc P m (set_peerConnections f m).
Proof.
  intros Hf. repeat split; try done. exists []. split; [by rewrite app_nil_r | constructor].
Qed.

Lemma confined_set_buffer f m :
  (forall k, k <> P -> f (iceCandidatesBuffer m) !! k = iceCandidatesBuffer m !! k) ->
  confined ok wc P m (set_iceCandidatesBuffer f m).
Proof.
  intros Hf. repeat split; try done. exists []. split; [by rewrite app_nil_r | constructor].
Qed.

Lemma confined_insert_pc ses m :
  confined ok wc P m (set_peerConnections (<[P := ses]>) m).
Proof. apply confined_set_pc. intros k Hk. by rewrite lookup_insert_ne. Qed.

Lemma confined_close_and_delete m :
  ok (EvClose P) -> confined ok wc P m (close_and_delete P m).
Proof.
  intros Hok. unfold close_and_delete.
  eapply confined_trans; [by apply confined_emit|].
  apply confined_set_pc. intros k Hk. simpl. by rewrite lookup_delete_ne.
Qed.

Lemma confined_create_responder m :
  ok (EvNew P false) -> confined ok wc P m (create_fresh P false m).
Proof.
  intros Hok. unfold create_fresh.
  eapply confined_trans; [by apply confined_emit|]. apply confined_insert_pc.
Qed.

Lemma op_confined_bind {A B} (c : Op A) (k : A -> Op B) :
  op_confined ok wc me P c ->
  (forall a, op_confined ok wc me P (k a)) ->
  op_confined ok wc me P (bind c k).
Proof.
  intros Hc Hk m Hm. unfold bind. specialize (Hc m Hm).
  destruct (c m) as [[a|] m1]; simpl in *; [|done].
  eapply confined_trans; [exact Hc|]. apply Hk.
  destruct Hc as (Hid & _). congruence.
Qed.

Lemma op_confined_modify f :
  (forall m, myDeviceId m = me -> confined ok wc P m (f m)) ->
  op_confined ok wc me P (modify f).
Proof. intros Hf m Hm. simpl. by apply Hf. Qed.

Lemma op_confined_createOffer :
  ok (EvCreateOffer P) -> op_confined ok wc me P (pc_createOffer E P).
Proof.
  intros Hok m Hm. unfold pc_createOffer, with_pc.
  destruct (peerConnections m !! P); simpl; [by apply confined_emit | apply confined_refl].
Qed.

Lemma op_confined_createAnswer :
  ok (EvCreateAnswer P) -> op_confined ok wc me P (pc_createAnswer E P).
Proof.
  intros Hok m Hm. unfold pc_createAnswer, with_pc.
  destruct (peerConnections m !! P); simpl; [by apply confined_emit | apply confined_refl].
Qed.

Lemma op_confined_setLocal d :
  ok (EvSetLocalDescription P d) ->
  op_confined ok wc me P (pc_setLocalDescription E P d).
Proof.
  intros Hok m Hm. unfold pc_setLocalDescription, with_pc.
  destruct (peerConnections m !! P) as [ses|]; simpl; [|apply confined_refl].
  destruct (eng_setLocalDescription E (pc ses) d); simpl.
  - eapply confined_trans; [by apply confined_emit|]. apply confined_insert_pc.
  - by apply confined_emit.
Qed.

Lemma op_confined_setRemote d :
  ok (EvSetRemoteDescription P d) ->
  op_confined ok wc me P (pc_setRemoteDescription E P d).
Proof.
  intros Hok m Hm. unfold pc_setRemoteDescription, with_pc.
  destruct (peerConnections m !! P) as [ses|]; simpl; [|apply confined_refl].
  destruct (eng_setRemoteDescription E (pc ses) d); simpl.
  - eapply confined_trans; [by apply confined_emit|]. apply confined_insert_pc.
  - by apply confined_emit.
Qed.

Lemma op_confined_sendSignal ty d :
  ok (EvPush P (mkSignal now me ty d)) ->
  op_confined ok wc me P (sendSignal E now P ty d).
Proof.
  intros Hok m Hm. unfold sendSignal. rewrite Hm.
  destruct (eng_push E P _); simpl; [by apply confined_emit | apply confined_refl].
Qed.

Lemma confined_add_buffered c m :
  ok (EvAddIceCandidate P c) -> confined ok wc P m (add_buffered E P c m).
Proof.
  intros Hok. unfold add_buffered.
  destruct (peerConnections m !! P) as [ses|]; [|apply confined_refl].
  destruct (eng_addIceCandidate E (pc ses) c).
  - eapply confined_trans; [by apply confined_emit|]. apply confined_insert_pc.
  - by apply confined_emit.
Qed.

Lemma confined_flush_loop (l : list IceCandidateInit) : forall m,
  (forall c, ok (EvAddIceCandidate P c)) ->
  confined ok wc P m (foldl (fun acc c => add_buffered E P c acc) m l).
Proof.
  induction l as [|x l IH]; intros m Hok; simpl.
  - apply confined_refl.
  - eapply confined_trans; [by apply confined_add_buffered|]. by apply IH.
Qed.

Lemma confined_flush m :
  (forall c, ok (EvAddIceCandidate P c)) ->
  confined ok wc P m (flushIceCandidates E P m).
Proof.
  intros Hok. unfold flushIceCandidates.
  destruct (peerConnections m !! P); [|apply confined_refl].
  destruct (iceCandidatesBuffer m !! P) as [[|c cands]|]; try apply confined_refl.
  eapply confined_trans; [by apply confined_flush_loop|].
  apply confined_set_buffer. intros k Hk. by rewrite lookup_delete_ne.
Qed.

End Confinement.

Section KeepsToPeer.

Variable E : Engine.
Variable now : Z.

Lemma createPeerConnection_responder_confined me P m :
  confined (responder_call me P) false P m (createPeerConnection P false m).
Proof.
  unfold createPeerConnection.
  destruct (peerConnections m !! P) as [ses|];
    [|by apply confined_create_responder].
  destruct (is_connected_or_connecting _); [apply confined_refl|].
  destruct (is_bad_state _).
  { eapply confined_trans; [by apply confined_close_and_delete|].
    by apply confined_create_responder. }
  destruct (_ && _); [apply confined_refl|].
  eapply confined_trans; [by apply confined_close_and_delete|].
  by apply confined_create_responder.
Qed.

Lemma answer_body_confined me P offer :
  op_confined (responder_call me P) false me P (answer_body E now P offer).
Proof.
  unfold answer_body.
  apply op_confined_bind; [by apply op_confined_setRemote|]. intros _.
  apply op_confined_bind.
  { apply op_confined_modify. intros m _. by apply confined_flush. }
  intros _. apply op_confined_bind; [by apply op_confined_createAnswer|].
  intros answer. apply op_confined_bind; [by apply op_confined_setLocal|].
  intros _. by apply op_confined_sendSignal.
Qed.

Lemma accept_offer_confined P offer m :
  confined (responder_call (myDeviceId m) P) false P m
    (try_catch (bind (modify (createPeerConnection P false))
                  (fun _ => answer_body E now P offer)) m).
Proof.
  unfold try_catch.
  apply (op_confined_bind (responder_call (myDeviceId m) P) false (myDeviceId m) P);
    [|intros _; apply answer_body_confined|done].
  apply op_confined_modify. intros m0 _.
  apply createPeerConnection_responder_confined.
Qed.

Lemma handleOffer_confined P offer m :
  confined (responder_call (myDeviceId m) P) false P m (handleOffer E now P offer m).
Proof.
  unfold handleOffer.
  destruct (peerConnections m !! P) as [ses|]; [|apply accept_offer_confined].
  destruct (is_stable _); [apply accept_offer_confined|].
  destruct (is_have_remote_offer _); [apply confined_refl|].
  destruct (is_have_local_offer _).
  - destruct (js_lt _ _); [apply accept_offer_confined | apply confined_refl].
  - unfold try_catch. by apply answer_body_confined.
Qed.

Lemma handleAnswer_confined P answer m :
  confined (responder_call (myDeviceId m) P) false P m (handleAnswer E P answer m).
Proof.
  unfold handleAnswer.
  destruct (peerConnections m !! P) as [ses|]; [|apply confined_refl].
  unfold try_catch.
  apply (op_confined_bind (responder_call (myDeviceId m) P) false (myDeviceId m) P);
    [by apply op_confined_setRemote| |done].
  intros _. apply op_confined_modify. intros m0 _. by apply confined_flush.
Qed.

Lemma handleIceCandidate_confined P p m :
  confined (responder_call (myDeviceId m) P) false P m (handleIceCandidate E P p m).
Proof.
  unfold handleIceCandidate.
  destruct (peerConnections m !! P) as [ses|]; [|apply confined_refl].
  destruct (usable_candidate p) as [c|]; [|apply confined_refl].
  destruct (remoteDescription (pc ses)).
  - by apply confined_add_buffered.
  - apply confined_set_buffer. intros k Hk. by rewrite lookup_insert_ne.
Qed.

Lemma handleSignal_confined (s : SignalData) (m : Manager) :
  confined (responder_call (myDeviceId m) (from s)) false (from s) m
    (handleSignal E now s m).
Proof.
  unfold handleSignal.
  destruct (decide (type s = "offer")).
  { destruct (peerConnections m !! from s) as [ses|]; [|apply handleOffer_confined].
    destruct (_ || _); [apply confined_refl | apply handleOffer_confined]. }
  destruct (decide (type s = "answer")).
  { destruct (peerConnections m !! from s) as [ses|]; [|apply confined_refl].
    destruct (is_have_local_offer _); [apply handleAnswer_confined | apply confined_refl]. }
  destruct (decide (type s = "ice-candidate")); [|apply confined_refl].
  destruct (peerConnections m !! from s); [|apply confined_refl].
  apply handleIceCandidate_confined.
Qed.

(** X1. Whatever envelope arrives and whatever the engine answers,
    [handleSignal] keeps to the sender: the manager's id, both channel tables
    and the sessions and candidate buffers of all other peers are left as
    they were, every call it makes is a call on the sender's connection, it
    never creates an offer, a data channel or an initiator connection, and
    the only thing it publishes is an answer of its own addressed to the
    sender.  (The calls are those of the operation itself; what the engine
    reports later through [onicecandidate] and [ondatachannel] is handled by
    those callbacks.) *)
Theorem handleSignal_keeps_to_sender (s : SignalData) (m : Manager) :
  let m' := handleSignal E now s m in
  myDeviceId m' = myDeviceId m
  /\ dataChannels m' = dataChannels m
  /\ connectionStates m' = connectionStates m
  /\ (forall k, k <> from s ->
        peerConnections m' !! k = peerConnections m !! k
        /\ iceCandidatesBuffer m' !! k = iceCandidatesBuffer m !! k)
  /\ exists evs, trace m' = (trace m ++ evs)%list
                 /\ Forall (responder_call (myDeviceId m) (from s)) evs.
Proof.
  destruct (handleSignal_confined s m) as (Hid & Hpc & Hdc & Hcs & Hbuf & Hev).
  cbv zeta. split; [done|].
  split; [apply map_eq; intros k; apply Hdc; by left|].
  split; [apply map_eq; intros k; apply Hcs; by left|].
  split; [|done]. intros k Hk. split; [by apply Hpc | by apply Hbuf].
Qed.

Lemma createPeerConnection_initiator_confined me P m :
  confined (initiator_call me P) true P m (createPeerConnection P true m).
Proof.
  assert (Hfresh : forall m0, confined (initiator_call me P) true P m0
                                (create_fresh P true m0)).
  { intros m0. unfold create_fresh, setupDataChannel.
    split; [done|]. split; [intros k Hk; simpl; by rewrite lookup_insert_ne|].
    split; [intros k [?|Hk]; [done | simpl; by rewrite lookup_insert_ne]|].
    split; [intros k [?|Hk]; [done | simpl; by rewrite lookup_insert_ne]|].
    split; [done|].
    exists [EvNew P true; EvCreateDataChannel P]. split.
    - simpl. by rewrite <- app_assoc.
    - by repeat constructor. }
  unfold createPeerConnection.
  destruct (peerConnections m !! P) as [ses|]; [|apply Hfresh].
  destruct (is_connected_or_connecting _); [apply confined_refl|].
  destruct (is_bad_state _).
  { eapply confined_trans; [by apply confined_close_and_delete | apply Hfresh]. }
  destruct (_ && _); [apply confined_refl|].
  eapply confined_trans; [by apply confined_close_and_delete | apply Hfresh].
Qed.

Lemma connectToPeer_confined (P : string) (m : Manager) :
  confined (initiator_call (myDeviceId m) P) true P m (connectToPeer E now P m).
Proof.
  assert (Hbody : confined (initiator_call (myDeviceId m) P) true P m
                    (try_catch (connect_body E now P) m)).
  { unfold try_catch, connect_body.
    apply (op_confined_bind (initiator_call (myDeviceId m) P) true (myDeviceId m) P);
      [| |done].
    - apply op_confined_modify. intros m0 _.
      apply createPeerConnection_initiator_confined.
    - intros _. apply op_confined_bind; [by apply op_confined_createOffer|].
      intros offer. apply op_confined_bind; [by apply op_confined_setLocal|].
      intros _. by apply op_confined_sendSignal. }
  unfold connectToPeer.
  destruct (js_ge _ _); [apply confined_refl|].
  destruct (peerConnections m !! P) as [ses|]; [|exact Hbody].
  destruct (is_connected_or_connecting _); [apply confined_refl|].
  destruct (is_have_remote_offer _); [apply confined_refl|].
  destruct (is_have_local_offer _); [apply confined_refl | exact Hbody].
Qed.

(** X2. Whatever the engine answers, [connectToPeer] keeps to the peer it is
    given: the manager's id and the sessions, channels, connection states and
    candidate buffers of all other peers are left as they were, it never
    applies a remote description or a candidate and never creates an answer,
    every connection it creates is an initiator, and the only thing it
    publishes is an offer of its own addressed to that peer.  (Candidates
    the engine reports later are published by [onicecandidate], not by this
    operation.) *)
Theorem connectToPeer_keeps_to_peer (P : string) (m : Manager) :
  let m' := connectToPeer E now P m in
  myDeviceId m' = myDeviceId m
  /\ (forall k, k <> P ->
        peerConnections m' !! k = peerConnections m !! k
        /\ dataChannels m' !! k = dataChannels m !! k
        /\ connectionStates m' !! k = connectionStates m !! k
        /\ iceCandidatesBuffer m' !! k = iceCandidatesBuffer m !! k)
  /\ exists evs, trace m' = (trace m ++ evs)%list
                 /\ Forall (initiator_call (myDeviceId m) P) evs.
Proof.
  destruct (connectToPeer_confined P m) as (Hid & Hpc & Hdc & Hcs & Hbuf & Hev).
  cbv zeta. split; [done|]. split; [|done]. intros k Hk.
  split; [by apply Hpc|]. split; [apply Hdc; by right|].
  split; [apply Hcs; by right | by apply Hbuf].
Qed.

End KeepsToPeer.

(** ** Envelopes that are dropped, attempts that fail *)

Section Edges.

Variable E : Engine.
Variable now : Z.

(** X3. Envelopes that change nothing and cause no call: those of a type
    other than offer, answer and ice-candidate; answers and candidates from
    a peer that has no session; offers and answers from a peer whose own
    offer is still unanswered (a duplicate offer, or an answer nobody asked
    for). *)
Theorem handleSignal_drops (s : SignalData) (m : Manager) :
  (type s <> "offer" -> type s <> "answer" -> type s <> "ice-candidate" ->
     handleSignal E now s m = m)
  /\ (type s <> "offer" -> peerConnections m !! from s = None ->
        handleSignal E now s m = m)
  /\ (forall ses,
        peerConnections m !! from s = Some ses ->
        signalingState (pc ses) = HaveRemoteOffer ->
        type s = "offer" \/ type s = "answer" ->
        handleSignal E now s m = m).
Proof.
  split; [|split].
  - intros H1 H2 H3. unfold handleSignal. by rewrite !decide_False.
  - intros H1 Hs. unfold handleSignal. rewrite decide_False by done. rewrite Hs.
    by repeat case_decide.
  - intros ses Hs Hsig [Hty | Hty]; unfold handleSignal, handleOffer;
      rewrite Hty, Hs, Hsig; simpl; [by destruct (is_connected _) | done].
Qed.

Lemma create_fresh_trace P init m :
  trace (create_fresh P init m) = (trace m ++ creation_calls P init)%list.
Proof. unfold create_fresh. destruct init; simpl; by rewrite <- ?app_assoc. Qed.

(** X4. After [createPeerConnection] the peer has a session, and asking
    again, for either role, gives the same manager back: there is never more
    than one connection per peer.  A usable existing session (connected,
    connecting, or new and stable) is handed back with the role it has and
    without any call; otherwise a fresh connection of the requested role
    takes its place, and when there was a session before, it is closed
    before the new one is created. *)
Theorem createPeerConnection_one_session (P : string) (init : bool) (m : Manager) :
  let m' := createPeerConnection P init m in
  is_Some (peerConnections m' !! P)
  /\ (forall init', createPeerConnection P init' m' = m')
  /\ (forall ses, peerConnections m !! P = Some ses -> reusable ses = true ->
        m' = m)
  /\ (forall ses, peerConnections m !! P = Some ses -> reusable ses = false ->
        peerConnections m' !! P = Some (new_session init)
        /\ new_events m m' = EvClose P :: creation_calls P init)
  /\ (peerConnections m !! P = None ->
        peerConnections m' !! P = Some (new_session init)
        /\ new_events m m' = creation_calls P init).
Proof.
  cbv zeta.
  destruct (peerConnections m !! P) as [ses|] eqn:Hs.
  - destruct (reusable ses) eqn:Hr.
    + rewrite (createPeerConnection_reuse P init m ses Hs Hr).
      split; [by rewrite Hs|]. split.
      { intros init'. by apply (createPeerConnection_reuse P init' m ses). }
      split; [done|]. split; [|done]. intros ses' [= <-]. congruence.
    + rewrite (createPeerConnection_replace P init m ses Hs Hr).
      destruct (create_fresh_session P init (close_and_delete P m)) as (Hf & _).
      split; [by rewrite Hf|]. split.
      { intros init'. by apply (createPeerConnection_reuse P init' _ _ Hf). }
      split; [intros ses' [= <-]; congruence|]. split; [|done].
      intros _ _ _. split; [exact Hf|].
      apply new_events_app. rewrite create_fresh_trace. simpl.
      by rewrite <- app_assoc.
  - rewrite (createPeerConnection_absent P init m Hs).
    destruct (create_fresh_session P init m) as (Hf & _).
    split; [by rewrite Hf|]. split.
    { intros init'. by apply (createPeerConnection_reuse P init' _ _ Hf). }
    split; [done|]. split; [done|]. intros _. split; [exact Hf|].
    apply new_events_app. apply create_fresh_trace.
Qed.

(** X5. When the engine refuses to create the offer, [connectToPeer] stops
    there, but what it did before stays: the peer now has a new initiator
    session with a data channel registered as connecting, and nothing was
    published.  A later [connectToPeer], on any engine, reuses that session:
    it goes straight to creating an offer, without creating or closing a
    connection. *)
Theorem connectToPeer_refused_offer_stays (P : string) (m : Manager) :
  js_lt (myDeviceId m) P = true ->
  peerConnections m !! P = None ->
  eng_createOffer E new_RTCPeerConnection = None ->
  let m' := connectToPeer E now P m in
  peerConnections m' !! P = Some (new_session true)
  /\ dataChannels m' !! P = Some {| readyState := RsConnecting |}
  /\ connectionStates m' !! P = Some "connecting"
  /\ new_events m m' = [EvNew P true; EvCreateDataChannel P; EvCreateOffer P]
  /\ forall E' now', exists rest,
       new_events m' (connectToPeer E' now' P m') = EvCreateOffer P :: rest.
Proof.
  intros Hlt Hs Hrej. cbv zeta.
  assert (Hm' : connectToPeer E now P m
                = emit (EvCreateOffer P) (create_fresh P true m)).
  { rewrite connectToPeer_proceeds; [|done|intros ses; congruence].
    unfold connect_body. simpl.
    rewrite (createPeerConnection_absent P true m Hs).
    destruct (create_fresh_session P true m) as (Hf & _).
    rewrite (pc_createOffer_run E _ _ _ Hf). simpl. by rewrite Hrej. }
  rewrite Hm'.
  assert (Hf : peerConnections (emit (EvCreateOffer P) (create_fresh P true m)) !! P
               = Some (new_session true)) by (simpl; apply lookup_insert_eq).
  split; [exact Hf|]. split; [simpl; apply lookup_insert_eq|].
  split; [simpl; apply lookup_insert_eq|]. split.
  - apply new_events_app. simpl. by rewrite <- !app_assoc.
  - intros E' now'. set (m1 := emit _ _) in *.
    rewrite connectToPeer_proceeds; [| done |].
    2:{ intros ses Hses [Hb | [Hb | Hb]]; rewrite Hf in Hses;
          injection Hses as <-; discriminate. }
    assert (Hc : createPeerConnection P true m1 = m1)
      by (by apply (createPeerConnection_reuse P true m1 (new_session true))).
    destruct (connect_body_from E' now' P m1 [] (new_session true)) as [Hst _].
    { by rewrite Hc, app_nil_r. }
    { by rewrite Hc. }
    exact Hst.
Qed.

(** X6. When the offer was created and set, so that the engine reports
    [have-local-offer], but the transport fails to publish it, the session
    stays in that state with nothing published; every later [connectToPeer]
    for the peer then returns at once, on any engine, so the offer is never
    published by a retry. *)
Theorem connectToPeer_unpublished_offer_blocks (P : string) (m : Manager)
    (offer : Description) (pc1 : RTCPeerConnection) :
  js_lt (myDeviceId m) P = true ->
  peerConnections m !! P = None ->
  eng_createOffer E new_RTCPeerConnection = Some offer ->
  eng_setLocalDescription E new_RTCPeerConnection offer = Some pc1 ->
  signalingState pc1 = HaveLocalOffer ->
  eng_push E P (mkSignal now (myDeviceId m) "offer" (plain offer)) = false ->
  let m' := connectToPeer E now P m in
  peerConnections m' !! P = Some {| pc := pc1; initiator := true |}
  /\ new_events m m'
     = [EvNew P true; EvCreateDataChannel P; EvCreateOffer P;
        EvSetLocalDescription P offer]
  /\ forall E' now', connectToPeer E' now' P m' = m'.
Proof.
  intros Hlt Hs Hoff Hloc Hsig Hpush. cbv zeta.
  assert (Hm' : connectToPeer E now P m
                = set_peerConnections (<[P := {| pc := pc1; initiator := true |}]>)
                    (emit (EvSetLocalDescription P offer)
                       (emit (EvCreateOffer P) (create_fresh P true m)))).
  { rewrite connectToPeer_proceeds; [|done|intros ses; congruence].
    unfold connect_body. simpl.
    rewrite (createPeerConnection_absent P true m Hs).
    destruct (create_fresh_session P true m) as (Hf & Hme & _).
    rewrite (pc_createOffer_run E _ _ _ Hf). simpl. rewrite Hoff.
    erewrite pc_setLocalDescription_run by (simpl; exact Hf).
    simpl. rewrite Hloc. unfold sendSignal. simpl. rewrite ?Hme, Hpush. done. }
  rewrite Hm'. split; [simpl; apply lookup_insert_eq|]. split.
  - apply new_events_app. simpl. by rewrite <- !app_assoc.
  - intros E' now'. unfold connectToPeer. simpl. rewrite lookup_insert_eq. simpl.
    rewrite Hsig. simpl.
    by destruct (js_ge _ _), (is_connected_or_connecting (connectionState pc1)).
Qed.

Lemma kept_by_cleanup (m : Manager) (k : string) (ses : Session) :
  peerConnections m !! k = Some ses ->
  is_bad_state (connectionState (pc ses)) = false ->
  peerConnections (cleanupConnections m) !! k = Some ses.
Proof.
  intros Hs Hb. unfold cleanupConnections.
  destruct (cleanup_fold (map_to_list (peerConnections m)) m) as (H1 & _).
  cbv zeta in H1. rewrite H1.
  destruct (existsb _ _) eqn:Hex; [|done].
  apply swept_in_table in Hex as (ses' & Hs' & Hb'). congruence.
Qed.

(** X7. When the engine rejects the offer of a peer that had no session, the
    responder session created for it stays behind, new and stable.  From
    then on every offer of that peer is dropped, on any engine, however
    well-formed it is, and the periodic sweep does not remove the session. *)
Theorem rejected_offer_blocks_later_offers (s : SignalData) (m : Manager) :
  type s = "offer" ->
  peerConnections m !! from s = None ->
  eng_setRemoteDescription E new_RTCPeerConnection (data s) = None ->
  let m1 := handleSignal E now s m in
  peerConnections m1 !! from s = Some (new_session false)
  /\ new_events m m1
     = [EvNew (from s) false; EvSetRemoteDescription (from s) (data s)]
  /\ (forall E' now' s',
        type s' = "offer" -> from s' = from s -> handleSignal E' now' s' m1 = m1)
  /\ peerConnections (cleanupConnections m1) !! from s = Some (new_session false).
Proof.
  intros Hty Hs Hrej. cbv zeta.
  assert (Hm1 : handleSignal E now s m
                = emit (EvSetRemoteDescription (from s) (data s))
                    (create_fresh (from s) false m)).
  { rewrite (handleSignal_offer_absent E now s m Hty Hs).
    destruct (create_fresh_session (from s) false m) as (Hf & _).
    unfold answer_body. simpl.
    rewrite (pc_setRemoteDescription_run E _ _ _ _ Hf). simpl. by rewrite Hrej. }
  rewrite Hm1. set (m1 := emit _ _).
  assert (Hf : peerConnections m1 !! from s = Some (new_session false))
    by (simpl; apply lookup_insert_eq).
  split; [exact Hf|]. split; [|split].
  - apply new_events_app. simpl. by rewrite <- !app_assoc.
  - intros E' now' s' Hty' Hfrom. unfold handleSignal.
    rewrite Hty', Hfrom, Hf. done.
  - by apply kept_by_cleanup.
Qed.

(** X8. Candidates and the remote description.  While the session has no
    remote description, any run of arriving candidates makes no call at all:
    the usable ones are appended to the peer's buffer in order of arrival,
    the others are skipped, and the session is not touched.  Once a remote
    description is set, a usable candidate goes to the engine at once and the
    buffer is left alone; if the engine rejects it, the failed call is all
    that happened. *)
Theorem candidates_before_and_after_description (P : string) (ses : Session)
    (m : Manager) :
  peerConnections m !! P = Some ses ->
  (remoteDescription (pc ses) = None ->
   forall ps,
     let m' := receive_candidates E P ps m in
     iceCandidatesBuffer m' !! P
       = (if omap usable_candidate ps is [] then iceCandidatesBuffer m !! P
          else Some (default [] (iceCandidatesBuffer m !! P)
                     ++ omap usable_candidate ps)%list)
     /\ new_events m m' = []
     /\ peerConnections m' = peerConnections m)
  /\ (forall d p c,
        remoteDescription (pc ses) = Some d ->
        usable_candidate p = Some c ->
        let m' := handleIceCandidate E P p m in
        new_events m m' = [EvAddIceCandidate P c]
        /\ iceCandidatesBuffer m' = iceCandidatesBuffer m
        /\ (eng_addIceCandidate E (pc ses) c = None ->
              m' = emit (EvAddIceCandidate P c) m)).
Proof.
  intros Hs. split.
  - intros Hrd ps. cbv zeta. unfold receive_candidates.
    revert m Hs. induction ps as [|p ps IH]; intros m Hs.
    { simpl. split; [done|]. split; [apply new_events_same | done]. }
    cbn [foldl].
    change (omap usable_candidate (p :: ps))
      with (match usable_candidate p with
            | Some y => y :: omap usable_candidate ps
            | None => omap usable_candidate ps
            end).
    unfold handleIceCandidate at 2 4 6. rewrite Hs.
    destruct (usable_candidate p) as [c|] eqn:Hc; [|by apply IH].
    rewrite Hrd.
    set (m1 := set_iceCandidatesBuffer _ m).
    destruct (IH m1) as (H1 & H2 & H3); [done|].
    split; [|split].
    + rewrite H1. subst m1. cbn [iceCandidatesBuffer set_iceCandidatesBuffer].
      rewrite lookup_insert_eq. cbn [default from_option].
      destruct (omap usable_candidate ps); [done|]. simpl. by rewrite <- app_assoc.
    + unfold new_events in *. exact H2.
    + rewrite H3. done.
  - intros d p c Hrd Hc. cbv zeta. unfold handleIceCandidate. rewrite Hs, Hc, Hrd.
    unfold add_buffered. rewrite Hs.
    destruct (eng_addIceCandidate E (pc ses) c); simpl.
    + split; [by apply new_events_app|]. done.
    + split; [by apply new_events_app|]. done.
Qed.

End Edges.

Lemma cleanup_fold_nothing (l : list (string * Session)) : forall m,
  Forall (fun e => is_bad_state (connectionState (pc e.2)) = false) l ->
  foldl cleanup_entry m l = m.
Proof.
  induction l as [|e l IH]; intros m Hall; [done|].
  apply Forall_cons in Hall as [He Hl]. simpl. unfold cleanup_entry at 2.
  rewrite He. by apply IH.
Qed.

Lemma cleanup_without_bad (m : Manager) :
  (forall k, ~ bad_session m k) -> cleanupConnections m = m.
Proof.
  intros Hnone. unfold cleanupConnections. apply cleanup_fold_nothing.
  apply Forall_forall. intros [k ses] Hin. simpl.
  apply elem_of_map_to_list in Hin.
  destruct (is_bad_state _) eqn:Hb; [|done]. destruct (Hnone k). by exists ses.
Qed.

(** X9. The sweep is idempotent: a second sweep right after the first one
    closes nothing and changes nothing. *)
Theorem cleanupConnections_idempotent (m : Manager) :
  cleanupConnections (cleanupConnections m) = cleanupConnections m.
Proof.
  apply cleanup_without_bad. intros k (ses & Hs & Hb).
  unfold cleanupConnections in Hs.
  destruct (cleanup_fold (map_to_list (peerConnections m)) m) as (H1 & _).
  cbv zeta in H1. rewrite H1 in Hs.
  destruct (existsb _ _) eqn:Hex; [done|].
  assert (Hbad : bad_session m k) by (by exists ses).
  apply swept_in_table in Hbad. congruence.
Qed.

(** ** A whole negotiation *)

(** X10. Two managers that have not met, ids [a] less than [b], on an
    engine that follows the standard offer/answer machine.  [b] does not
    initiate.  [a] connects and publishes exactly one offer, addressed to
    [b]; [b], given that envelope, creates a responder session and publishes
    exactly one answer, addressed to [a]; [a], given that envelope, applies
    it.  Both sessions are then stable, each holding the other side's
    description, [a] as initiator and [b] as responder, and the three
    operations published nothing else. *)
Theorem negotiation_completes (a b : string) (now : Z) :
  js_lt a b = true ->
  let offer0 := {| d_type := "offer"; d_sdp := "v=0" |} in
  let answer0 := {| d_type := "answer"; d_sdp := "v=0" |} in
  let the_offer := mkSignal now a "offer" (plain offer0) in
  let the_answer := mkSignal now b "answer" (plain answer0) in
  let A1 := connectToPeer accepting_engine now b (fresh_manager a) in
  let B1 := handleSignal accepting_engine now the_offer (fresh_manager b) in
  let A2 := handleSignal accepting_engine now the_answer A1 in
  connectToPeer accepting_engine now a (fresh_manager b) = fresh_manager b
  /\ published A1 = [(b, the_offer)]
  /\ published B1 = [(a, the_answer)]
  /\ published A2 = [(b, the_offer)]
  /\ peerConnections A2 !! b = Some (negotiated (plain answer0) true)
  /\ peerConnections B1 !! a = Some (negotiated (plain offer0) false).
Proof.
  intros Hlt. cbv zeta.
  assert (Hge : js_ge a b = false) by (unfold js_ge; unfold js_lt in Hlt; by rewrite Hlt).
  assert (Hge' : js_ge b a = true).
  { unfold js_ge. apply js_lt_asym in Hlt. unfold js_lt in Hlt. by rewrite Hlt. }
  assert (HA1 : connectToPeer accepting_engine now b (fresh_manager a)
    = {| myDeviceId := a;
         peerConnections := {[ b := offering CsNew ]};
         dataChannels := {[ b := {| readyState := RsConnecting |} ]};
         connectionStates := {[ b := "connecting" ]};
         iceCandidatesBuffer := ∅;
         trace := [EvNew b true; EvCreateDataChannel b; EvCreateOffer b;
                   EvSetLocalDescription b {| d_type := "offer"; d_sdp := "v=0" |};
                   EvPush b (mkSignal now a "offer"
                               (plain {| d_type := "offer"; d_sdp := "v=0" |}))] |}).
  { unfold connectToPeer. simpl. rewrite Hge, lookup_empty.
    unfold try_catch, connect_body, createPeerConnection. simpl.
    rewrite lookup_empty. unfold create_fresh, pc_createOffer, with_pc. simpl.
    rewrite lookup_insert_eq. simpl.
    unfold pc_setLocalDescription, with_pc. simpl. rewrite lookup_insert_eq. simpl.
    cbv [emit set_peerConnections setupDataChannel set_connectionStates
         set_dataChannels fresh_manager myDeviceId peerConnections dataChannels
         connectionStates iceCandidatesBuffer trace app].
    rewrite insert_insert_eq, !insert_empty. reflexivity. }
  assert (HB1 : handleSignal accepting_engine now
                  (mkSignal now a "offer" (plain {| d_type := "offer"; d_sdp := "v=0" |}))
                  (fresh_manager b)
    = {| myDeviceId := b;
         peerConnections :=
           {[ a := negotiated (plain {| d_type := "offer"; d_sdp := "v=0" |}) false ]};
         dataChannels := ∅; connectionStates := ∅; iceCandidatesBuffer := ∅;
         trace := [EvNew a false;
                   EvSetRemoteDescription a (plain {| d_type := "offer"; d_sdp := "v=0" |});
                   EvCreateAnswer a;
                   EvSetLocalDescription a {| d_type := "answer"; d_sdp := "v=0" |};
                   EvPush a (mkSignal now b "answer"
                               (plain {| d_type := "answer"; d_sdp := "v=0" |}))] |}).
  { unfold handleSignal, handleOffer. simpl. rewrite lookup_empty.
    unfold try_catch, createPeerConnection. simpl. rewrite lookup_empty.
    unfold answer_body, create_fresh, pc_setRemoteDescription, with_pc. simpl.
    rewrite lookup_insert_eq. simpl.
    unfold flushIceCandidates. simpl. rewrite lookup_insert_eq, lookup_empty.
    unfold pc_createAnswer, with_pc. simpl. rewrite lookup_insert_eq. simpl.
    unfold pc_setLocalDescription, with_pc. simpl. rewrite lookup_insert_eq. simpl.
    cbv [emit set_peerConnections fresh_manager myDeviceId peerConnections
         dataChannels connectionStates iceCandidatesBuffer trace app].
    rewrite !insert_insert_eq, !insert_empty. reflexivity. }
  rewrite HA1, HB1.
  split.
  { unfold connectToPeer. simpl. by rewrite Hge'. }
  split; [reflexivity|]. split; [reflexivity|].
  unfold handleSignal, handleAnswer. simpl. rewrite lookup_singleton_eq. simpl.
  rewrite lookup_singleton_eq.
  unfold try_catch, pc_setRemoteDescription, with_pc. simpl.
  rewrite lookup_singleton_eq. simpl.
  unfold flushIceCandidates. simpl. rewrite lookup_insert_eq, lookup_empty.
  split; [reflexivity|]. split; [|reflexivity].
  simpl. apply lookup_insert_eq.
Qed.

(** ** The channel's view of a peer *)

Section ChannelState.

Variable E : Engine.
Variable now : Z.

Lemma isConnected_insert (p q state : string) (m : Manager) :
  isConnected p (set_connectionStates (<[q := state]>) m)
  = if decide (q = p) then bool_decide (state = "connected") else isConnected p m.
Proof.
  unfold isConnected. simpl. destruct (decide (q = p)) as [->|Hne].
  - rewrite lookup_insert_eq. apply bool_decide_ext. split; congruence.
  - by rewrite lookup_insert_ne.
Qed.

Lemma isConnected_same_states (p : string) (m m' : Manager) :
  connectionStates m' !! p = connectionStates m !! p ->
  isConnected p m' = isConnected p m.
Proof. intros H. unfold isConnected. by rewrite H. Qed.

(** [createPeerConnection] for an initiator either hands the manager back
    or sets up a fresh channel, after closing the old session if any. *)
Lemma createPeerConnection_initiator_cases (P : string) (m : Manager) :
  let m0 := createPeerConnection P true m in
  m0 = m
  \/ (connectionStates m0 = <[P := "connecting"]> (connectionStates m)
      /\ exists pre,
           trace m0 = (trace m ++ pre ++ [EvCreateDataChannel P])%list
           /\ forall q, existsb (is_create_channel q) pre = false).
Proof.
  assert (Hfresh : forall m1 pre,
            trace m1 = (trace m ++ pre)%list ->
            (forall q, existsb (is_create_channel q) pre = false) ->
            connectionStates m1 = connectionStates m ->
            connectionStates (create_fresh P true m1)
              = <[P := "connecting"]> (connectionStates m)
            /\ exists pre',
                 trace (create_fresh P true m1)
                 = (trace m ++ pre' ++ [EvCreateDataChannel P])%list
                 /\ forall q, existsb (is_create_channel q) pre' = false).
  { intros m1 pre Ht Hp Hc. unfold create_fresh, setupDataChannel. simpl.
    rewrite Hc. split; [done|]. exists (pre ++ [EvNew P true])%list.
    rewrite Ht, <- !app_assoc. split; [done|].
    intros q. by rewrite existsb_app, Hp. }
  cbv zeta. unfold createPeerConnection.
  destruct (peerConnections m !! P) as [ses|].
  2:{ right. apply (Hfresh m []); [by rewrite app_nil_r | done | done]. }
  destruct (is_connected_or_connecting _); [by left|].
  destruct (is_bad_state _).
  { right. by apply (Hfresh (close_and_delete P m) [EvClose P]). }
  destruct (_ && _); [by left|].
  right. by apply (Hfresh (close_and_delete P m) [EvClose P]).
Qed.

(** After [createPeerConnection], [connectToPeer] writes no connection state
    and creates no channel. *)
Lemma connect_rest_confined (P : string) (m0 : Manager) :
  confined (fun e => forall p, is_create_channel p e = false) false P m0
    ((offer <- pc_createOffer E P ;;
      pc_setLocalDescription E P offer ;;;
      sendSignal E now P "offer" (plain offer))%op m0).2.
Proof.
  apply (op_confined_bind (fun e => forall p, is_create_channel p e = false) false
           (myDeviceId m0) P); [| |done].
  - by apply op_confined_createOffer.
  - intros offer. apply op_confined_bind; [by apply op_confined_setLocal|].
    intros _. by apply op_confined_sendSignal.
Qed.

Lemma connectToPeer_states (P p : string) (m : Manager) :
  let m' := connectToPeer E now P m in
  connectionStates m' !! p
  = if existsb (is_create_channel p) (new_events m m')
    then Some "connecting" else connectionStates m !! p.
Proof.
  cbv zeta.
  assert (Hbody : connectionStates (try_catch (connect_body E now P) m) !! p
                  = if existsb (is_create_channel p)
                         (new_events m (try_catch (connect_body E now P) m))
                    then Some "connecting" else connectionStates m !! p).
  { assert (Heq : try_catch (connect_body E now P) m
                  = ((offer <- pc_createOffer E P ;;
                      pc_setLocalDescription E P offer ;;;
                      sendSignal E now P "offer" (plain offer))%op
                       (createPeerConnection P true m)).2) by reflexivity.
    rewrite Heq. clear Heq.
    set (m0 := createPeerConnection P true m).
    destruct (connect_rest_confined P m0) as (_ & _ & _ & Hcs & _ & evs & Htr & Hok).
    assert (Hevs : existsb (is_create_channel p) evs = false).
    { clear Htr. induction evs as [|e evs IH]; [done|].
      apply Forall_cons in Hok as [He Hok]. simpl. rewrite He. by apply IH. }
    rewrite (Hcs p) by (by left).
    destruct (createPeerConnection_initiator_cases P m)
      as [Hsame | (Hc & pre & Hpre & Hnone)];
      fold m0 in Hsame || fold m0 in Hc, Hpre.
    - rewrite Hsame in *. rewrite (new_events_app _ _ evs Htr), Hevs. done.
    - rewrite (new_events_app m _ (pre ++ [EvCreateDataChannel P] ++ evs)%list)
        by (rewrite Htr, Hpre, <- !app_assoc; done).
      rewrite !existsb_app, Hevs, orb_false_r. simpl. rewrite orb_false_r, Hc.
      destruct (decide (P = p)) as [->|Hne].
      + rewrite bool_decide_eq_true_2 by done. rewrite orb_true_r.
        by rewrite lookup_insert_eq.
      + rewrite bool_decide_eq_false_2 by done. rewrite orb_false_r.
        rewrite (Hnone p). by rewrite lookup_insert_ne. }
  unfold connectToPeer.
  destruct (js_ge _ _); [by rewrite new_events_same|].
  destruct (peerConnections m !! P) as [ses|]; [|exact Hbody].
  destruct (is_connected_or_connecting _); [by rewrite new_events_same|].
  destruct (is_have_remote_offer _); [by rewrite new_events_same|].
  destruct (is_have_local_offer _); [by rewrite new_events_same | exact Hbody].
Qed.

Lemma on_channel_event_states (p q : string) (registered : bool)
    (ev : ChannelEvent) (m : Manager) :
  isConnected p (on_channel_event q registered ev m)
  = default (isConnected p m) (state_written E now p (StChannel q registered ev) m).
Proof.
  unfold on_channel_event, state_written.
  destruct ev, registered; simpl; rewrite ?isConnected_insert;
    by destruct (decide (q = p)).
Qed.

Lemma do_step_states (p : string) (st : ManagerStep) (m : Manager) :
  isConnected p (do_step E now st m)
  = default (isConnected p m) (state_written E now p st m).
Proof.
  destruct st as [q|s| |q ch|q registered ev]; simpl.
  - unfold isConnected. rewrite connectToPeer_states.
    by destruct (existsb _ _).
  - apply isConnected_same_states.
    destruct (handleSignal_confined E now s m) as (_ & _ & _ & Hcs & _).
    apply Hcs. by left.
  - apply isConnected_same_states. unfold cleanupConnections.
    destruct (cleanup_fold (map_to_list (peerConnections m)) m) as (_ & _ & Hcs & _).
    cbv zeta in Hcs. by rewrite Hcs.
  - unfold setupDataChannel. rewrite isConnected_insert.
    by destruct (decide (q = p)).
  - apply on_channel_event_states.
Qed.

(** X11. [isConnected] changes only where a data channel of the peer is set
    up or fires.  For every operation of the manager, [isConnected(p)]
    afterwards is what the operation recorded for [p] and is unchanged when
    it recorded nothing: an open event of a channel of [p] makes it true;
    an error or close event of such a channel, a channel of [p] arriving
    through [ondatachannel] and a [connectToPeer] that creates the channel
    of [p] make it false; [handleSignal], the sweep, a [connectToPeer] that
    creates no channel and everything that concerns other peers leave it.
    Along any run the last such record decides.  Once the registered channel
    of [p] has opened a message to [p] is sent, and after a close event of
    any channel of [p] none is. *)
Theorem isConnected_changes_at_channel_events (p : string)
    (sts : list ManagerStep) (m : Manager) :
  isConnected p (do_steps E now sts m)
    = default (isConnected p m) (last_written E now p sts m)
  /\ (forall st, isConnected p (do_step E now st m)
                 = default (isConnected p m) (state_written E now p st m))
  /\ (forall ch myDeviceName t message,
        dataChannels m !! p = Some ch ->
        sendMessage myDeviceName t true p message
          (on_channel_event p true ChOpen m)
        = (true, Some {| msg_message := message; msg_senderName := myDeviceName;
                         msg_timestamp := t |}))
  /\ (forall registered myDeviceName t send_ok message,
        sendMessage myDeviceName t send_ok p message
          (on_channel_event p registered ChClose m) = (false, None)).
Proof.
  split; [|split; [intros st; apply do_step_states|split]].
  - revert m. induction sts as [|st sts IH]; intros m; [done|].
    unfold do_steps in *. simpl. rewrite IH.
    destruct (last_written E now p sts (do_step E now st m)); [done|].
    simpl. apply do_step_states.
  - intros ch name t msg Hch. unfold sendMessage, on_channel_event. simpl.
    by rewrite lookup_alter_eq, Hch.
  - intros registered name t ok msg. unfold sendMessage, on_channel_event. simpl.
    by rewrite lookup_delete_eq.
Qed.

End ChannelState.

(** X12. The sweep does not tell the application.  After it has removed the
    session of a peer, [isConnected] answers for that peer what it answered
    before, while every message to the peer is refused. *)
Theorem swept_peer_still_reported (m : Manager) (k : string) :
  bad_session m k ->
  let m' := cleanupConnections m in
  isConnected k m' = isConnected k m
  /\ forall myDeviceName now send_ok message,
       sendMessage myDeviceName now send_ok k message m' = (false, None).
Proof.
  intros Hbad. cbv zeta. unfold cleanupConnections.
  destruct (cleanup_fold (map_to_list (peerConnections m)) m)
    as (_ & Hdc & Hcs & _).
  cbv zeta in Hdc, Hcs. split.
  - unfold isConnected. by rewrite Hcs.
  - intros name t ok msg. unfold sendMessage. rewrite Hdc.
    apply swept_in_table in Hbad. by rewrite Hbad.
Qed.

(** ** The database side *)

Section Snapshots.

Variable E : Engine.
Variable now : Z.

Lemma process_signals_fold (signals : list (string * option RawSignal)) :
  forall m removed,
    foldl (fun st kv =>
             match readable_signal kv.2 with
             | Some value => (handleSignal E now value st.1, (st.2 ++ [kv.1])%list)
             | None => st
             end) (m, removed) signals
    = (foldl (fun acc s => handleSignal E now s acc) m (handled signals).*2,
       (removed ++ (handled signals).*1)%list).
Proof.
  induction signals as [|[key value] signals IH]; intros m removed.
  - simpl. by rewrite app_nil_r.
  - simpl. unfold handled. simpl. destruct (readable_signal value) as [s|]; simpl.
    + rewrite IH. unfold handled. by rewrite <- app_assoc.
    + by rewrite IH.
Qed.

Lemma handleSignal_fold_confined (l : list SignalData) : forall m,
  let m' := foldl (fun acc s => handleSignal E now s acc) m l in
  myDeviceId m' = myDeviceId m
  /\ dataChannels m' = dataChannels m
  /\ connectionStates m' = connectionStates m
  /\ (forall k, k ∉ from <$> l ->
        peerConnections m' !! k = peerConnections m !! k
        /\ iceCandidatesBuffer m' !! k = iceCandidatesBuffer m !! k)
  /\ exists evs, trace m' = (trace m ++ evs)%list
       /\ Forall (fun e => exists P, P ∈ from <$> l
                                     /\ responder_call (myDeviceId m) P e) evs.
Proof.
  induction l as [|s l IH]; intros m; cbv zeta.
  { simpl. repeat split; try done. exists []. by rewrite app_nil_r. }
  simpl foldl.
  destruct (handleSignal_confined E now s m)
    as (Hid & Hpc & Hdc & Hcs & Hbuf & evs1 & Htr1 & Hok1).
  destruct (IH (handleSignal E now s m))
    as (Hid' & Hdc' & Hcs' & Hrest & evs2 & Htr2 & Hok2).
  cbv zeta in Hid', Hdc', Hcs', Hrest, Htr2.
  split; [congruence|].
  split; [rewrite Hdc'; apply map_eq; intros k; apply Hdc; by left|].
  split; [rewrite Hcs'; apply map_eq; intros k; apply Hcs; by left|].
  split.
  - intros k Hk. rewrite fmap_cons, not_elem_of_cons in Hk. destruct Hk as [Hne Hk].
    destruct (Hrest k Hk) as [-> ->]. split; [by apply Hpc | by apply Hbuf].
  - exists (evs1 ++ evs2)%list. split; [by rewrite Htr2, Htr1, app_assoc|].
    apply Forall_app. split.
    + eapply Forall_impl; [exact Hok1|]. intros e He. exists (from s).
      split; [rewrite fmap_cons; apply elem_of_cons; by left | done].
    + eapply Forall_impl; [exact Hok2|]. intros e (P & HP & He). exists P.
      split; [rewrite fmap_cons; apply elem_of_cons; by right|].
      by rewrite <- Hid.
Qed.

(** X13. One snapshot of the manager's signals: the records that have a
    sender and a type are handled one after the other in database order and
    exactly their keys are removed, so a record without sender or type is
    neither handled nor removed.  Whatever the snapshot holds and whatever
    the engine answers, the channel tables and the manager's id stay as they
    were, the sessions and buffers of peers that sent nothing readable stay
    as they were, and every call the run makes is a responder's call for
    one of the senders. *)
Theorem process_signals_keeps_to_senders
    (signals : list (string * option RawSignal)) (m : Manager) :
  let m' := (process_signals E now signals m).1 in
  let senders := from <$> (handled signals).*2 in
  (process_signals E now signals m).2 = (handled signals).*1
  /\ m' = foldl (fun acc s => handleSignal E now s acc) m (handled signals).*2
  /\ myDeviceId m' = myDeviceId m
  /\ dataChannels m' = dataChannels m
  /\ connectionStates m' = connectionStates m
  /\ (forall k, k ∉ senders ->
        peerConnections m' !! k = peerConnections m !! k
        /\ iceCandidatesBuffer m' !! k = iceCandidatesBuffer m !! k)
  /\ exists evs, trace m' = (trace m ++ evs)%list
       /\ Forall (fun e => exists P, P ∈ senders
                                     /\ responder_call (myDeviceId m) P e) evs.
Proof.
  cbv zeta. unfold process_signals. rewrite process_signals_fold. simpl.
  split; [done|]. split; [done|].
  apply (handleSignal_fold_confined (handled signals).*2 m).
Qed.

End Snapshots.

Lemma listed_devices_cons (me k : string) (d : option DeviceData)
    (snapshot : list (string * option DeviceData)) :
  listed_devices me ((k, d) :: snapshot)
  = if decide (k = "") then listed_devices me snapshot
    else if decide (k = me) then listed_devices me snapshot
    else {| id := k; name := display_name d |} :: listed_devices me snapshot.
Proof.
  unfold listed_devices. simpl.
  destruct (decide (k = "")); [done|]. by destruct (decide (k = me)).
Qed.

(** X14. The device list handed to the application holds the other devices
    of the snapshot, each once per record and in database order: never the
    device itself, never a record without a key, and never an empty name. *)
Theorem listed_devices_are_the_others (me : string)
    (snapshot : list (string * option DeviceData)) :
  id <$> listed_devices me snapshot
    = filter (fun k => k <> "" /\ k <> me) snapshot.*1
  /\ Forall (fun d => id d <> me /\ id d <> "" /\ name d <> "")
       (listed_devices me snapshot).
Proof.
  induction snapshot as [|[k d] snapshot [IH1 IH2]]; [done|].
  rewrite listed_devices_cons, fmap_cons, filter_cons. simpl.
  destruct (decide (k = "")) as [->|Hk].
  { rewrite decide_False by (by intros [? _]). done. }
  destruct (decide (k = me)) as [->|Hme].
  { rewrite decide_False by (by intros [_ ?]). done. }
  rewrite decide_True by done. rewrite fmap_cons. simpl.
  split; [by rewrite IH1|].
  constructor; [|done]. simpl. split; [done|]. split; [done|].
  unfold display_name. destruct d as [[[n|] ts]|]; try done.
  simpl. by destruct (decide (n = "")).
Qed.

Lemma sweep_records_granted (remove_ok : DbPath -> bool) (now : Z)
    (path : string -> DbPath) (records : list (string * option Z)) :
  (forall k, k ∈ old_keys now records -> remove_ok (path k) = true) ->
  sweep_records remove_ok now path records = (path <$> old_keys now records, true).
Proof.
  unfold old_keys. induction records as [|[k ts] records IH]; intros Hok; [done|].
  rewrite filter_cons in *. simpl in *. destruct (too_old now ts) eqn:Hold.
  - rewrite decide_True in * by done. rewrite Hok by (simpl; apply elem_of_cons; by left).
    rewrite IH; [done|]. intros k' Hk'. apply Hok. simpl. apply elem_of_cons. by right.
  - rewrite decide_False in * by done. by apply IH.
Qed.

Lemma sweep_records_rejected (remove_ok : DbPath -> bool) (now : Z)
    (path : string -> DbPath) (before after : list (string * option Z))
    (k : string) (ts : option Z) :
  (forall k', k' ∈ old_keys now before -> remove_ok (path k') = true) ->
  too_old now ts = true ->
  remove_ok (path k) = false ->
  sweep_records remove_ok now path (before ++ (k, ts) :: after)
  = (path <$> old_keys now before, false).
Proof.
  unfold old_keys. intros Hok Hold Hrej.
  induction before as [|[k0 ts0] before IH].
  - simpl. by rewrite Hold, Hrej.
  - rewrite filter_cons in *. simpl in *. destruct (too_old now ts0) eqn:Hold0.
    + rewrite decide_True in * by done.
      rewrite Hok by (simpl; apply elem_of_cons; by left).
      rewrite IH; [done|]. intros k' Hk'. apply Hok. simpl. apply elem_of_cons.
      by right.
    + rewrite decide_False in * by done. by apply IH.
Qed.

(** X15. When the database grants every removal, the clean-up removes
    exactly the device records, the manager's own included, and the
    manager's signals whose timestamp lies more than ten minutes back:
    devices first, then signals, each in the order read.  A record exactly
    ten minutes old, a younger one and one without timestamp are kept. *)
Theorem cleanupDatabase_removes_the_old (remove_ok : DbPath -> bool) (now : Z)
    (me : string) (devices signals : list (string * option Z)) :
  (forall p, remove_ok p = true) ->
  cleanupDatabase remove_ok now me (Stored devices) (Stored signals)
    = ((DevicePath <$> old_keys now devices)
       ++ (SignalPath me <$> old_keys now signals))%list
  /\ (forall k, k ∈ old_keys now devices <->
        exists t, (k, Some t) ∈ devices /\ (now - t > 600000)%Z)
  /\ (forall k, k ∈ old_keys now signals <->
        exists t, (k, Some t) ∈ signals /\ (now - t > 600000)%Z).
Proof.
  intros Hok.
  assert (Hold : forall records k, k ∈ old_keys now records <->
            exists t, (k, Some t) ∈ records /\ (now - t > 600000)%Z).
  { intros records k. unfold old_keys. rewrite list_elem_of_fmap. split.
    - intros ([k' ts] & -> & Hin). apply list_elem_of_filter in Hin as [Hold Hin].
      simpl in *. destruct ts as [t|]; [|done]. exists t. split; [done|].
      unfold too_old in Hold. lia.
    - intros (t & Hin & Hage). exists (k, Some t). split; [done|].
      apply list_elem_of_filter. split; [|done]. unfold too_old. simpl. lia. }
  split; [|by split; intros k; apply Hold].
  unfold cleanupDatabase.
  rewrite !sweep_records_granted by (intros; apply Hok). done.
Qed.

(** X16. The first removal the database rejects ends the clean-up: the old
    device records before it are gone, and nothing after it is touched,
    neither the remaining devices nor any signal.  A rejected read of the
    devices ends it before anything is removed. *)
Theorem cleanupDatabase_stops_at_rejection (remove_ok : DbPath -> bool) (now : Z)
    (me : string) (before after : list (string * option Z)) (k : string)
    (t : Z) (signals : DbRead) :
  (forall k', k' ∈ old_keys now before -> remove_ok (DevicePath k') = true) ->
  (now - t > 600000)%Z ->
  remove_ok (DevicePath k) = false ->
  cleanupDatabase remove_ok now me (Stored (before ++ (k, Some t) :: after)) signals
    = (DevicePath <$> old_keys now before)
  /\ cleanupDatabase remove_ok now me ReadFails signals = [].
Proof.
  intros Hok Hage Hrej. unfold cleanupDatabase. split; [|done].
  rewrite (sweep_records_rejected remove_ok now DevicePath before after k (Some t));
    try done.
  unfold too_old. lia.
Qed.

(** ** Frames of a file *)

Section Frames.

Local Open Scope Z_scope.

Lemma chunk_loop_lookup (arr : list byte) (cs : Z) (n : nat) : forall i k,
  (k < n)%nat ->
  chunk_loop arr cs n i !! k
  = Some (slice arr ((i + Z.of_nat k) * cs)
            (Z.min ((i + Z.of_nat k) * cs + cs) (Z.of_nat (length arr)))).
Proof.
  induction n as [|n IH]; intros i k Hk; [lia|].
  destruct k as [|k]; simpl.
  - by rewrite Z.add_0_r.
  - rewrite IH by lia. do 3 f_equal; lia.
Qed.

(** X17. The frames of a file are consecutive pieces of it: frame [k] holds
    the bytes from offset [16384 * k] on, every frame but the last holds
    exactly 16384 bytes, and the last one holds the rest, between 1 and 16384
    bytes.  No frame is empty. *)
Theorem sendFileChunks_frame_sizes (arr : list byte) (k : nat) (c : list byte) :
  sendFileChunks arr !! k = Some c ->
  let len := Z.of_nat (length arr) in
  let count := Z.of_nat (length (sendFileChunks arr)) in
  c = take (Z.to_nat 16384) (drop (Z.to_nat (16384 * Z.of_nat k)) arr)
  /\ 0 < Z.of_nat (length c) <= 16384
  /\ (Z.of_nat k + 1 < count -> Z.of_nat (length c) = 16384)
  /\ (Z.of_nat k + 1 = count ->
      Z.of_nat (length c) = len - 16384 * (count - 1)).
Proof.
  intros Hc. cbv zeta.
  pose proof (sendFileChunks_count arr) as Hcount.
  pose proof (ceil_div_bounds (Z.of_nat (length arr)) 16384 ltac:(lia)) as Hb.
  unfold sender_totalChunks in Hcount.
  assert (Hk : (k < length (sendFileChunks arr))%nat)
    by (apply lookup_lt_is_Some; by exists c).
  unfold sendFileChunks in Hc. rewrite chunk_loop_lookup in Hc.
  2:{ unfold sendFileChunks in Hk. by rewrite chunk_loop_length in Hk. }
  injection Hc as <-. rewrite Z.add_0_l.
  set (n := ceil_div (Z.of_nat (length arr)) 16384) in *.
  assert (Hlen : Z.of_nat (length (slice arr (Z.of_nat k * 16384)
                   (Z.min (Z.of_nat k * 16384 + 16384) (Z.of_nat (length arr)))))
                 = Z.min (Z.of_nat k * 16384 + 16384) (Z.of_nat (length arr))
                   - Z.of_nat k * 16384)
    by (apply slice_length; lia).
  split.
  - unfold slice. replace (Z.to_nat (16384 * Z.of_nat k))
      with (Z.to_nat (Z.of_nat k * 16384)) by lia.
    destruct (decide (Z.of_nat k * 16384 + 16384 <= Z.of_nat (length arr))).
    + rewrite Z.min_l by lia. f_equal. lia.
    + rewrite Z.min_r by lia. rewrite !take_ge; [done|rewrite length_drop; lia..].
  - rewrite Hlen. repeat split; lia.
Qed.

Lemma on_file_data_selectedDevice (q : string) (data : list byte) (r : Receiver) :
  selectedDevice (on_file_data q data r) = selectedDevice r.
Proof.
  unfold on_file_data. destruct (decide _); [|done].
  destruct (fileTransferRef r); [|done]. by destruct (_ <=? _).
Qed.

(** X18. The receiver counts frames, not bytes.  Whatever state it was in
    when the offer of [size] bytes was accepted, and whatever the frames
    hold, the frame that brings the count to the ceiling of [size / 16384],
    or the first frame when that is not positive, hands over one file made of
    all frames put end to end; no frame before it hands over anything.  A
    transfer that was running when the offer was accepted is forgotten with
    the frames it had. *)
Theorem receiver_completes_by_count (fileName : string) (size : Z)
    (fileType : string) (r : Receiver) (frames : list (list byte)) :
  Z.of_nat (length frames) = frames_awaited size ->
  let r0 := acceptFileOffer fileName size fileType r in
  receive_all (selectedDevice r) frames r0
    = {| selectedDevice := selectedDevice r;
         fileTransferRef := None;
         downloads := (downloads r ++
           [{| dl_name := fileName; dl_type := fileType;
               dl_bytes := concat frames |}])%list |}
  /\ forall k, (k < length frames)%nat ->
       downloads (receive_all (selectedDevice r) (take k frames) r0) = downloads r.
Proof.
  intros Hlen. cbv zeta. unfold frames_awaited in Hlen.
  set (t := {| ft_name := fileName; ft_size := size; ft_type := fileType;
               chunks := []; totalChunks := ceil_div size 16384;
               receivedChunks := 0 |}).
  destruct (decide (1 <= ceil_div size 16384)) as [Hpos|Hnon].
  - destruct (receive_until_complete (selectedDevice r) frames
                (acceptFileOffer fileName size fileType r) t) as [Hall Hpre];
      try done.
    + intros ->. simpl in Hlen. lia.
    + simpl. lia.
    + split; [by rewrite Hall; simpl; rewrite reassemble_concat|].
      intros k Hk. by destruct (Hpre k Hk) as [-> _].
  - destruct frames as [|f1 [|f2 frames]]; simpl in Hlen; try lia.
    split.
    + unfold receive_all. simpl foldl.
      rewrite (on_file_data_last _ f1 _ t); try done; [|simpl; lia].
      simpl. by rewrite reassemble_concat.
    + intros k Hk. simpl in Hk. by replace k with 0%nat by lia.
Qed.

(** X19. Binary frames of peers other than the selected one are dropped
    without a trace: a mixed sequence of frames leaves the receiver as the
    frames of the selected peer alone would.  With no accepted offer every
    frame is dropped. *)
Theorem frames_of_other_peers_ignored (frames : list (string * list byte))
    (r : Receiver) :
  receive_from frames r
    = receive_all (selectedDevice r)
        (filter (fun fr => fr.1 = selectedDevice r) frames).*2 r
  /\ (fileTransferRef r = None -> receive_from frames r = r).
Proof.
  split.
  - revert r. induction frames as [|[q data] frames IH]; intros r; [done|].
    unfold receive_from, receive_all in *. rewrite filter_cons. simpl.
    destruct (decide (q = selectedDevice r)) as [->|Hq].
    + simpl. rewrite IH. by rewrite on_file_data_selectedDevice.
    + rewrite <- IH. f_equal. unfold on_file_data. by rewrite decide_False.
  - intros Hnone. induction frames as [|[q data] frames IH]; [done|].
    unfold receive_from in *. simpl.
    replace (on_file_data q data r) with r; [done|].
    unfold on_file_data. rewrite Hnone. by destruct (decide _).
Qed.

End Frames.

(** ** Offers that are answered *)

Section Answers.

Lemma is_response_accepted (T : string) :
  is_response "file-accepted" T (accepted T) = true.
Proof. unfold is_response, accepted. simpl. by rewrite !bool_decide_eq_true_2. Qed.

Lemma is_response_declined (T : string) :
  is_response "file-accepted" T (declined T) = false
  /\ is_response "file-declined" T (declined T) = true.
Proof.
  unfold is_response, declined. simpl. split; [done|].
  by rewrite bool_decide_eq_true_2.
Qed.

Lemma sendFile_open (p : string) (f : File) (T : string) (now : Z)
    (ch : RTCDataChannel) (s : Sender) :
  readyState ch = RsOpen ->
  let s' := sendFile (Some ch) true p f T now s in
  onFileTransferCallback s' = SendFileCallback p T f (onFileTransferCallback s)
  /\ timers s' = <[T := onFileTransferCallback s]> (timers s)
  /\ resolutions s' = resolutions s
  /\ sent s' = (sent s ++ [(p, FMetadata (file_name f)
                                (Z.of_nat (length (file_bytes f)))
                                (file_type f) T now)])%list
  /\ loops s' = loops s.
Proof. intros Hopen. unfold sendFile. by rewrite Hopen. Qed.

Lemma invoke_plain (orig : Callback) (q : string) (d : FileTransferData)
    (s : Sender) :
  plain_callback orig = true ->
  let s' := invoke orig q d s in
  onFileTransferCallback s' = onFileTransferCallback s
  /\ timers s' = timers s
  /\ resolutions s' = resolutions s
  /\ sent s' = sent s
  /\ loops s' = loops s.
Proof. by destruct orig. Qed.

Lemma invoke_handler (p T : string) (f : File) (orig : Callback) (q : string)
    (d : FileTransferData) (s : Sender) :
  plain_callback orig = true ->
  let s' := invoke (SendFileCallback p T f orig) q d s in
  timers s' = timers s
  /\ sent s' = sent s
  /\ (q = p /\ is_response "file-accepted" T d = true ->
      onFileTransferCallback s' = orig
      /\ resolutions s' = resolutions s
      /\ loops s' = (loops s ++ [sending p T f])%list)
  /\ (q = p /\ is_response "file-accepted" T d = false
      /\ is_response "file-declined" T d = true ->
      onFileTransferCallback s' = orig
      /\ resolutions s' = (resolutions s ++ [(T, false)])%list
      /\ loops s' = loops s)
  /\ (quiet p T (SeIncoming q d) = true ->
      onFileTransferCallback s' = onFileTransferCallback s
      /\ resolutions s' = resolutions s
      /\ loops s' = loops s).
Proof.
  intros Hplain. cbv zeta.
  destruct (invoke_plain orig q d s Hplain) as (Hslot & Htm & Hres & Hsent & Hloops).
  cbn [invoke]. set (s1 := invoke orig q d s) in *.
  destruct (bool_decide (q = p)) eqn:Hq.
  - destruct (is_response "file-accepted" T d) eqn:Ha.
    + split; [done|]. split; [done|]. split; [|split].
      * intros _. simpl. by rewrite Hres, Hloops.
      * by intros (_ & ? & _).
      * simpl. by rewrite Hq, Ha.
    + destruct (is_response "file-declined" T d) eqn:Hd.
      * split; [done|]. split; [done|]. split; [by intros [_ ?]|]. split.
        -- intros _. simpl. by rewrite Hres, Hloops.
        -- simpl. by rewrite Hq, Ha, Hd.
      * split; [done|]. split; [done|]. split; [by intros [_ ?]|].
        split; [by intros (_ & _ & ?)|]. done.
  - apply bool_decide_eq_false in Hq.
    split; [done|]. split; [done|]. split; [by intros [? _]|].
    split; [by intros [? _]|]. done.
Qed.

Lemma outcomes_snoc (T t : string) (v : bool) (s s' : Sender) :
  resolutions s' = (resolutions s ++ [(t, v)])%list ->
  outcomes T s' = if decide (t = T) then (outcomes T s ++ [v])%list
                  else outcomes T s.
Proof.
  intros Hres. unfold outcomes. rewrite Hres, filter_app, filter_cons, filter_nil.
  simpl. destruct (decide (t = T)).
  - by rewrite fmap_app.
  - by rewrite app_nil_r.
Qed.

Lemma outcomes_same (T : string) (s s' : Sender) :
  resolutions s' = resolutions s -> outcomes T s' = outcomes T s.
Proof. intros Hres. unfold outcomes. by rewrite Hres. Qed.

Lemma window_keeps_handler (p T : string) (f : File) (orig : Callback)
    (window : list SenderEvent) : forall s,
  plain_callback orig = true ->
  Forall (fun e => unrelated_message p T e = true) window ->
  onFileTransferCallback s = SendFileCallback p T f orig ->
  let s' := run window s in
  onFileTransferCallback s' = SendFileCallback p T f orig
  /\ timers s' = timers s
  /\ resolutions s' = resolutions s
  /\ sent s' = sent s
  /\ loops s' = loops s.
Proof.
  induction window as [|e window IH]; intros s Hplain Hwin Hslot; [done|].
  apply Forall_cons in Hwin as [He Hwin]. cbv zeta. unfold run. simpl foldl.
  destruct e as [| q d | | |]; try done. simpl in He. cbn [step]. rewrite Hslot.
  destruct (invoke_handler p T f orig q d s Hplain) as (Htm & Hsent & _ & _ & Hq).
  destruct (Hq He) as (Hslot' & Hres & Hloops).
  destruct (IH (invoke (SendFileCallback p T f orig) q d s) Hplain Hwin)
    as (H1 & H2 & H3 & H4 & H5); [by rewrite Hslot'|].
  unfold run in *. cbv zeta in *.
  split; [done|]. split; [congruence|]. split; [congruence|].
  split; congruence.
Qed.

Lemma step_timeout_armed (T : string) (orig : Callback) (s : Sender) :
  timers s !! T = Some orig ->
  let s' := step (SeTimeout T) s in
  onFileTransferCallback s' = orig
  /\ timers s' = delete T (timers s)
  /\ resolutions s' = (resolutions s ++ [(T, false)])%list
  /\ sent s' = sent s
  /\ loops s' = loops s.
Proof. intros Harmed. simpl. by rewrite Harmed. Qed.

(** A [sendFileChunks] in its pause with [rem] still to send, when nothing
    throws: the chunks go out in order, then it returns [true]. *)
Lemma pausing_loop_runs (pre post : list ChunkLoop) (p T : string)
    (rem : list (list byte)) : forall s,
  loops s = (pre ++ {| loop_peerId := p; loop_transferId := T;
                       loop_state := Pausing rem |} :: post)%list ->
  let s' := run (replicate (S (length rem)) (SeLoop (length pre) true)) s in
  onFileTransferCallback s' = onFileTransferCallback s
  /\ timers s' = timers s
  /\ resolutions s' = (resolutions s ++ [(T, true)])%list
  /\ sent s' = (sent s ++ map (fun c => (p, FBinary c)) rem)%list
  /\ loops s' = (pre ++ post)%list.
Proof.
  induction rem as [|c rem IH]; intros s Hl; cbv zeta.
  - unfold run. simpl. unfold loop_step.
    rewrite Hl, list_lookup_middle by done. simpl.
    rewrite Hl, delete_middle, app_nil_r. done.
  - change (run (replicate (S (length (c :: rem))) (SeLoop (length pre) true)) s)
      with (run (replicate (S (length rem)) (SeLoop (length pre) true))
              (loop_step (length pre) true s)).
    set (s1 := send_frames p [FBinary c]
                 (set_loops (<[length pre := {| loop_peerId := p;
                     loop_transferId := T; loop_state := Pausing rem |}]>) s)).
    assert (Hs : loop_step (length pre) true s = s1).
    { unfold loop_step. by rewrite Hl, list_lookup_middle. }
    rewrite Hs.
    destruct (IH s1) as (H1 & H2 & H3 & H4 & H5).
    { unfold s1. simpl. rewrite Hl, insert_app_r_alt by done.
      by rewrite Nat.sub_diag. }
    cbv zeta in *. rewrite H1, H2, H3, H4, H5. unfold s1. simpl.
    rewrite <- app_assoc. done.
Qed.

(** A started [sendFileChunks] when nothing throws: every chunk of the file
    goes out, in order, and then the promise is resolved with [true]. *)
Lemma started_loop_runs (pre post : list ChunkLoop) (p T : string) (f : File)
    (s : Sender) :
  loops s = (pre ++ sending p T f :: post)%list ->
  let s' := run (whole_loop (length pre) f) s in
  onFileTransferCallback s' = onFileTransferCallback s
  /\ timers s' = timers s
  /\ resolutions s' = (resolutions s ++ [(T, true)])%list
  /\ sent s' = (sent s ++ map (fun c => (p, FBinary c))
                            (sendFileChunks (file_bytes f)))%list
  /\ loops s' = (pre ++ post)%list.
Proof.
  intros Hl. cbv zeta. unfold whole_loop.
  destruct (sendFileChunks (file_bytes f)) as [|c rest] eqn:Hchunks.
  - unfold run. simpl. unfold loop_step.
    rewrite Hl, list_lookup_middle by done. simpl. rewrite Hchunks.
    simpl. rewrite Hl, delete_middle, app_nil_r. done.
  - change (run (replicate (S (length (c :: rest))) (SeLoop (length pre) true)) s)
      with (run (replicate (S (length rest)) (SeLoop (length pre) true))
              (loop_step (length pre) true s)).
    set (s1 := send_frames p [FBinary c]
                 (set_loops (<[length pre := {| loop_peerId := p;
                     loop_transferId := T; loop_state := Pausing rest |}]>) s)).
    assert (Hs : loop_step (length pre) true s = s1).
    { unfold loop_step. rewrite Hl, list_lookup_middle by done. simpl.
      by rewrite Hchunks. }
    rewrite Hs.
    destruct (pausing_loop_runs pre post p T rest s1) as (H1 & H2 & H3 & H4 & H5).
    { unfold s1. simpl. rewrite Hl, insert_app_r_alt by done.
      by rewrite Nat.sub_diag. }
    cbv zeta in *. rewrite H1, H2, H3, H4, H5. unfold s1. simpl.
    rewrite <- app_assoc. done.
Qed.

(** X20. An offer that is answered in time.  The file is offered to [p]
    while the slot holds no temporary handler; messages that are not an
    answer of [p] to this offer may come in meanwhile.  When [p] declines,
    nothing follows the offer and the promise is resolved with failure at
    once.  When [p] accepts, the slot is put back and [sendFileChunks] is
    started; at that moment nothing has been sent and nothing is resolved.
    If no send throws, the frames of the file follow the offer on [p]'s
    channel, in order, and the promise is then resolved with success.  The
    timer of the offer is not cancelled by the acceptance: when it fires
    before [sendFileChunks] has returned, the promise is resolved with
    failure first although every frame still goes out.  When reading the
    file or the first send throws, [sendFileChunks] returns [false]: the
    promise is resolved with failure and no chunk goes out. *)
Theorem answered_offer (p : string) (f : File) (T : string) (now : Z)
    (ch : RTCDataChannel) (s0 : Sender) (window : list SenderEvent) :
  readyState ch = RsOpen ->
  plain_callback (onFileTransferCallback s0) = true ->
  outcomes T s0 = [] ->
  Forall (fun e => unrelated_message p T e = true) window ->
  let offer := (p, FMetadata (file_name f) (Z.of_nat (length (file_bytes f)))
                     (file_type f) T now) in
  let s2 := run window (sendFile (Some ch) true p f T now s0) in
  let sd := step (SeIncoming p (declined T)) s2 in
  let sa := step (SeIncoming p (accepted T)) s2 in
  let i := length (loops s0) in
  let s_sent := run (whole_loop i f) sa in
  let s_late := run (whole_loop i f) (step (SeTimeout T) sa) in
  let s_thrown := step (SeLoop i false) sa in
  (sent sd = (sent s0 ++ [offer])%list
   /\ outcomes T sd = [false]
   /\ onFileTransferCallback sd = onFileTransferCallback s0
   /\ loops sd = loops s0)
  /\ (sent sa = (sent s0 ++ [offer])%list
      /\ outcomes T sa = []
      /\ onFileTransferCallback sa = onFileTransferCallback s0
      /\ loops sa = (loops s0 ++ [sending p T f])%list)
  /\ (sent s_sent = (sent s0 ++ file_frames p f T now)%list
      /\ outcomes T s_sent = [true]
      /\ loops s_sent = loops s0)
  /\ (sent s_late = (sent s0 ++ file_frames p f T now)%list
      /\ outcomes T s_late = [false; true])
  /\ (sent s_thrown = (sent s0 ++ [offer])%list
      /\ outcomes T s_thrown = [false]
      /\ loops s_thrown = loops s0).
Proof.
  intros Hopen Hplain Hout Hwin. cbv zeta.
  destruct (sendFile_open p f T now ch s0 Hopen)
    as (Hslot1 & Htm1 & Hres1 & Hsent1 & Hloops1).
  cbv zeta in *. set (s1 := sendFile (Some ch) true p f T now s0) in *.
  destruct (window_keeps_handler p T f _ window s1 Hplain Hwin Hslot1)
    as (Hslot2 & Htm2 & Hres2 & Hsent2 & Hloops2).
  cbv zeta in *. set (s2 := run window s1) in *.
  assert (Hstep : forall d, step (SeIncoming p d) s2
            = invoke (SendFileCallback p T f (onFileTransferCallback s0)) p d s2)
    by (intros d; cbn [step]; by rewrite Hslot2).
  rewrite !Hstep.
  destruct (invoke_handler p T f _ p (accepted T) s2 Hplain)
    as (Htma & Hsenta & Hacc & _ & _).
  destruct (invoke_handler p T f _ p (declined T) s2 Hplain)
    as (_ & Hsentd & _ & Hdec & _).
  destruct (Hacc (conj eq_refl (is_response_accepted T))) as (Hsa1 & Hsa2 & Hsa3).
  destruct (is_response_declined T) as [Hd1 Hd2].
  destruct (Hdec (conj eq_refl (conj Hd1 Hd2))) as (Hsd1 & Hsd2 & Hsd3).
  cbv zeta in *.
  set (sa := invoke (SendFileCallback p T f (onFileTransferCallback s0)) p
               (accepted T) s2) in *.
  set (sd := invoke (SendFileCallback p T f (onFileTransferCallback s0)) p
               (declined T) s2) in *.
  assert (Hout2 : outcomes T s2 = []).
  { rewrite (outcomes_same T s1 s2 Hres2). by rewrite (outcomes_same T s0 s1 Hres1). }
  assert (Houta : outcomes T sa = [])
    by (by rewrite (outcomes_same T s2 sa Hsa2)).
  assert (Hsenta0 : sent sa = (sent s0 ++ [(p, FMetadata (file_name f)
                       (Z.of_nat (length (file_bytes f))) (file_type f) T now)])%list)
    by (by rewrite Hsenta, Hsent2, Hsent1).
  assert (Hloopsa : loops sa = (loops s0 ++ [sending p T f])%list)
    by (by rewrite Hsa3, Hloops2, Hloops1).
  split; [|split; [|split; [|split]]].
  - split; [by rewrite Hsentd, Hsent2, Hsent1|]. split; [|split; [done|]].
    + rewrite (outcomes_snoc T T false s2 sd Hsd2), decide_True by done.
      by rewrite Hout2.
    + by rewrite Hsd3, Hloops2, Hloops1.
  - done.
  - destruct (started_loop_runs (loops s0) [] p T f sa Hloopsa)
      as (_ & _ & Hr & Hs & Hl).
    cbv zeta in *. split; [|split].
    + rewrite Hs, Hsenta0. unfold file_frames. by rewrite <- app_assoc.
    + rewrite (outcomes_snoc T T true sa _ Hr), decide_True by done.
      by rewrite Houta.
    + by rewrite Hl, app_nil_r.
  - assert (Harmed : timers sa !! T = Some (onFileTransferCallback s0)).
    { rewrite Htma, Htm2, Htm1. apply lookup_insert_eq. }
    destruct (step_timeout_armed T _ sa Harmed) as (_ & _ & Ht3 & Ht4 & Ht5).
    cbv zeta in *. set (st := step (SeTimeout T) sa) in *.
    destruct (started_loop_runs (loops s0) [] p T f st)
      as (_ & _ & Hr & Hs & _); [by rewrite Ht5|].
    cbv zeta in *. split.
    + rewrite Hs, Ht4, Hsenta0. unfold file_frames. by rewrite <- app_assoc.
    + rewrite (outcomes_snoc T T true st _ Hr), decide_True by done.
      rewrite (outcomes_snoc T T false sa st Ht3), decide_True by done.
      by rewrite Houta.
  - cbn [step]. unfold loop_step.
    rewrite Hloopsa, list_lookup_middle by done. simpl.
    rewrite Hloopsa, delete_middle, app_nil_r.
    split; [done|]. split; [|done].
    rewrite outcomes_resolve_same.
    change (outcomes T (set_loops (delete (length (loops s0))) sa))
      with (outcomes T sa). by rewrite Houta.
Qed.

(** X21. The timer of an answered offer outlives it and takes the next offer
    down.  An offer [T1] is accepted; a second file is offered under [T2]
    before the timer of [T1] has fired.  When that timer fires it puts the
    slot back to what it was before [T1], which removes the handler waiting
    for the answer to [T2]: the acceptance of [T2] then sends no frame,
    starts no [sendFileChunks] and resolves nothing, and the second promise
    fails at its own timer. *)
Theorem stale_timer_drops_next_offer (p1 p2 : string) (f1 f2 : File)
    (T1 T2 : string) (now1 now2 : Z) (ch : RTCDataChannel) (s0 : Sender) :
  readyState ch = RsOpen ->
  plain_callback (onFileTransferCallback s0) = true ->
  T1 <> T2 ->
  outcomes T2 s0 = [] ->
  let s1 := sendFile (Some ch) true p1 f1 T1 now1 s0 in
  let s2 := step (SeIncoming p1 (accepted T1)) s1 in
  let s3 := sendFile (Some ch) true p2 f2 T2 now2 s2 in
  let s4 := step (SeTimeout T1) s3 in
  let s5 := step (SeIncoming p2 (accepted T2)) s4 in
  let s6 := step (SeTimeout T2) s5 in
  onFileTransferCallback s3
    = SendFileCallback p2 T2 f2 (onFileTransferCallback s0)
  /\ onFileTransferCallback s4 = onFileTransferCallback s0
  /\ sent s5 = sent s3
  /\ outcomes T2 s5 = []
  /\ sent s6 = sent s3
  /\ outcomes T2 s6 = [false]
  /\ loops s5 = loops s4.
Proof.
  intros Hopen Hplain Hne Hout. cbv zeta.
  destruct (sendFile_open p1 f1 T1 now1 ch s0 Hopen) as (Hslot1 & Htm1 & Hres1 & _).
  cbv zeta in *. set (s1 := sendFile (Some ch) true p1 f1 T1 now1 s0) in *.
  destruct (invoke_handler p1 T1 f1 _ p1 (accepted T1) s1 Hplain)
    as (Htm2 & _ & Hacc & _ & _).
  destruct (Hacc (conj eq_refl (is_response_accepted T1))) as (Hslot2 & Hres2 & _).
  cbv zeta in *.
  assert (Hs2 : step (SeIncoming p1 (accepted T1)) s1
                = invoke (SendFileCallback p1 T1 f1 (onFileTransferCallback s0)) p1
                    (accepted T1) s1) by (cbn [step]; by rewrite Hslot1).
  rewrite <- Hs2 in *. set (s2 := step (SeIncoming p1 (accepted T1)) s1) in *.
  destruct (sendFile_open p2 f2 T2 now2 ch s2 Hopen) as (Hslot3 & Htm3 & Hres3 & _).
  cbv zeta in *. set (s3 := sendFile (Some ch) true p2 f2 T2 now2 s2) in *.
  assert (Harmed : timers s3 !! T1 = Some (onFileTransferCallback s0)).
  { rewrite Htm3, lookup_insert_ne by done. rewrite Htm2, Htm1.
    apply lookup_insert_eq. }
  destruct (step_timeout_armed T1 _ s3 Harmed)
    as (Hslot4 & Htm4 & Hres4 & Hsent4 & _).
  cbv zeta in *. set (s4 := step (SeTimeout T1) s3) in *.
  destruct (invoke_plain _ p2 (accepted T2) s4 Hplain)
    as (Hslot5 & Htm5 & Hres5 & Hsent5 & Hloops5).
  cbv zeta in *.
  assert (Hs5 : step (SeIncoming p2 (accepted T2)) s4
                = invoke (onFileTransferCallback s0) p2 (accepted T2) s4)
    by (cbn [step]; by rewrite Hslot4).
  rewrite <- Hs5 in *. set (s5 := step (SeIncoming p2 (accepted T2)) s4) in *.
  assert (Harmed2 : timers s5 !! T2 = Some (onFileTransferCallback s2)).
  { rewrite Htm5, Htm4, lookup_delete_ne by done. rewrite Htm3.
    apply lookup_insert_eq. }
  destruct (step_timeout_armed T2 _ s5 Harmed2) as (_ & _ & Hres6 & Hsent6 & _).
  cbv zeta in *.
  assert (Hout5 : outcomes T2 s5 = []).
  { rewrite (outcomes_same T2 s4 s5 Hres5).
    rewrite (outcomes_snoc T2 T1 false s3 s4 Hres4), decide_False by done.
    rewrite (outcomes_same T2 s2 s3 Hres3).
    rewrite (outcomes_same T2 s1 s2 Hres2).
    by rewrite (outcomes_same T2 s0 s1 Hres1). }
  split; [by rewrite Hslot3, Hslot2|]. split; [done|].
  split; [congruence|]. split; [done|]. split; [congruence|]. split; [|done].
  rewrite (outcomes_snoc T2 T2 false s5 _ Hres6), decide_True by done.
  by rewrite Hout5.
Qed.

(** X22. An offer that cannot go out fails at once and leaves nothing
    behind.  When the peer has no channel, the channel is not open or the
    send is rejected, [sendFile] sends nothing, installs no handler, arms no
    timer and starts no [sendFileChunks]; the promise is resolved with
    failure, and no later message naming the transfer and no timer changes
    that or sends anything. *)
Theorem sendFile_unavailable (dataChannel : option RTCDataChannel)
    (send_ok : bool) (p : string) (f : File) (T : string) (now : Z) (s : Sender) :
  (forall ch, dataChannel = Some ch -> readyState ch = RsOpen -> send_ok = false) ->
  fresh T s ->
  let s1 := sendFile dataChannel send_ok p f T now s in
  sent s1 = sent s
  /\ onFileTransferCallback s1 = onFileTransferCallback s
  /\ timers s1 = timers s
  /\ outcomes T s1 = [false]
  /\ step (SeTimeout T) s1 = s1
  /\ (forall q d, ftd_transferId d = Some T ->
        let s2 := step (SeIncoming q d) s1 in
        sent s2 = sent s /\ outcomes T s2 = [false] /\ loops s2 = loops s)
  /\ loops s1 = loops s.
Proof.
  intros Hbad (Hslot & Hfree & Htm & Hout & Hloops). cbv zeta.
  assert (Hs1 : sendFile dataChannel send_ok p f T now s = resolve T false s).
  { unfold sendFile. destruct dataChannel as [ch|]; [|done].
    destruct (readyState ch) eqn:Hrs; try done.
    by rewrite (Hbad ch eq_refl Hrs). }
  rewrite Hs1. split; [done|]. split; [done|]. split; [done|].
  split; [by rewrite outcomes_resolve_same, Hout|].
  split; [simpl; by rewrite Htm|]. split; [|done].
  intros q d Hd. cbn [step].
  destruct (invoke_unmatched T (onFileTransferCallback (resolve T false s)) q d
              (resolve T false s) Hslot Hd) as (_ & _ & Hres & Hsent & Hl).
  cbv zeta in *. split; [by rewrite Hsent|]. split; [|by rewrite Hl].
  rewrite (outcomes_same T _ _ Hres). by rewrite outcomes_resolve_same, Hout.
Qed.

End Answers.

(** ** From one device to the other *)

Section EndToEnd.

Variable JSON_parse : string -> option WireObject.
Variable JSON_stringify : WireObject -> string.

Lemma onmessage_metadata (p : string) (f : File) (T : string) (now : Z) :
  let meta := metadata_object (file_name f) (Z.of_nat (length (file_bytes f)))
                (file_type f) T now in
  JSON_parse (JSON_stringify meta) = Some meta ->
  onmessage JSON_parse p (frame_data JSON_stringify (offer_frame f T now))
  = [OnFileTransfer p meta].
Proof. cbv zeta. intros Hrt. unfold onmessage, offer_frame, frame_data. by rewrite Hrt. Qed.

Lemma onmessage_message (p : string) (md : MessageData) :
  JSON_parse (JSON_stringify (message_object md)) = Some (message_object md) ->
  onmessage JSON_parse p (message_data JSON_stringify md)
  = OnMessage p (message_object md)
    :: match JSON_parse (msg_message md) with
       | Some messageData =>
           if is_control messageData then [OnFileTransfer p messageData] else []
       | None => []
       end.
Proof. intros Hrt. unfold onmessage, message_data. by rewrite Hrt. Qed.

(** X23. An offer is shown only when it comes from the selected peer with a
    name and a size that is not zero; the handler changes nothing else.  So
    the offer of an empty file, or of a file without a name, never reaches
    the user of the other device: its metadata frame leaves the chat
    component exactly as it was, and there is nothing to accept. *)
Theorem empty_file_offer_never_shown (generated a : string) (f : File)
    (T : string) (now : Z) (c : Chat) :
  let meta := metadata_object (file_name f) (Z.of_nat (length (file_bytes f)))
                (file_type f) T now in
  JSON_parse (JSON_stringify meta) = Some meta ->
  file_bytes f = [] \/ file_name f = "" ->
  chat_receives JSON_parse generated a
    (frame_data JSON_stringify (offer_frame f T now)) c = c
  /\ forall p data,
       let c' := chat_onFileTransfer generated p data c in
       receiver c' = receiver c /\ shown c' = shown c
       /\ (offers c' = offers c
           \/ exists o, offers c' = (offers c ++ [o])%list
                /\ p = selectedDevice (receiver c)
                /\ w_type data = Some "file-metadata"
                /\ w_name data = Some (fo_name o) /\ fo_name o <> ""
                /\ w_size data = Some (fo_size o) /\ fo_size o <> 0%Z
                /\ fo_type o <> "").
Proof.
  cbv zeta. intros Hrt Hempty. split.
  - unfold chat_receives. rewrite onmessage_metadata by done. simpl.
    unfold chat_onFileTransfer. simpl.
    destruct (decide (a = selectedDevice (receiver c))); [|done].
    destruct (decide (file_name f = "")); [done|].
    destruct Hempty as [Hb|Hn]; [|done]. by rewrite Hb.
  - intros p data. unfold chat_onFileTransfer.
    destruct (decide (p = selectedDevice (receiver c))); [|by auto].
    destruct (decide (w_type data = Some "file-metadata")); [|by auto].
    destruct (w_name data) as [n|] eqn:Hn; [|by auto].
    destruct (w_size data) as [size|] eqn:Hs; [|by auto].
    destruct (decide (n = "")); [by auto|].
    destruct (decide (size = 0%Z)); [by auto|].
    simpl. split; [done|]. split; [done|]. right. eexists. split; [done|]. simpl.
    repeat split; try done.
    unfold or_else. destruct (w_fileType data) as [t|]; [|done].
    by destruct (decide (t = "")).
Qed.

(** X24. A chat message shows up on the other device when it comes from the
    selected peer and its text does not read as an answer to a file offer.
    A message from any other peer is dropped, not kept for later; a message
    whose text reads as [file-accepted] or [file-declined] is never shown,
    whoever wrote it.  No message touches the transfer state or the
    offers. *)
Theorem chat_shows_messages_of_selected_peer (generated p : string)
    (md : MessageData) (c : Chat) :
  JSON_parse (JSON_stringify (message_object md)) = Some (message_object md) ->
  let c' := chat_receives JSON_parse generated p (message_data JSON_stringify md) c in
  receiver c' = receiver c
  /\ offers c' = offers c
  /\ shown c'
     = if decide (p = selectedDevice (receiver c)) then
         if reads_as_control JSON_parse (msg_message md) then shown c
         else (shown c ++ [message_object md])%list
       else shown c.
Proof.
  intros Hrt. cbv zeta. unfold chat_receives. rewrite onmessage_message by done.
  unfold reads_as_control.
  assert (Hctl : forall o c1, is_control o = true ->
            chat_onFileTransfer generated p o c1 = c1).
  { intros o c1 Ho. unfold chat_onFileTransfer.
    destruct (decide (p = selectedDevice (receiver c1))); [|done].
    destruct (decide (w_type o = Some "file-metadata")) as [Hm|]; [|done].
    unfold is_control in Ho. rewrite Hm in Ho. done. }
  cbn [foldl chat_handle]. unfold chat_onMessage. cbn [w_message message_object].
  destruct (JSON_parse (msg_message md)) as [parsed|].
  - destruct (is_control parsed) eqn:Hc.
    + cbn [foldl chat_handle]. rewrite Hctl by done.
      by destruct (decide (p = selectedDevice (receiver c))).
    + cbn [foldl]. by destruct (decide (p = selectedDevice (receiver c))).
  - cbn [foldl]. by destruct (decide (p = selectedDevice (receiver c))).
Qed.

Lemma chat_receives_binary (generated p q : string) (frames : list (list byte)) :
  forall c,
    let c' := foldl (fun acc fr =>
                       chat_receives JSON_parse generated p
                         (arrives BtArrayBuffer (frame_data JSON_stringify fr.2)) acc)
                c (map (fun ch : list byte => (q, FBinary ch)) frames) in
    receiver c' = receive_all p frames (receiver c)
    /\ shown c' = shown c /\ offers c' = offers c.
Proof.
  induction frames as [|fr frames IH]; intros c; [done|].
  cbv zeta. simpl. destruct (IH (chat_receives JSON_parse generated p
                                   (BinaryData fr) c)) as (H1 & H2 & H3).
  cbv zeta in *. by rewrite H1, H2, H3.
Qed.

Lemma chat_drops_blobs (generated p q : string) (frames : list (list byte)) :
  forall c,
    foldl (fun acc fr =>
             chat_receives JSON_parse generated p
               (arrives BtBlob (frame_data JSON_stringify fr.2)) acc)
      c (map (fun ch : list byte => (q, FBinary ch)) frames) = c.
Proof. induction frames as [|fr frames IH]; intros c; [done|]. simpl. apply IH. Qed.

(** X25. A file that is offered and accepted arrives intact when the chunks
    are handed over as [ArrayBuffer]s.  Device [a] offers the file [f], which
    has a name and at least one byte, to [b]; on [b] the chat with [a] is
    open and the channel to [a] is open.  The metadata frame makes [b] show
    one offer with the name, size, type and transfer id of the file.
    Pressing Accept sends a chat message to [a]; on [a] that message starts
    [sendFileChunks], and when no send throws and the timer of the offer has
    not fired meanwhile, the frames of the file go out on [b]'s channel and
    the promise of [sendFile] is then resolved with success.  Fed to [b] in
    order as [ArrayBuffer]s, the frames end in one download with the file's
    name and exactly its bytes, and nothing of the exchange appears among
    the chat messages.  Handed over as [Blob]s, the same frames are ignored
    by [onmessage]: the transfer on [b] stays where Accept left it. *)
Theorem accepted_file_arrives (a b : string) (f : File) (T : string)
    (now now' : Z) (generated bname : string) (ch chb : RTCDataChannel)
    (s0 : Sender) (c0 : Chat) (mb : Manager) :
  let meta := metadata_object (file_name f) (Z.of_nat (length (file_bytes f)))
                (file_type f) T now in
  let yes := control_object "file-accepted" T in
  let reply := {| msg_message := JSON_stringify yes; msg_senderName := bname;
                  msg_timestamp := now' |} in
  JSON_parse (JSON_stringify meta) = Some meta ->
  JSON_parse (JSON_stringify yes) = Some yes ->
  JSON_parse (JSON_stringify (message_object reply)) = Some (message_object reply) ->
  readyState ch = RsOpen ->
  plain_callback (onFileTransferCallback s0) = true ->
  outcomes T s0 = [] ->
  file_name f <> "" ->
  file_bytes f <> [] ->
  T <> "" ->
  selectedDevice (receiver c0) = a ->
  dataChannels mb !! a = Some chb ->
  readyState chb = RsOpen ->
  let s1 := sendFile (Some ch) true b f T now s0 in
  let c1 := chat_receives JSON_parse generated a
              (arrives BtArrayBuffer (frame_data JSON_stringify (offer_frame f T now)))
              c0 in
  let accepting := chat_accept JSON_stringify (offer_of f T) c1 in
  let s2 := sender_receives JSON_parse b (message_data JSON_stringify reply) s1 in
  let s3 := run (whole_loop (length (loops s0)) f) s2 in
  let delivered binaryType :=
    foldl (fun acc fr =>
             chat_receives JSON_parse generated a
               (arrives binaryType (frame_data JSON_stringify fr.2)) acc)
      accepting.1 (drop (length (sent s1)) (sent s3)) in
  let c3 := delivered BtArrayBuffer in
  offers c1 = (offers c0 ++ [offer_of f T])%list
  /\ sendMessage bname now' true a accepting.2 mb = (true, Some reply)
  /\ sent s2 = sent s1
  /\ outcomes T s2 = []
  /\ loops s2 = (loops s0 ++ [sending b T f])%list
  /\ sent s3 = (sent s0 ++ file_frames b f T now)%list
  /\ outcomes T s3 = [true]
  /\ downloads (receiver c3)
     = (downloads (receiver c0) ++
        [{| dl_name := file_name f; dl_type := fo_type (offer_of f T);
            dl_bytes := file_bytes f |}])%list
  /\ fileTransferRef (receiver c3) = None
  /\ shown c3 = shown c0
  /\ delivered BtBlob = accepting.1.
Proof.
  cbv zeta. intros Hmeta Hyes Hreply Hopen Hplain Hout Hname Hbytes HT Hsel Hchb Hopenb.
  (* the offer on [b] *)
  assert (Hc1 : chat_receives JSON_parse generated a
                  (arrives BtArrayBuffer
                     (frame_data JSON_stringify (offer_frame f T now))) c0
                = {| receiver := receiver c0; shown := shown c0;
                     offers := (offers c0 ++ [offer_of f T])%list |}).
  { change (arrives BtArrayBuffer (frame_data JSON_stringify (offer_frame f T now)))
      with (frame_data JSON_stringify (offer_frame f T now)).
    unfold chat_receives. rewrite onmessage_metadata by done. simpl.
    unfold chat_onFileTransfer. simpl. rewrite Hsel.
    rewrite decide_True by done. rewrite decide_False by done.
    rewrite decide_False by (destruct (file_bytes f); [done | simpl; lia]).
    unfold offer_of, or_else. by rewrite (decide_False (P := T = "")). }
  rewrite Hc1. split; [done|].
  (* the answer of [b] *)
  split.
  { unfold sendMessage. rewrite Hchb, Hopenb. done. }
  (* the answer on [a] *)
  destruct (sendFile_open b f T now ch s0 Hopen)
    as (Hslot1 & Htm1 & Hres1 & Hsent1 & Hloops1).
  cbv zeta in *. set (s1 := sendFile (Some ch) true b f T now s0) in *.
  assert (Hs2 : sender_receives JSON_parse b
                  (message_data JSON_stringify
                     {| msg_message := JSON_stringify (control_object "file-accepted" T);
                        msg_senderName := bname; msg_timestamp := now' |}) s1
                = invoke (SendFileCallback b T f (onFileTransferCallback s0)) b
                    (accepted T) s1).
  { unfold sender_receives. rewrite onmessage_message by done.
    cbn [msg_message]. rewrite Hyes. simpl. by rewrite Hslot1. }
  rewrite Hs2.
  destruct (invoke_handler b T f _ b (accepted T) s1 Hplain)
    as (_ & Hsent2 & Hacc & _ & _).
  destruct (Hacc (conj eq_refl (is_response_accepted T))) as (_ & Hres2 & Hloops2).
  cbv zeta in *.
  set (s2 := invoke (SendFileCallback b T f (onFileTransferCallback s0)) b
               (accepted T) s1) in *.
  assert (Hout2 : outcomes T s2 = []).
  { rewrite (outcomes_same T s1 s2 Hres2).
    by rewrite (outcomes_same T s0 s1 Hres1). }
  assert (Hl2 : loops s2 = (loops s0 ++ [sending b T f])%list)
    by (by rewrite Hloops2, Hloops1).
  split; [done|]. split; [done|]. split; [done|].
  (* [sendFileChunks] on [a] *)
  destruct (started_loop_runs (loops s0) [] b T f s2 Hl2) as (_ & _ & Hres3 & Hsent3 & _).
  cbv zeta in *. set (s3 := run (whole_loop (length (loops s0)) f) s2) in *.
  split; [rewrite Hsent3, Hsent2, Hsent1; unfold file_frames; by rewrite <- app_assoc|].
  split.
  { rewrite (outcomes_snoc T T true s2 s3 Hres3), decide_True by done.
    by rewrite Hout2. }
  (* the frames on [b] *)
  rewrite Hsent3, Hsent2, drop_app_length.
  destruct (chat_receives_binary generated a b (sendFileChunks (file_bytes f))
              (chat_accept JSON_stringify (offer_of f T)
                 {| receiver := receiver c0; shown := shown c0;
                    offers := (offers c0 ++ [offer_of f T])%list |}).1)
    as (Hrec & Hshown & _).
  cbv zeta in *. rewrite Hrec, Hshown. cbn [chat_accept fst receiver shown].
  pose proof (sendFileChunks_count (file_bytes f)) as Hcount.
  unfold sender_totalChunks in Hcount.
  pose proof (ceil_div_bounds (Z.of_nat (length (file_bytes f))) 16384 ltac:(lia)) as Hb.
  assert (Hlen : (0 < length (file_bytes f))%nat)
    by (destruct (file_bytes f); [done | simpl; lia]).
  destruct (receive_until_complete a (sendFileChunks (file_bytes f))
              (acceptFileOffer (fo_name (offer_of f T)) (fo_size (offer_of f T))
                 (fo_type (offer_of f T)) (receiver c0))
              {| ft_name := file_name f;
                 ft_size := Z.of_nat (length (file_bytes f));
                 ft_type := fo_type (offer_of f T);
                 chunks := [];
                 totalChunks := ceil_div (Z.of_nat (length (file_bytes f))) 16384;
                 receivedChunks := 0 |}) as [Hall _];
    try done; try (simpl; lia);
    try (intros Hnil; rewrite Hnil in Hcount; simpl in Hcount; lia).
  rewrite Hall. simpl.
  split; [by rewrite reassemble_concat, sendFileChunks_concat|].
  split; [done|]. split; [done|]. apply chat_drops_blobs.
Qed.

End EndToEnd.

(** ** Glare on a session that is not yet connecting *)

Section Glare.

Variable E : Engine.
Variable now : Z.

(** X26. Glare while the engine of the lesser side reports its session
    neither connecting nor connected.  Two managers [A] and [B], the id of
    [A] less than the id of [B], each hold a local offer for the other when
    the other's offer arrives.  [B] ignores the offer of [A] and is left
    exactly as it was.  [A] closes its session, creates a new one as
    responder and hands it the offer of [B], in that order; when engine and
    transport accept every step, the calls that follow are those of an
    answered offer, the answer is published for [B], and [A] ends with a
    responder session. *)
Theorem glare_resolved_when_not_connecting (A B : Manager) (sesA sesB : Session)
    (offerA offerB : Payload) :
  js_lt (myDeviceId A) (myDeviceId B) = true ->
  holds_local_offer A (myDeviceId B) sesA ->
  holds_local_offer B (myDeviceId A) sesB ->
  is_connected_or_connecting (connectionState (pc sesA)) = false ->
  let b := myDeviceId B in
  let sA := mkSignal now (myDeviceId A) "offer" offerA in
  let sB := mkSignal now (myDeviceId B) "offer" offerB in
  let A' := handleSignal E now sB A in
  handleSignal E now sA B = B
  /\ (exists rest,
        new_events A A'
        = EvClose b :: EvNew b false :: EvSetRemoteDescription b offerB :: rest)
  /\ (forall answer pc3,
        answer_accepted E now (myDeviceId A) b new_RTCPeerConnection offerB
          (default [] (iceCandidatesBuffer A !! b)) answer pc3 ->
        new_events A A'
        = EvClose b :: EvNew b false
          :: answer_events b offerB (default [] (iceCandidatesBuffer A !! b))
               answer (mkSignal now (myDeviceId A) "answer" (plain answer))
        /\ peerConnections A' !! b = Some {| pc := pc3; initiator := false |}).
Proof.
  intros Hlt HA HB Hcc. cbv zeta.
  rewrite (glare_lesser_yields E now (mkSignal now (myDeviceId B) "offer" offerB) A sesA);
    [|done|exact HA|exact Hlt|exact Hcc].
  simpl from. simpl data.
  set (A0 := close_and_delete (myDeviceId B) A).
  destruct (create_fresh_session (myDeviceId B) false A0) as (Hf & Hme & Hbuf).
  split; [|split].
  - apply (glare_greater_keeps E now _ _ sesB); [done | exact HB | by apply js_lt_asym].
  - destruct (answer_body_starts E now (myDeviceId B) offerB _ _ Hf) as [rest Hr].
    exists rest. apply new_events_app. rewrite Hr. simpl.
    by rewrite <- !app_assoc.
  - intros answer pc3 Hacc.
    destruct (answer_body_run E now (myDeviceId B) offerB
                (create_fresh (myDeviceId B) false A0)
                (new_session false) answer pc3 Hf) as [Ht Hl].
    { rewrite Hme, Hbuf. exact Hacc. }
    cbv zeta in Ht, Hl. rewrite Hme, Hbuf in Ht. split; [|exact Hl].
    apply new_events_app. rewrite Ht. simpl. by rewrite <- !app_assoc.
Qed.

End Glare.

(** ** The further properties at concrete inputs *)

Lemma connectToPeer_refused_offer_stays_witness :
  js_lt "a" "b" = true
  /\ peerConnections (fresh_manager "a") !! "b" = None
  /\ eng_createOffer refusing_engine new_RTCPeerConnection = None
  /\ peerConnections (connectToPeer refusing_engine 0 "b" (fresh_manager "a")) !! "b"
     = Some (new_session true).
Proof.
  assert (H1 : js_lt "a" "b" = true) by reflexivity.
  assert (H2 : peerConnections (fresh_manager "a") !! "b" = None) by reflexivity.
  assert (H3 : eng_createOffer refusing_engine new_RTCPeerConnection = None)
    by reflexivity.
  split; [exact H1|]. split; [exact H2|]. split; [exact H3|].
  destruct (connectToPeer_refused_offer_stays refusing_engine 0 "b"
              (fresh_manager "a") H1 H2 H3) as (H & _).
  exact H.
Defined.

Lemma connectToPeer_unpublished_offer_blocks_witness :
  js_lt "a" "b" = true
  /\ eng_push offline_engine "b"
       (mkSignal 0 "a" "offer" (plain {| d_type := "offer"; d_sdp := "v=0" |}))
     = false
  /\ forall E' now',
       connectToPeer E' now' "b" (connectToPeer offline_engine 0 "b" (fresh_manager "a"))
       = connectToPeer offline_engine 0 "b" (fresh_manager "a").
Proof.
  assert (H1 : js_lt "a" "b" = true) by reflexivity.
  assert (H6 : eng_push offline_engine "b"
                 (mkSignal 0 "a" "offer" (plain {| d_type := "offer"; d_sdp := "v=0" |}))
               = false) by reflexivity.
  split; [exact H1|]. split; [exact H6|].
  destruct (connectToPeer_unpublished_offer_blocks offline_engine 0 "b"
              (fresh_manager "a") {| d_type := "offer"; d_sdp := "v=0" |}
              (pc (offering CsNew)) H1 eq_refl eq_refl eq_refl eq_refl H6)
    as (_ & _ & H).
  exact H.
Defined.

Lemma rejected_offer_blocks_later_offers_witness :
  eng_setRemoteDescription accepting_engine new_RTCPeerConnection PNothing = None
  /\ forall E' now' s',
       type s' = "offer" -> from s' = "a" ->
       handleSignal E' now' s' idle_responder = idle_responder.
Proof.
  split; [reflexivity|].
  destruct (rejected_offer_blocks_later_offers accepting_engine 0
              (mkSignal 0 "a" "offer" PNothing) (fresh_manager "b")
              eq_refl eq_refl eq_refl) as (_ & _ & H & _).
  exact H.
Defined.

Lemma candidates_before_and_after_description_witness :
  peerConnections two_buffered !! "b" = Some (offering CsNew)
  /\ new_events two_buffered
       (receive_candidates accepting_engine "b"
          [PIce (ice "candidate:3" (Some "0")); end_of_candidates] two_buffered)
     = [].
Proof.
  assert (H : peerConnections two_buffered !! "b" = Some (offering CsNew))
    by (vm_compute; reflexivity).
  split; [exact H|].
  destruct (candidates_before_and_after_description accepting_engine "b"
              (offering CsNew) two_buffered H) as [Hbefore _].
  destruct (Hbefore eq_refl
              [PIce (ice "candidate:3" (Some "0")); end_of_candidates])
    as (_ & Hnone & _).
  exact Hnone.
Defined.

Lemma negotiation_completes_witness :
  js_lt "a" "b" = true
  /\ peerConnections
       (handleSignal accepting_engine 0
          (mkSignal 0 "b" "answer" (plain {| d_type := "answer"; d_sdp := "v=0" |}))
          (connectToPeer accepting_engine 0 "b" (fresh_manager "a"))) !! "b"
     = Some (negotiated (plain {| d_type := "answer"; d_sdp := "v=0" |}) true).
Proof.
  assert (H : js_lt "a" "b" = true) by reflexivity.
  split; [exact H|].
  destruct (negotiation_completes "a" "b" 0 H) as (_ & _ & _ & _ & HA & _).
  exact HA.
Defined.

Lemma swept_peer_still_reported_witness :
  bad_session three_sessions "f"
  /\ forall myDeviceName now send_ok message,
       sendMessage myDeviceName now send_ok "f" message
         (cleanupConnections three_sessions) = (false, None).
Proof.
  assert (H : bad_session three_sessions "f").
  { exists (offering CsFailed). split; vm_compute; reflexivity. }
  split; [exact H|].
  destruct (swept_peer_still_reported three_sessions "f" H) as [_ Hsend].
  exact Hsend.
Defined.

Lemma cleanupDatabase_removes_the_old_witness :
  (forall p : DbPath, (fun _ => true) p = true)
  /\ cleanupDatabase (fun _ => true) 1000000 "a" (Stored stored_devices)
       (Stored stored_signals)
     = [DevicePath "a"; DevicePath "d"; SignalPath "a" "s1"].
Proof.
  assert (H : forall p : DbPath, (fun _ => true) p = true) by reflexivity.
  split; [exact H|].
  destruct (cleanupDatabase_removes_the_old (fun _ => true) 1000000 "a"
              stored_devices stored_signals H) as [Hall _].
  exact Hall.
Defined.

Lemma cleanupDatabase_stops_at_rejection_witness :
  protects_d (DevicePath "d") = false
  /\ cleanupDatabase protects_d 1000000 "a"
       (Stored ([("a", Some 0%Z); ("b", Some 400000%Z)]
                ++ ("d", Some 0%Z) :: [("e", Some 0%Z)]))
       (Stored stored_signals)
     = [DevicePath "a"].
Proof.
  split; [reflexivity|].
  assert (Hok : forall k', k' ∈ old_keys 1000000 [("a", Some 0%Z); ("b", Some 400000%Z)] ->
                  protects_d (DevicePath k') = true).
  { intros k' Hk'. change (k' ∈ ["a"]) in Hk'.
    apply list_elem_of_singleton in Hk'. subst k'. reflexivity. }
  destruct (cleanupDatabase_stops_at_rejection protects_d 1000000 "a"
              [("a", Some 0%Z); ("b", Some 400000%Z)] [("e", Some 0%Z)] "d" 0
              (Stored stored_signals) Hok ltac:(lia) eq_refl) as [Hstop _].
  exact Hstop.
Defined.

Lemma sendFileChunks_frame_sizes_witness :
  sendFileChunks (file_bytes small_file) !! 0%nat = Some (file_bytes small_file)
  /\ (0 < Z.of_nat (length (file_bytes small_file)) <= 16384)%Z.
Proof.
  assert (H : sendFileChunks (file_bytes small_file) !! 0%nat
              = Some (file_bytes small_file)) by (vm_compute; reflexivity).
  split; [exact H|].
  destruct (sendFileChunks_frame_sizes (file_bytes small_file) 0
              (file_bytes small_file) H) as (_ & Hsize & _).
  exact Hsize.
Defined.

Lemma receiver_completes_by_count_witness :
  Z.of_nat (length [file_bytes small_file]) = frames_awaited 2
  /\ downloads (receive_all "a" [file_bytes small_file]
                  (acceptFileOffer "a.txt" 2 "text/plain" idle_receiver))
     = [{| dl_name := "a.txt"; dl_type := "text/plain";
           dl_bytes := file_bytes small_file |}].
Proof.
  assert (H : Z.of_nat (length [file_bytes small_file]) = frames_awaited 2)
    by (vm_compute; reflexivity).
  split; [exact H|].
  destruct (receiver_completes_by_count "a.txt" 2 "text/plain" idle_receiver
              [file_bytes small_file] H) as [Hall _].
  exact (f_equal downloads Hall).
Defined.

Lemma answered_offer_witness :
  Forall (fun e => unrelated_message "b" "t1" e = true)
    [SeIncoming "c" (accepted "t1")]
  /\ (let sa := step (SeIncoming "b" (accepted "t1"))
                  (run [SeIncoming "c" (accepted "t1")]
                     (sendFile (Some open_channel) true "b" small_file "t1" 0
                        app_only)) in
      outcomes "t1" sa = []
      /\ outcomes "t1" (run (whole_loop 0 small_file) sa) = [true]
      /\ outcomes "t1" (run (whole_loop 0 small_file) (step (SeTimeout "t1") sa))
         = [false; true]
      /\ outcomes "t1" (step (SeLoop 0 false) sa) = [false]).
Proof.
  assert (Hw : Forall (fun e => unrelated_message "b" "t1" e = true)
                 [SeIncoming "c" (accepted "t1")]) by (repeat constructor).
  split; [exact Hw|].
  destruct (answered_offer "b" small_file "t1" 0 open_channel app_only
              [SeIncoming "c" (accepted "t1")] eq_refl eq_refl eq_refl Hw)
    as (_ & (_ & Ha & _) & (_ & Hs & _) & (_ & Hl) & (_ & Ht & _)).
  exact (conj Ha (conj Hs (conj Hl Ht))).
Defined.

Lemma stale_timer_drops_next_offer_witness :
  "t1" <> "t2"
  /\ outcomes "t2"
       (step (SeTimeout "t2")
          (step (SeIncoming "b" (accepted "t2"))
             (step (SeTimeout "t1")
                (sendFile (Some open_channel) true "b" small_file "t2" 10
                   (step (SeIncoming "b" (accepted "t1"))
                      (sendFile (Some open_channel) true "b" small_file "t1" 0
                         app_only))))))
     = [false].
Proof.
  assert (Hne : "t1" <> "t2") by discriminate.
  split; [exact Hne|].
  destruct (stale_timer_drops_next_offer "b" "b" small_file small_file "t1" "t2"
              0 10 open_channel app_only eq_refl eq_refl Hne eq_refl)
    as (_ & _ & _ & _ & _ & H & _).
  exact H.
Defined.

Lemma sendFile_unavailable_witness :
  fresh "t1" app_only
  /\ outcomes "t1" (sendFile None true "b" small_file "t1" 0 app_only) = [false].
Proof.
  split; [apply app_only_fresh|].
  assert (Hbad : forall ch : RTCDataChannel,
            @None RTCDataChannel = Some ch -> readyState ch = RsOpen -> true = false)
    by (intros ch Hch; discriminate Hch).
  destruct (sendFile_unavailable None true "b" small_file "t1" 0 app_only Hbad
              (app_only_fresh "t1")) as (_ & _ & _ & H & _).
  exact H.
Defined.

Lemma empty_file_offer_never_shown_witness :
  table_parse (table_stringify (metadata_object "e.txt" 0 "text/plain" "t1" 0))
  = Some (metadata_object "e.txt" 0 "text/plain" "t1" 0)
  /\ chat_receives table_parse "g" "a"
       (frame_data table_stringify (offer_frame empty_file "t1" 0)) idle_chat
     = idle_chat.
Proof.
  assert (H : table_parse (table_stringify (metadata_object "e.txt" 0 "text/plain" "t1" 0))
              = Some (metadata_object "e.txt" 0 "text/plain" "t1" 0))
    by (vm_compute; reflexivity).
  split; [exact H|].
  destruct (empty_file_offer_never_shown table_parse table_stringify "g" "a"
              empty_file "t1" 0 idle_chat H (or_introl eq_refl)) as [Hsame _].
  exact Hsame.
Defined.

Lemma chat_shows_messages_of_selected_peer_witness :
  table_parse (table_stringify (message_object hello)) = Some (message_object hello)
  /\ shown (chat_receives table_parse "g" "a" (message_data table_stringify hello)
              idle_chat)
     = [message_object hello].
Proof.
  assert (H : table_parse (table_stringify (message_object hello))
              = Some (message_object hello)) by (vm_compute; reflexivity).
  split; [exact H|].
  destruct (chat_shows_messages_of_selected_peer table_parse table_stringify
              "g" "a" hello idle_chat H) as (_ & _ & Hshown).
  exact Hshown.
Defined.

Lemma accepted_file_arrives_witness :
  table_parse (table_stringify (control_object "file-accepted" "t1"))
  = Some (control_object "file-accepted" "t1")
  /\ dataChannels b_with_channel !! "a" = Some open_channel
  /\ (let s2 := sender_receives table_parse "b"
                  (message_data table_stringify
                     {| msg_message :=
                          table_stringify (control_object "file-accepted" "t1");
                        msg_senderName := "B"; msg_timestamp := 1 |})
                  (sendFile (Some open_channel) true "b" small_file "t1" 0
                     app_only) in
      outcomes "t1" s2 = []
      /\ outcomes "t1" (run (whole_loop 0 small_file) s2) = [true]).
Proof.
  assert (Hyes : table_parse (table_stringify (control_object "file-accepted" "t1"))
                 = Some (control_object "file-accepted" "t1"))
    by (vm_compute; reflexivity).
  assert (Hch : dataChannels b_with_channel !! "a" = Some open_channel)
    by (vm_compute; reflexivity).
  split; [exact Hyes|]. split; [exact Hch|].
  destruct (accepted_file_arrives table_parse table_stringify "a" "b" small_file
              "t1" 0 1 "g" "B" open_channel open_channel app_only idle_chat
              b_with_channel
              ltac:(vm_compute; reflexivity) Hyes ltac:(vm_compute; reflexivity)
              eq_refl eq_refl eq_refl ltac:(discriminate) ltac:(discriminate)
              ltac:(discriminate) eq_refl Hch eq_refl)
    as (_ & _ & _ & H & _ & _ & H' & _).
  exact (conj H H').
Defined.

Lemma glare_resolved_when_not_connecting_witness :
  let A := manager_with "a" "b" (offering CsNew) in
  let B := manager_with "b" "a" (offering CsNew) in
  js_lt (myDeviceId A) (myDeviceId B) = true
  /\ handleSignal accepting_engine 0 (mkSignal 0 "a" "offer" sample_offer) B = B
  /\ new_events A (handleSignal accepting_engine 0 (mkSignal 0 "b" "offer" sample_offer) A)
     = EvClose "b" :: EvNew "b" false
       :: answer_events "b" sample_offer []
            {| d_type := "answer"; d_sdp := "v=0" |}
            (mkSignal 0 "a" "answer" sample_answer).
Proof.
  cbv zeta.
  pose proof (glare_resolved_when_not_connecting accepting_engine 0
                (manager_with "a" "b" (offering CsNew))
                (manager_with "b" "a" (offering CsNew))
                (offering CsNew) (offering CsNew) sample_offer sample_offer)
    as H.
  destruct H as (HB & _ & HA).
  - reflexivity.
  - split; [vm_compute; reflexivity | reflexivity].
  - split; [vm_compute; reflexivity | reflexivity].
  - reflexivity.
  - split; [reflexivity|]. split; [exact HB|].
    destruct (HA {| d_type := "answer"; d_sdp := "v=0" |}
                {| connectionState := CsNew; signalingState := Stable;
                   remoteDescription := Some sample_offer |}) as [H _].
    + eexists. repeat split.
    + exact H.
Defined.
